(** * ASH recipe evaluation: response parser, score validator, orchestrator

    A shallow embedding of the three evaluation scripts of the repository

      - code/evaluation/5-round/evaluate_recipes_5_ollama.py        (module [Ollama])
      - code/evaluation/single/evaluate_recipes_4o_mini.py          (module [Gpt4oMini])
      - code/evaluation/5-round/evaluate_recipes_5_gemini_flash.py  (module [Gemini])

    Python values are modelled as follows.
      - [str] is [string]; every [ascii] is one code point below 256.
      - [float] is an IEEE binary64 number, [spec_float] at precision 53.
      - a [dict] is a [gmap string _]; a missing key raises [KeyError].
      - [re] is a backtracking matcher over the regular expressions that
        occur in the scripts, with Python's priorities (greedy, lazy,
        ordered alternation). *)

From Stdlib Require Import ZArith Ascii String List Bool Lia.
From Stdlib Require Import Floats.SpecFloat.
From stdpp Require Import base option list strings gmap.

Local Open Scope string_scope.

(** ** Characters and strings *)

Definition code (a : ascii) : N := N_of_ascii a.

(** [str.isspace] on one code point below 256, which is also what [\s]
    matches in a [str] pattern: TAB..CR, FS..US, SPACE, NEL, NBSP. *)
Definition is_space (a : ascii) : bool :=
  let n := code a in
  ((9 <=? n) && (n <=? 13) || (28 <=? n) && (n <=? 32)
   || (n =? 133) || (n =? 160))%N.

(** [\d] on one code point below 256: the ten ASCII digits. *)
Definition is_digit (a : ascii) : bool :=
  let n := code a in ((48 <=? n) && (n <=? 57))%N.

Definition is_upper (a : ascii) : bool :=
  let n := code a in ((65 <=? n) && (n <=? 90))%N.

Definition is_lower (a : ascii) : bool :=
  let n := code a in ((97 <=? n) && (n <=? 122))%N.

Definition is_letter (a : ascii) : bool := is_upper a || is_lower a.

(** Lower-casing of the ASCII letters. The patterns of the scripts hold
    ASCII letters only, and no other code point below 256 folds to one. *)
Definition lower (a : ascii) : ascii :=
  if is_upper a then ascii_of_N (code a + 32) else a.

Definition newline : ascii := ascii_of_N 10.
Definition nl : string := String newline "".
Definition dot : ascii := ascii_of_N 46.

Fixpoint str_forall (p : ascii -> bool) (s : string) : bool :=
  match s with
  | "" => true
  | String a t => p a && str_forall p t
  end.

Fixpoint str_filter (p : ascii -> bool) (s : string) : string :=
  match s with
  | "" => ""
  | String a t => if p a then String a (str_filter p t) else str_filter p t
  end.

Fixpoint str_drop (n : nat) (s : string) : string :=
  match n, s with
  | S m, String _ t => str_drop m t
  | _, _ => s
  end.

Fixpoint str_take (n : nat) (s : string) : string :=
  match n, s with
  | S m, String a t => String a (str_take m t)
  | _, _ => ""
  end.

(** [s.lstrip()], [s.rstrip()] and [s.strip()] *)
Fixpoint lstrip (s : string) : string :=
  match s with
  | String a t => if is_space a then lstrip t else s
  | "" => ""
  end.

Fixpoint rstrip (s : string) : string :=
  match s with
  | String a t =>
      match rstrip t with
      | "" => if is_space a then "" else String a ""
      | t' => String a t'
      end
  | "" => ""
  end.

Definition strip (s : string) : string := rstrip (lstrip s).

(** [sub in s] for two strings *)
Fixpoint str_prefix (w s : string) : bool :=
  match w, s with
  | "", _ => true
  | String c w', String a s' => Ascii.eqb c a && str_prefix w' s'
  | _, _ => false
  end.

Fixpoint str_in (w s : string) : bool :=
  str_prefix w s ||
  match s with
  | String _ t => str_in w t
  | "" => false
  end.

(** [s.replace(old, new)] for a non-empty [old]: occurrences are replaced
    from the left and do not overlap. The recursion is on a bound on what is
    left of [s]. *)
Fixpoint replace_from (fuel : nat) (old new s : string) : string :=
  match fuel with
  | O => s
  | S fuel' =>
      match s with
      | "" => ""
      | String a t =>
          if str_prefix old s
          then new +:+ replace_from fuel' old new (str_drop (String.length old) s)
          else String a (replace_from fuel' old new t)
      end
  end.

Definition str_replace (old new s : string) : string :=
  replace_from (String.length s) old new s.

(** ** Regular expressions: the fragment of [re] the scripts use *)

Record flags := Flags { IGNORECASE : bool; DOTALL : bool }.

Definition no_flags : flags := Flags false false.

(** Character sets: [.], a literal, [\s], [\d] and a negated class. *)
#[local] Unset Elimination Schemes.
Inductive cset :=
  | CAny
  | CChar (c : ascii)
  | CSpace
  | CDigit
  | CNot (items : list cset).
#[local] Set Elimination Schemes.

Inductive regex :=
  | RLit (w : string)            (* a literal word *)
  | RSet (c : cset)              (* one character of a set *)
  | RStar (c : cset)             (* c*   greedy *)
  | RStarLazy (c : cset)         (* c*?  lazy *)
  | RPlus (c : cset)             (* c+   greedy *)
  | RSeq (r1 r2 : regex)
  | RAlt (r1 r2 : regex)         (* r1|r2, left first *)
  | ROpt (r : regex)             (* r?   greedy *)
  | RGroup (r : regex)           (* (r), capture group 1 *)
  | RLook (r : regex)            (* (?=r) *)
  | REnd.                        (* $ without MULTILINE *)

Declare Scope re_scope.
Delimit Scope re_scope with re.
Bind Scope re_scope with regex.
Notation "r1 ;; r2" := (RSeq r1 r2)
  (at level 100, r2 at level 200, right associativity) : re_scope.

Definition chr_eq (fl : flags) (c a : ascii) : bool :=
  if IGNORECASE fl then Ascii.eqb (lower c) (lower a) else Ascii.eqb c a.

Fixpoint cmatch (fl : flags) (cs : cset) (a : ascii) : bool :=
  match cs with
  | CAny => DOTALL fl || negb (Ascii.eqb a newline)
  | CChar c => chr_eq fl c a
  | CSpace => is_space a
  | CDigit => is_digit a
  | CNot items => negb (existsb (fun c => cmatch fl c a) items)
  end.

(** What is left of [s] after the literal [w], if [s] starts with it. *)
Fixpoint match_lit (fl : flags) (w s : string) : option string :=
  match w with
  | "" => Some s
  | String c w' =>
      match s with
      | String a s' => if chr_eq fl c a then match_lit fl w' s' else None
      | "" => None
      end
  end.

(** The state of a match attempt: what is left of the text, and group 1. *)
Definition mstate : Type := string * option string.

Section Star.
Context {R : Type} (p : ascii -> bool).

(** Greedy repetition: take one more character first, give it back when
    the rest of the pattern fails. *)
Fixpoint star_greedy (s : string) (k : string -> option R) : option R :=
  match s with
  | String a t =>
      if p a then
        match star_greedy t k with
        | Some r => Some r
        | None => k s
        end
      else k s
  | "" => k s
  end.

(** Lazy repetition: try the rest of the pattern first, take one more
    character when it fails. *)
Fixpoint star_lazy (s : string) (k : string -> option R) : option R :=
  match k s with
  | Some r => Some r
  | None =>
      match s with
      | String a t => if p a then star_lazy t k else None
      | "" => None
      end
  end.
End Star.

(** The part of [s] consumed when [s'] is what is left of it. *)
Definition consumed (s s' : string) : string :=
  str_take (String.length s - String.length s') s.

(** [$] without MULTILINE: at the end, or before a final newline. *)
Definition at_end (s : string) : bool :=
  match s with
  | "" => true
  | String a "" => Ascii.eqb a newline
  | _ => false
  end.

(** The backtracking matcher, in continuation-passing style: [k] is the
    rest of the pattern, and the first success in priority order wins. *)
Fixpoint rmatch (fl : flags) (r : regex) (s : string) (cap : option string)
    (k : string -> option string -> option mstate) : option mstate :=
  match r with
  | RLit w =>
      match match_lit fl w s with
      | Some s' => k s' cap
      | None => None
      end
  | RSet c =>
      match s with
      | String a s' => if cmatch fl c a then k s' cap else None
      | "" => None
      end
  | RStar c => star_greedy (cmatch fl c) s (fun s' => k s' cap)
  | RStarLazy c => star_lazy (cmatch fl c) s (fun s' => k s' cap)
  | RPlus c =>
      match s with
      | String a s' =>
          if cmatch fl c a
          then star_greedy (cmatch fl c) s' (fun s'' => k s'' cap)
          else None
      | "" => None
      end
  | RSeq r1 r2 => rmatch fl r1 s cap (fun s' cap' => rmatch fl r2 s' cap' k)
  | RAlt r1 r2 =>
      match rmatch fl r1 s cap k with
      | Some x => Some x
      | None => rmatch fl r2 s cap k
      end
  | ROpt r1 =>
      match rmatch fl r1 s cap k with
      | Some x => Some x
      | None => k s cap
      end
  | RGroup r1 => rmatch fl r1 s cap (fun s' _ => k s' (Some (consumed s s')))
  | RLook r1 =>
      match rmatch fl r1 s cap (fun s' cap' => Some (s', cap')) with
      | Some (_, cap') => k s cap'
      | None => None
      end
  | REnd => if at_end s then k s cap else None
  end.

Definition accept : string -> option string -> option mstate :=
  fun s' cap => Some (s', cap).

Definition match_at (fl : flags) (r : regex) (s : string) : option mstate :=
  rmatch fl r s None accept.

(** A match object: [m.group()] and [m.group(1)]. *)
Record re_match := Match { group0 : string; group1 : option string }.

(** [re.search(pattern, text, flags)]: the leftmost start that matches. *)
Fixpoint re_search (fl : flags) (r : regex) (s : string) : option re_match :=
  match match_at fl r s with
  | Some (s', cap) => Some (Match (consumed s s') cap)
  | None =>
      match s with
      | String _ t => re_search fl r t
      | "" => None
      end
  end.

(** [re.sub(pattern, '', text)] for a pattern that is one character set:
    every character of the set is deleted. *)
Definition re_sub_delete (c : cset) (s : string) : string :=
  str_filter (fun a => negb (cmatch no_flags c a)) s.

(** ** Floats *)

Definition prec : Z := 53.
Definition emax : Z := 1024.

(** The binary64 number nearest to [n / 10^k] (ties to even), for [n >= 0]. *)
Definition float_of_decimal (n : Z) (k : nat) : spec_float :=
  match n with
  | Z0 => S754_zero false
  | Zpos _ =>
      let '(q, e, l) := SFdiv_core_binary prec emax n 0 (10 ^ Z.of_nat k) 0 in
      binary_round_aux prec emax false q e l
  | Zneg _ => S754_nan
  end.

Definition digit_val (a : ascii) : Z := Z.of_N (code a) - 48.

Fixpoint digits_val (acc : Z) (s : string) : Z :=
  match s with
  | "" => acc
  | String a t => digits_val (10 * acc + digit_val a) t
  end.

(** The text before the first dot, and the text after it if there is one. *)
Fixpoint split_dot (s : string) : string * option string :=
  match s with
  | "" => ("", None)
  | String a t =>
      if Ascii.eqb a dot then ("", Some t)
      else let '(i, f) := split_dot t in (String a i, f)
  end.

Definition nonempty (s : string) : bool :=
  match s with "" => false | _ => true end.

(** [float(s)] for a string [s] of digits and dots, which is all the scripts
    pass to it; [None] stands for [ValueError]. Digits with at most one dot
    and at least one digit are a number ("4", "4.0", "4.", ".5"). On any
    other string of digits and dots [float] raises. *)
Definition py_float (s : string) : option spec_float :=
  match split_dot s with
  | (i, None) =>
      if str_forall is_digit i && nonempty i
      then Some (float_of_decimal (digits_val 0 i) 0) else None
  | (i, Some f) =>
      if str_forall is_digit i && str_forall is_digit f
         && (nonempty i || nonempty f)
      then Some (float_of_decimal (digits_val 0 (i +:+ f)) (String.length f))
      else None
  end.

(** [float(z)] for a small integer, as comparisons with [1] and [5] need. *)
Definition float_of_Z (z : Z) : spec_float := binary_normalize prec emax z 0 false.

Definition float_lt (x y : spec_float) : bool := SFltb x y.
Definition float_le (x y : spec_float) : bool := SFleb x y.

(** ** Python values, exceptions and dictionaries *)

Inductive pyval :=
  | PNone
  | PStr (s : string)
  | PInt (z : Z)
  | PFloat (f : spec_float).

Inductive exn :=
  | KeyError (key : string)
  | TypeError
  | AttributeError.

(** A computation that returns a value or raises. *)
Inductive py (A : Type) :=
  | Ok (a : A)
  | Raise (e : exn).
Arguments Ok {A} a.
Arguments Raise {A} e.

Definition bind {A B : Type} (m : py A) (f : A -> py B) : py B :=
  match m with
  | Ok a => f a
  | Raise e => Raise e
  end.

Notation "'let*' x ':=' m 'in' k" := (bind m (fun x => k))
  (at level 10, x pattern, m at level 100, k at level 200).

(** [for x in l: s = body(s, x)], stopping at the first exception. *)
Fixpoint for_each {A S : Type} (l : list A) (body : S -> A -> py S)
    (s : S) : py S :=
  match l with
  | [] => Ok s
  | x :: l' => let* s' := body s x in for_each l' body s'
  end.

(** [d[key]] *)
Definition getitem {V : Type} (d : gmap string V) (key : string) : py V :=
  match d !! key with
  | Some v => Ok v
  | None => Raise (KeyError key)
  end.

(** [v < z] and [v > z] for an integer literal [z] *)
Definition py_lt (v : pyval) (z : Z) : py bool :=
  match v with
  | PFloat f => Ok (float_lt f (float_of_Z z))
  | PInt n => Ok (n <? z)%Z
  | PNone | PStr _ => Raise TypeError
  end.

Definition py_gt (v : pyval) (z : Z) : py bool :=
  match v with
  | PFloat f => Ok (float_lt (float_of_Z z) f)
  | PInt n => Ok (z <? n)%Z
  | PNone | PStr _ => Raise TypeError
  end.

(** [v is None or v < lo or v > hi] *)
Definition none_or_outside (v : pyval) (lo hi : Z) : py bool :=
  match v with
  | PNone => Ok true
  | _ => let* low := py_lt v lo in if low then Ok true else py_gt v hi
  end.

(** [lo <= f <= hi] for a float [f] and integer literals *)
Definition float_between (lo : Z) (f : spec_float) (hi : Z) : bool :=
  float_le (float_of_Z lo) f && float_le f (float_of_Z hi).

(** [bool(v)] *)
Definition truthy (v : pyval) : bool :=
  match v with
  | PNone => false
  | PStr s => nonempty s
  | PInt z => negb (z =? 0)%Z
  | PFloat (S754_zero _) => false
  | PFloat _ => true
  end.

(** [re.search(pattern, v)] for a value [v]: a [TypeError] unless [v] is a
    string. *)
Definition re_search_val (fl : flags) (r : regex) (v : pyval)
    : py (option re_match) :=
  match v with
  | PStr s => Ok (re_search fl r s)
  | _ => Raise TypeError
  end.

(** [match.group(1).strip()]; a group that took no part in the match is
    [None], which has no [strip]. *)
Definition group1_strip (m : re_match) : py string :=
  match group1 m with
  | Some v => Ok (strip v)
  | None => Raise AttributeError
  end.

(** A CSV cell as [csv.DictReader] yields it, and its rendering inside an
    f-string. *)
Definition cell : Type := option string.

Definition fmt (c : cell) : string :=
  match c with
  | Some s => s
  | None => "None"
  end.

Definition of_cell (c : cell) : pyval :=
  match c with
  | Some s => PStr s
  | None => PNone
  end.

(** The text-generation collaborator. One call either returns a text or
    raises an exception ([api_error] tells the provider's own error class
    from any other [Exception]; [msg] is [str(e)]); its answer may depend on
    how many calls were made before, on the evaluator model and on the
    prompt. *)
Inductive outcome :=
  | Returned (text : string)
  | Raised (api_error : bool) (msg : string).

Definition collaborator : Type := nat -> string -> string -> outcome.

(** The result collection, with the number of collaborator calls so far. *)
Record run := Run { results : list (gmap string pyval); calls : nat }.

(** [range(1, 6)] *)
Definition iterations : list nat := seq 1 5.

(** [enumerate(rows, start=1)] *)
Definition enumerate1 {A : Type} (l : list A) : list (nat * A) :=
  combine (seq 1 (length l)) l.

(** [r'\d+(?:\.\d+)?'] *)
Definition number : regex :=
  (RPlus CDigit ;; ROpt (RLit "." ;; RPlus CDigit))%re.

(** [r'[^\d.]'] *)
Definition not_digit_or_dot : cset := CNot [CDigit; CChar dot].

Definition flags_si : flags := Flags true true.   (* re.DOTALL | re.IGNORECASE *)

(** The numeric coercion of a score capture, the same lines in the Ollama
    and the GPT-4o-mini script:
    [value = re.sub(r'[^\d.]', '', value)], then [float(value)], with
    [None] when [float] raises [ValueError]. *)
Definition coerce_score (value : string) : pyval :=
  let value := re_sub_delete not_digit_or_dot value in
  match py_float value with
  | Some f => PFloat f
  | None => PNone
  end.

(** Logging and [time.sleep] change no value and are left out; a
    [logger.info] whose f-string reads [row[...]] is kept as that read. *)

(** ** evaluate_recipes_5_ollama.py *)
Module Ollama.

(** [self], with the class attribute [model_names] *)
Record RecipeEvaluator := { model_names : list string }.

Definition default : RecipeEvaluator :=
  {| model_names := ["gemma2:2b"; "gemma2:9b"; "mistral:7b"; "llama2:13b"; "llama3.1:8b"] |}.

Definition prompt (original_dish variation generated_recipe : cell) : string :=
  "Evaluate the following recipe:

Original Dish: " +:+ fmt original_dish +:+ "
Variation: " +:+ fmt variation +:+ "
Generated Recipe:
" +:+ fmt generated_recipe +:+ "

Please rate on a scale of 1-5 (where 5 is the best and 1 is the worst, also scores are only in integer values) and provide a brief explanation for each of the following criteria:

1. AUTHENTICITY: How well does the recipe maintain the essential characteristics of the original dish?
2. SENSITIVITY: How well does the recipe understand and incorporate the target variation (Cuisine Transfer)?
3. HARMONY: How well does the generated recipe balance both AUTHENTICITY and SENSITIVITY? In other words, how well-crafted is the recipe overall?

Format your response as follows:
AUTHENTICITY: [rating]
Reason: [brief explanation]
SENSITIVITY: [rating]
Reason: [brief explanation]
HARMONY: [rating]
Reason: [brief explanation]".

(** The [try] around [llm.invoke(prompt)]; [now] counts the calls made
    before this one. *)
Definition evaluate_recipe (llm : collaborator) (now : nat)
    (model_name : string) (original_dish variation generated_recipe : cell)
    (iteration : nat) : string :=
  match llm now model_name (prompt original_dish variation generated_recipe) with
  | Returned result_text => result_text
  | Raised _ e => "Error: " +:+ e                (* except Exception *)
  end.

Definition patterns : list (regex * string) :=
  [ ((RLit "AUTHENTICITY" ;; ROpt (RLit ":") ;; RStar CSpace ;;
      ROpt (RAlt (RLit "*") (RLit "#")) ;; RStar CSpace ;;
      RGroup (RPlus CDigit ;; ROpt (RLit "." ;; RPlus CDigit)))%re,
     "authenticity_score");
    ((RLit "AUTHENTICITY:" ;; RStarLazy CAny ;;
      RAlt (RLit "Reason") (RLit "Explanation") ;; RLit ":" ;; RStar CSpace ;;
      RGroup (RStarLazy CAny) ;;
      RLook (RStar (CChar newline) ;;
             RAlt (RLit "SENSITIVITY") (RAlt (RLit "HARMONY") REnd)))%re,
     "authenticity_reason");
    ((RLit "SENSITIVITY" ;; ROpt (RLit ":") ;; RStar CSpace ;;
      ROpt (RAlt (RLit "*") (RLit "#")) ;; RStar CSpace ;;
      RGroup (RPlus CDigit ;; ROpt (RLit "." ;; RPlus CDigit)))%re,
     "sensitivity_score");
    ((RLit "SENSITIVITY:" ;; RStarLazy CAny ;;
      RAlt (RLit "Reason") (RLit "Explanation") ;; RLit ":" ;; RStar CSpace ;;
      RGroup (RStarLazy CAny) ;;
      RLook (RStar (CChar newline) ;; RAlt (RLit "HARMONY") REnd))%re,
     "sensitivity_reason");
    ((RLit "HARMONY" ;; ROpt (RLit ":") ;; RStar CSpace ;;
      ROpt (RAlt (RLit "*") (RLit "#")) ;; RStar CSpace ;;
      RGroup (RPlus CDigit ;; ROpt (RLit "." ;; RPlus CDigit)))%re,
     "harmony_score");
    ((RLit "HARMONY:" ;; RStarLazy CAny ;;
      RAlt (RLit "Reason") (RLit "Explanation") ;; RLit ":" ;; RStar CSpace ;;
      RGroup (RStarLazy CAny) ;; RLook REnd)%re,
     "harmony_reason") ].

(** The body of the loop over [patterns]. *)
Definition parse_step (evaluation : string) (result : gmap string pyval)
    (entry : regex * string) : py (gmap string pyval) :=
  let '(pattern, key) := entry in
  match re_search flags_si pattern evaluation with
  | Some m =>
      let* value := group1_strip m in
      if str_in "score" key
      then Ok (<[key := coerce_score value]> result)
      else Ok (<[key := PStr value]> result)
  | None => Ok (<[key := PNone]> result)
  end.

Definition parse_evaluation (evaluation : string)
    : py (gmap string pyval) :=
  for_each patterns (parse_step evaluation) ∅.

(** The body of the loop over the three score keys. *)
Definition fix_score (parsed_evaluation : gmap string pyval) (key : string)
    : py (gmap string pyval) :=
  let* score := getitem parsed_evaluation key in
  let* bad := none_or_outside score 1 5 in
  if bad then
    let* text := getitem parsed_evaluation (str_replace "score" "reason" key) in
    if truthy text then
      let* m := re_search_val no_flags number text in
      match m with
      | Some m =>
          match py_float (group0 m) with
          | Some score =>
              if float_between 1 score 5
              then Ok (<[key := PFloat score]> parsed_evaluation)
              else Ok (<[key := PNone]> parsed_evaluation)
          | None => Ok (<[key := PNone]> parsed_evaluation)   (* except ValueError *)
          end
      | None => Ok (<[key := PNone]> parsed_evaluation)
      end
    else Ok (<[key := PNone]> parsed_evaluation)
  else Ok parsed_evaluation.

Definition score_keys : list string :=
  ["authenticity_score"; "sensitivity_score"; "harmony_score"].

Definition validate_and_fix_scores (parsed_evaluation : gmap string pyval)
    : py (gmap string pyval) :=
  for_each score_keys fix_score parsed_evaluation.

(** One pass of the innermost loop: one call, one appended record. *)
Definition evaluate_once (llm : collaborator) (row : gmap string cell)
    (model_name : string) (st : run) (iteration : nat) : py run :=
  let* original_dish := getitem row "original_dish" in
  let* variation := getitem row "variation" in
  let* generated_recipe := getitem row "generated_recipe" in
  let evaluation :=
    evaluate_recipe llm (calls st) model_name original_dish variation
      generated_recipe iteration in
  let* parsed_evaluation := parse_evaluation evaluation in
  let* parsed_evaluation := validate_and_fix_scores parsed_evaluation in
  let* authenticity_score := getitem parsed_evaluation "authenticity_score" in
  let* authenticity_reason := getitem parsed_evaluation "authenticity_reason" in
  let* sensitivity_score := getitem parsed_evaluation "sensitivity_score" in
  let* sensitivity_reason := getitem parsed_evaluation "sensitivity_reason" in
  let* harmony_score := getitem parsed_evaluation "harmony_score" in
  let* harmony_reason := getitem parsed_evaluation "harmony_reason" in
  let new_row :=
    <["harmony_reason" := harmony_reason]>
    (<["harmony_score" := harmony_score]>
    (<["sensitivity_reason" := sensitivity_reason]>
    (<["sensitivity_score" := sensitivity_score]>
    (<["authenticity_reason" := authenticity_reason]>
    (<["authenticity_score" := authenticity_score]>
    (<["evaluation" := PStr evaluation]>
    (<["iteration" := PInt (Z.of_nat iteration)]>
    (<["evaluator_model" := PStr model_name]>
    (of_cell <$> row))))))))) in
  Ok (Run (results st ++ [new_row]) (S (calls st))).

Definition evaluate_recipes (self : RecipeEvaluator) (llm : collaborator)
    (rows : list (gmap string cell)) : py (list (gmap string pyval)) :=
  let* st := for_each (enumerate1 rows) (fun st '(index, row) =>
          let* _ := getitem row "original_dish" in
          let* _ := getitem row "variation" in
          for_each (model_names self) (fun st model_name =>
            for_each iterations (evaluate_once llm row model_name) st) st)
        (Run [] 0) in
  Ok (results st).

End Ollama.

(** ** evaluate_recipes_4o_mini.py *)
Module Gpt4oMini.

Definition prompt (original_dish variation generated_recipe : cell) : string :=
  "Evaluate the following recipe:

Original Dish: " +:+ fmt original_dish +:+ "
Variation: " +:+ fmt variation +:+ "
Generated Recipe:
" +:+ fmt generated_recipe +:+ "

Please rate on a scale of 1-5 (where 5 is the best and 1 is the worst, also scores are only in integer values) and provide a brief explanation for each of the following criteria:

1. AUTHENTICITY: How well does the recipe maintain the essential characteristics of the original dish?
   Example: For a request to create a Korean-style spaghetti recipe, an extremely poor case would be generating a recipe for japchae.

2. SENSITIVITY: How well does the recipe understand and incorporate the target variation (Cuisine Transfer)?
   Example: For a request to create a halal version of spaghetti, an extremely incorrect case would be including pork as an ingredient.

3. HARMONY: How well does the generated recipe balance both AUTHENTICITY and SENSITIVITY? In other words, how well-crafted is the recipe overall?

Format your response as follows:
AUTHENTICITY: [rating]
Reason: [brief explanation]
SENSITIVITY: [rating]
Reason: [brief explanation]
HARMONY: [rating]
Reason: [brief explanation]".

Definition evaluate_recipe (llm : collaborator) (now : nat)
    (original_dish variation generated_recipe : cell) : string :=
  match llm now "gpt-4o-mini" (prompt original_dish variation generated_recipe) with
  | Returned content => content
  | Raised true e => "Error in evaluation: " +:+ e              (* except OpenAIError *)
  | Raised false e => "Unexpected error in evaluation: " +:+ e  (* except Exception *)
  end.

Definition patterns : list (regex * string) :=
  [ ((RLit "AUTHENTICITY" ;; ROpt (RLit ":") ;; RStar CSpace ;;
      ROpt (RAlt (RLit "*") (RLit "#")) ;; RStar CSpace ;;
      RGroup (RPlus CDigit ;; ROpt (RLit "." ;; RPlus CDigit)))%re,
     "authenticity_score");
    ((RLit "AUTHENTICITY:" ;; RStarLazy CAny ;;
      RAlt (RLit "Reason") (RLit "Explanation") ;; RLit ":" ;; RStar CSpace ;;
      RGroup (RStarLazy CAny) ;;
      RLook (RStar (CChar newline) ;;
             RAlt (RLit "SENSITIVITY") (RAlt (RLit "HARMONY") REnd)))%re,
     "authenticity_reason");
    ((RLit "SENSITIVITY" ;; ROpt (RLit ":") ;; RStar CSpace ;;
      ROpt (RAlt (RLit "*") (RLit "#")) ;; RStar CSpace ;;
      RGroup (RPlus CDigit ;; ROpt (RLit "." ;; RPlus CDigit)))%re,
     "sensitivity_score");
    ((RLit "SENSITIVITY:" ;; RStarLazy CAny ;;
      RAlt (RLit "Reason") (RLit "Explanation") ;; RLit ":" ;; RStar CSpace ;;
      RGroup (RStarLazy CAny) ;;
      RLook (RStar (CChar newline) ;; RAlt (RLit "HARMONY") REnd))%re,
     "sensitivity_reason");
    ((RLit "HARMONY" ;; ROpt (RLit ":") ;; RStar CSpace ;;
      ROpt (RAlt (RLit "*") (RLit "#")) ;; RStar CSpace ;;
      RGroup (RPlus CDigit ;; ROpt (RLit "." ;; RPlus CDigit)))%re,
     "harmony_score");
    ((RLit "HARMONY:" ;; RStarLazy CAny ;;
      RAlt (RLit "Reason") (RLit "Explanation") ;; RLit ":" ;; RStar CSpace ;;
      RGroup (RStarLazy CAny) ;; RLook REnd)%re,
     "harmony_reason") ].

Definition parse_step (evaluation : string) (result : gmap string pyval)
    (entry : regex * string) : py (gmap string pyval) :=
  let '(pattern, key) := entry in
  match re_search flags_si pattern evaluation with
  | Some m =>
      let* value := group1_strip m in
      if str_in "score" key
      then Ok (<[key := coerce_score value]> result)
      else Ok (<[key := PStr value]> result)
  | None => Ok (<[key := PNone]> result)
  end.

Definition parse_evaluation (evaluation : string)
    : py (gmap string pyval) :=
  for_each patterns (parse_step evaluation) ∅.

Definition fix_score (parsed_evaluation : gmap string pyval) (key : string)
    : py (gmap string pyval) :=
  let* score := getitem parsed_evaluation key in
  let* bad := none_or_outside score 1 5 in
  if bad then
    let* text := getitem parsed_evaluation (str_replace "score" "reason" key) in
    if truthy text then
      let* m := re_search_val no_flags number text in
      match m with
      | Some m =>
          match py_float (group0 m) with
          | Some score =>
              if float_between 1 score 5
              then Ok (<[key := PFloat score]> parsed_evaluation)
              else Ok (<[key := PNone]> parsed_evaluation)
          | None => Ok (<[key := PNone]> parsed_evaluation)   (* except ValueError *)
          end
      | None => Ok (<[key := PNone]> parsed_evaluation)
      end
    else Ok (<[key := PNone]> parsed_evaluation)
  else Ok parsed_evaluation.

Definition score_keys : list string :=
  ["authenticity_score"; "sensitivity_score"; "harmony_score"].

Definition validate_and_fix_scores (parsed_evaluation : gmap string pyval)
    : py (gmap string pyval) :=
  for_each score_keys fix_score parsed_evaluation.

(** The body of the loop over the rows: [row] itself is updated and
    appended, once. *)
Definition evaluate_row (llm : collaborator) (st : run)
    (entry : nat * gmap string cell) : py run :=
  let '(index, row) := entry in
  let* _ := getitem row "model" in
  let* _ := getitem row "original_dish" in
  let* _ := getitem row "variation" in
  let* original_dish := getitem row "original_dish" in
  let* variation := getitem row "variation" in
  let* generated_recipe := getitem row "generated_recipe" in
  let evaluation :=
    evaluate_recipe llm (calls st) original_dish variation generated_recipe in
  let* parsed_evaluation := parse_evaluation evaluation in
  let* parsed_evaluation := validate_and_fix_scores parsed_evaluation in
  let* authenticity_score := getitem parsed_evaluation "authenticity_score" in
  let* authenticity_reason := getitem parsed_evaluation "authenticity_reason" in
  let* sensitivity_score := getitem parsed_evaluation "sensitivity_score" in
  let* sensitivity_reason := getitem parsed_evaluation "sensitivity_reason" in
  let* harmony_score := getitem parsed_evaluation "harmony_score" in
  let* harmony_reason := getitem parsed_evaluation "harmony_reason" in
  let row :=
    <["harmony_reason" := harmony_reason]>
    (<["harmony_score" := harmony_score]>
    (<["sensitivity_reason" := sensitivity_reason]>
    (<["sensitivity_score" := sensitivity_score]>
    (<["authenticity_reason" := authenticity_reason]>
    (<["authenticity_score" := authenticity_score]>
    (<["evaluation" := PStr evaluation]>
    (of_cell <$> row))))))) in
  Ok (Run (results st ++ [row]) (S (calls st))).

Definition evaluate_recipes (llm : collaborator)
    (rows : list (gmap string cell)) : py (list (gmap string pyval)) :=
  let* st := for_each (enumerate1 rows) (evaluate_row llm) (Run [] 0) in
  Ok (results st).

End Gpt4oMini.

(** ** evaluate_recipes_5_gemini_flash.py *)
Module Gemini.

Definition prompt (original_dish variation generated_recipe : cell) : string :=
  "Evaluate the following recipe:

Original Dish: " +:+ fmt original_dish +:+ "
Variation: " +:+ fmt variation +:+ "
Generated Recipe:
" +:+ fmt generated_recipe +:+ "

Please rate on a scale of 1-5 (where 5 is the best and 1 is the worst, also scores are only in integer values) and provide a brief explanation for each of the following criteria:

1. AUTHENTICITY: How well does the recipe maintain the essential characteristics of the original dish?
2. SENSITIVITY: How well does the recipe incorporate the target variation (Cuisine Transfer)?
3. HARMONY: How well does the recipe balance both AUTHENTICITY and SENSITIVITY?

Format your response as follows:
AUTHENTICITY: [rating]
Reason: [brief explanation]
SENSITIVITY: [rating]
Reason: [brief explanation]
HARMONY: [rating]
Reason: [brief explanation]".

Definition evaluate_recipe (llm : collaborator) (now : nat)
    (original_dish variation generated_recipe : cell) (iteration : nat) : string :=
  match llm now "gemini-1.5-flash" (prompt original_dish variation generated_recipe) with
  | Returned text => text
  | Raised _ e => "Error in evaluation: " +:+ e       (* except Exception *)
  end.

Definition patterns : list (regex * string) :=
  [ ((RLit "AUTHENTICITY" ;; ROpt (RLit ":") ;; RStar CSpace ;;
      RGroup (RPlus CDigit))%re,
     "authenticity_score");
    ((RLit "AUTHENTICITY" ;; RStarLazy CAny ;; RLit "Reason" ;; RLit ":" ;;
      RStar CSpace ;; RGroup (RStarLazy CAny) ;;
      RLook (RStar (CChar newline) ;; RLit "SENSITIVITY"))%re,
     "authenticity_reason");
    ((RLit "SENSITIVITY" ;; ROpt (RLit ":") ;; RStar CSpace ;;
      RGroup (RPlus CDigit))%re,
     "sensitivity_score");
    ((RLit "SENSITIVITY" ;; RStarLazy CAny ;; RLit "Reason" ;; RLit ":" ;;
      RStar CSpace ;; RGroup (RStarLazy CAny) ;;
      RLook (RStar (CChar newline) ;; RLit "HARMONY"))%re,
     "sensitivity_reason");
    ((RLit "HARMONY" ;; ROpt (RLit ":") ;; RStar CSpace ;;
      RGroup (RPlus CDigit))%re,
     "harmony_score");
    ((RLit "HARMONY" ;; RStarLazy CAny ;; RLit "Reason" ;; RLit ":" ;;
      RStar CSpace ;; RGroup (RStar CAny))%re,
     "harmony_reason") ].

Definition parse_step (evaluation : string) (result : gmap string pyval)
    (entry : regex * string) : py (gmap string pyval) :=
  let '(pattern, key) := entry in
  match re_search flags_si pattern evaluation with
  | Some m =>
      let* value := group1_strip m in
      Ok (<[key := PStr value]> result)
  | None => Ok (<[key := PNone]> result)
  end.

Definition parse_evaluation (evaluation : string)
    : py (gmap string pyval) :=
  for_each patterns (parse_step evaluation) ∅.

(** One pass of the loop over the iterations; there is no validator. *)
Definition evaluate_once (llm : collaborator) (row : gmap string cell)
    (st : run) (iteration : nat) : py run :=
  let row_copy := of_cell <$> row in
  let* original_dish := getitem row "original_dish" in
  let* variation := getitem row "variation" in
  let* generated_recipe := getitem row "generated_recipe" in
  let evaluation :=
    evaluate_recipe llm (calls st) original_dish variation generated_recipe
      iteration in
  let* parsed_evaluation := parse_evaluation evaluation in
  let* authenticity_score := getitem parsed_evaluation "authenticity_score" in
  let* authenticity_reason := getitem parsed_evaluation "authenticity_reason" in
  let* sensitivity_score := getitem parsed_evaluation "sensitivity_score" in
  let* sensitivity_reason := getitem parsed_evaluation "sensitivity_reason" in
  let* harmony_score := getitem parsed_evaluation "harmony_score" in
  let* harmony_reason := getitem parsed_evaluation "harmony_reason" in
  let row_copy :=
    <["harmony_reason" := harmony_reason]>
    (<["harmony_score" := harmony_score]>
    (<["sensitivity_reason" := sensitivity_reason]>
    (<["sensitivity_score" := sensitivity_score]>
    (<["authenticity_reason" := authenticity_reason]>
    (<["authenticity_score" := authenticity_score]>
    (<["evaluation" := PStr evaluation]>
    (<["evaluator_model" := PStr "gemini-1.5-flash"]>
    (<["iteration" := PInt (Z.of_nat iteration)]>
    row_copy)))))))) in
  Ok (Run (results st ++ [row_copy]) (S (calls st))).

Definition evaluate_recipes (llm : collaborator)
    (rows : list (gmap string cell)) : py (list (gmap string pyval)) :=
  let* st := for_each (enumerate1 rows) (fun st '(index, row) =>
          for_each iterations (evaluate_once llm row) st)
        (Run [] 0) in
  Ok (results st).

End Gemini.

(** ** Files the scripts read and write *)

(** An exception of the file layer: its class and [str(e)]. *)
Inductive exn_class :=
  | FileNotFoundError
  | ValueError
  | Exception
  | OtherError (name : string).

Record raised := Raising { cls : exn_class; msg : string }.

(** [open(path, 'r')] followed by [f.read()]: the text, or what was raised. *)
Inductive file_read :=
  | Content (text : string)
  | Unread (e : raised).

(** A constructor that returns [self] or raises. *)
Inductive init (A : Type) :=
  | Ready (self : A)
  | Fails (e : raised).
Arguments Ready {A} self.
Arguments Fails {A} e.

(** A CSV file under [csv.DictWriter]: its lines, each the list of its
    cells before the csv module renders them. [writerow] raises
    [ValueError] when the row has a key outside the field names, and writes
    the row's value under each field name, the empty string where the row
    has none. After an exception the lines written so far stay in the
    file. *)
Inductive saved :=
  | Written (lines : list (list pyval))
  | WriteError (lines : list (list pyval)) (wrong_fields : gset string).

Definition wrong_fields (fieldnames : list string) (rowdict : gmap string pyval)
    : gset string :=
  dom rowdict ∖ list_to_set fieldnames.

Definition dict_to_list (fieldnames : list string) (rowdict : gmap string pyval)
    : list pyval :=
  map (fun key => default (PStr "") (rowdict !! key)) fieldnames.

Fixpoint writerows (fieldnames : list string) (results : list (gmap string pyval))
    (lines : list (list pyval)) : saved :=
  match results with
  | [] => Written lines
  | row :: rest =>
      if decide (wrong_fields fieldnames row = ∅)
      then writerows fieldnames rest (lines ++ [dict_to_list fieldnames row])
      else WriteError lines (wrong_fields fieldnames row)
  end.

(** [writer.writeheader()] and the loop over [results], on a file opened
    with ['w']. *)
Definition write_csv (fieldnames : list string) (results : list (gmap string pyval))
    : saved :=
  writerows fieldnames results [PStr <$> fieldnames].

(** How [main] ends: the file is saved; the constructor raised, before any
    row was read; [evaluate_recipes] raised and no file was opened; or
    [save_to_csv] raised. *)
Inductive finished :=
  | Completed (file : list (list pyval))
  | InitRaised (e : raised)
  | EvaluationRaised (e : exn)
  | SaveRaised (file : list (list pyval)) (wrong_fields : gset string).

Definition save_after (results : py (list (gmap string pyval)))
    (save_to_csv : list (gmap string pyval) -> saved) : finished :=
  match results with
  | Ok results =>
      match save_to_csv results with
      | Written file => Completed file
      | WriteError file wrong => SaveRaised file wrong
      end
  | Raise e => EvaluationRaised e
  end.

(** The key file of a constructor: [key = f.read().strip()], with
    [ValueError("API key is empty")] for an empty key; the two [except]
    clauses raise a new exception. [configured] is the key the client
    library holds before and after. *)
Definition read_key (assign_first : bool) (api_key_path : string) (file : file_read)
    (configured : option string) : init unit * option string :=
  match file with
  | Content text =>
      let api_key := strip text in
      if nonempty api_key then (Ready tt, Some api_key)
      else (Fails (Raising Exception ("Error reading API key: " +:+ "API key is empty")),
            if assign_first then Some api_key else configured)
  | Unread (Raising FileNotFoundError _) =>
      (Fails (Raising FileNotFoundError ("API key file not found at " +:+ api_key_path)),
       configured)
  | Unread (Raising _ e) =>
      (Fails (Raising Exception ("Error reading API key: " +:+ e)), configured)
  end.

(** ** evaluate_recipes_5_ollama.py: the output file *)
Module OllamaIO.

Definition fieldnames : list string :=
  ["index"; "model"; "original_dish"; "variation"; "generated_recipe";
   "ingredients"; "instructions"; "evaluator_model"; "iteration"; "evaluation";
   "authenticity_score"; "authenticity_reason"; "sensitivity_score";
   "sensitivity_reason"; "harmony_score"; "harmony_reason"].

Definition save_to_csv (results : list (gmap string pyval)) : saved :=
  write_csv fieldnames results.

(** [main], on the rows [csv.DictReader] yields for the input file. The
    constructor of this script is [pass]. *)
Definition main (llm : collaborator) (rows : list (gmap string cell)) : finished :=
  save_after (Ollama.evaluate_recipes Ollama.default llm rows) save_to_csv.

End OllamaIO.

(** ** evaluate_recipes_4o_mini.py: the key file and the output file *)
Module Gpt4oMiniIO.

(** [openai.api_key] is assigned before the key is tested. *)
Definition init (api_key_path : string) (file : file_read) (api_key : option string)
    : init unit * option string :=
  read_key true api_key_path file api_key.

Definition fieldnames : list string :=
  ["index"; "model"; "original_dish"; "variation"; "generated_recipe";
   "ingredients"; "instructions"; "evaluation";
   "authenticity_score"; "authenticity_reason"; "sensitivity_score";
   "sensitivity_reason"; "harmony_score"; "harmony_reason"].

Definition save_to_csv (results : list (gmap string pyval)) : saved :=
  write_csv fieldnames results.

(** [main]: [evaluator = RecipeEvaluator()] reads the key file first, and
    an exception of the constructor ends the run. *)
Definition main (api_key_path : string) (file : file_read) (api_key : option string)
    (llm : collaborator) (rows : list (gmap string cell)) : finished :=
  match init api_key_path file api_key with
  | (Ready _, _) => save_after (Gpt4oMini.evaluate_recipes llm rows) save_to_csv
  | (Fails e, _) => InitRaised e
  end.

End Gpt4oMiniIO.

(** ** evaluate_recipes_5_gemini_flash.py: the key file and the output file *)
Module GeminiIO.

(** [genai.configure] is called after the key is tested. *)
Definition init (file : file_read) (configured : option string)
    : init unit * option string :=
  read_key false "../API_KEY/API_KEY_gemini.txt" file configured.

Definition fieldnames : list string :=
  ["index"; "model"; "evaluator_model"; "iteration"; "original_dish"; "variation";
   "generated_recipe"; "ingredients"; "instructions"; "evaluation";
   "authenticity_score"; "authenticity_reason"; "sensitivity_score";
   "sensitivity_reason"; "harmony_score"; "harmony_reason"].

Definition save_to_csv (results : list (gmap string pyval)) : saved :=
  write_csv fieldnames results.

(** [main]: [evaluator = RecipeEvaluator()] reads the key file first, and
    an exception of the constructor ends the run. *)
Definition main (file : file_read) (configured : option string)
    (llm : collaborator) (rows : list (gmap string cell)) : finished :=
  match init file configured with
  | (Ready _, _) => save_after (Gemini.evaluate_recipes llm rows) save_to_csv
  | (Fails e, _) => InitRaised e
  end.

End GeminiIO.

(** ** generate_recipes_gpt4omini.py *)

(** [s.split(sep)] for a separator of one character. *)
Fixpoint split_on (sep : ascii) (s : string) : list string :=
  match s with
  | "" => [""]
  | String a t =>
      if Ascii.eqb a sep then "" :: split_on sep t
      else match split_on sep t with
           | line :: lines => String a line :: lines
           | [] => [String a ""]
           end
  end.

(** [a in chars] *)
Fixpoint char_in (chars : string) (a : ascii) : bool :=
  match chars with
  | "" => false
  | String c t => Ascii.eqb a c || char_in t a
  end.

(** [s.lstrip(chars)] *)
Fixpoint lstrip_chars (chars : string) (s : string) : string :=
  match s with
  | String a t => if char_in chars a then lstrip_chars chars t else s
  | "" => ""
  end.

(** [sep.join(l)] *)
Definition join (sep : string) (l : list string) : string := String.concat sep l.

Module Generator.

(** [self]: the class attributes and [self.index]. *)
Record RecipeGenerator := {
  model_name : string;
  dishes : list string;
  variations : list string;
  index : nat }.

(** The object [__init__] builds when the key file is read. *)
Definition default : RecipeGenerator :=
  {| model_name := "gpt-4o-mini";
     dishes :=
       ["Fried Rice"; "Sandwich"; "Soup Noodle"; "Savoury Pie"; "Fried Noodles";
        "Rolls"; "Savory Waffle"; "Fried Chicken"; "Barbecued Meat"; "French Fries";
        "Burger"; "Pasta"; "Pancake"; "Stew"; "Pizza"; "Burritos"; "Crepes";
        "Lasagna"; "Curry"; "Salad"];
     variations :=
       ["Japanese"; "Korean"; "Chinese"; "Thai"; "Vietnamese"; "Filipino"; "Indian";
        "Russian"; "Italian"; "French"; "Spanish"; "British"; "Irish"; "Greek";
        "Scottish"; "Swedish"; "Southern US"; "Brazilian"; "Mexican"; "Jamaican";
        "Hawaiian"; "Costa Rican"; "Canadian"; "Peruvian"; "Moroccan"; "Ethiopian";
        "Algerian"; "Egyptian"; "Australian"; "Polynesian";
        "Buddhist"; "Hindu diet"; "Islamic diet"; "Jain diet"; "Kosher"; "Zoroastrian";
        "Aztec"; "Medieval"; "Byzantine"; "Ottoman"];
     index := 1 |}.

(** [__init__]: the key is not tested, and an exception is raised again as
    it is. *)
Definition init (file : file_read) (api_key : option string)
    : init RecipeGenerator * option string :=
  match file with
  | Content text => (Ready default, Some (strip text))
  | Unread e => (Fails e, api_key)
  end.

Definition prompt (dish variation : string) : string :=
  "Can you apply the elements of " +:+ variation +:+ " cuisine to this dish and make it into a recipe?
Dish: " +:+ dish +:+ "
The response should be in the following form for ingredients and instructions each. For example:
ingredients: " +:+ "
<<ingredient1>>,
<<ingredient2>>,
...

instructions: " +:+ "
1. <<instruction1>>
2. <<instruction2>>
...
".

(** The [try] around [openai.ChatCompletion.create]; the system message,
    the temperature and the token limit are the same in every call. *)
Definition generate_recipe (self : RecipeGenerator) (llm : collaborator) (now : nat)
    (dish variation : string) : string :=
  match llm now (model_name self) (prompt dish variation) with
  | Returned result_text => result_text
  | Raised _ e => "Error: " +:+ e                (* except Exception *)
  end.

(** [r'ingredients:\s*{(.*?)}'] and [r'instructions:\s*{(.*?)}']: a brace
    that opens no repetition count is a literal. *)
Definition braces (label : string) : regex :=
  (RLit label ;; RStar CSpace ;; RLit "{" ;; RGroup (RStarLazy CAny) ;; RLit "}")%re.

(** [[line.strip().lstrip('0123456789. *-') for line in text.split('\n')
      if line.strip()]] *)
Definition clean_lines (text : string) : list string :=
  map (fun line => lstrip_chars "0123456789. *-" (strip line))
    (filter (fun line => nonempty (strip line) = true) (split_on newline text)).

Definition extract_ingredients_instructions (result : string) : py (string * string) :=
  let ingredients_match := re_search flags_si (braces "ingredients:") result in
  let instructions_match := re_search flags_si (braces "instructions:") result in
  let* ingredients :=
    match ingredients_match with
    | Some m => group1_strip m
    | None => Ok ""
    end in
  let* instructions :=
    match instructions_match with
    | Some m => group1_strip m
    | None => Ok ""
    end in
  let ingredients_list := clean_lines ingredients in
  let instructions_list := clean_lines instructions in
  let ingredients := join ", " ingredients_list in
  let instructions := join nl instructions_list in
  Ok (ingredients, instructions).

(** The body of the inner loop: one call, one appended record, and
    [self.index += 1]. *)
Definition generate_one (llm : collaborator) (dish : string)
    (st : run * RecipeGenerator) (variation : string) : py (run * RecipeGenerator) :=
  let '(st, self) := st in
  let generated_recipe := generate_recipe self llm (calls st) dish variation in
  let* (ingredients, instructions) :=
    extract_ingredients_instructions generated_recipe in
  let row : gmap string pyval :=
    <["instructions" := PStr instructions]>
    (<["ingredients" := PStr ingredients]>
    (<["generated_recipe" := PStr generated_recipe]>
    (<["variation" := PStr variation]>
    (<["original_dish" := PStr dish]>
    (<["model" := PStr (model_name self)]>
    (<["index" := PInt (Z.of_nat (index self))]> ∅)))))) in
  Ok (Run (results st ++ [row]) (S (calls st)),
      {| model_name := model_name self; dishes := dishes self;
         variations := variations self; index := S (index self) |}).

(** [generate_recipes]: the records, and [self] as the call leaves it. *)
Definition generate_recipes (self : RecipeGenerator) (llm : collaborator)
    : py (list (gmap string pyval) * RecipeGenerator) :=
  let* (st, self') :=
    for_each (dishes self) (fun st dish =>
      for_each (variations self) (generate_one llm dish) st)
      (Run [] 0, self) in
  Ok (results st, self').

Definition fieldnames : list string :=
  ["index"; "model"; "original_dish"; "variation"; "generated_recipe";
   "ingredients"; "instructions"].

Definition save_to_csv (results : list (gmap string pyval)) : saved :=
  write_csv fieldnames results.

(** [main], for a generator that [__init__] has built. *)
Definition main (self : RecipeGenerator) (llm : collaborator) : finished :=
  save_after (let* (results, _) := generate_recipes self llm in Ok results)
    save_to_csv.

End Generator.

(** * Properties *)

(** ** Vocabulary of the statements *)

(** The declarative reading of a pattern: [matches fl r s cap s' cap'] when
    [r] can consume a prefix of [s], leaving [s'], and turn group 1 from
    [cap] into [cap']. It says which matches exist, not which one the
    backtracking order picks. *)
Fixpoint matches (fl : flags) (r : regex) (s : string) (cap : option string)
    (s' : string) (cap' : option string) : Prop :=
  match r with
  | RLit w => match_lit fl w s = Some s' /\ cap' = cap
  | RSet c => exists a, s = String a s' /\ cmatch fl c a = true /\ cap' = cap
  | RStar c | RStarLazy c =>
      exists w, s = w +:+ s' /\ str_forall (cmatch fl c) w = true /\ cap' = cap
  | RPlus c =>
      exists a w, s = String a (w +:+ s') /\ cmatch fl c a = true /\
                  str_forall (cmatch fl c) w = true /\ cap' = cap
  | RSeq r1 r2 =>
      exists s1 c1, matches fl r1 s cap s1 c1 /\ matches fl r2 s1 c1 s' cap'
  | RAlt r1 r2 => matches fl r1 s cap s' cap' \/ matches fl r2 s cap s' cap'
  | ROpt r1 => matches fl r1 s cap s' cap' \/ (s' = s /\ cap' = cap)
  | RGroup r1 =>
      exists c0, matches fl r1 s cap s' c0 /\ cap' = Some (consumed s s')
  | RLook r1 => s' = s /\ exists s2, matches fl r1 s cap s2 cap'
  | REnd => s' = s /\ cap' = cap /\ at_end s = true
  end.

(** No capture group inside [r]; and every lookahead of [r] is free of
    groups, as in all the patterns of the scripts. *)
Fixpoint nogroup (r : regex) : bool :=
  match r with
  | RGroup _ => false
  | RSeq r1 r2 | RAlt r1 r2 => nogroup r1 && nogroup r2
  | ROpt r1 | RLook r1 => nogroup r1
  | _ => true
  end.

Fixpoint plain_looks (r : regex) : bool :=
  match r with
  | RLook r1 => nogroup r1
  | RSeq r1 r2 | RAlt r1 r2 => plain_looks r1 && plain_looks r2
  | ROpt r1 | RGroup r1 => plain_looks r1
  | _ => true
  end.

(** [w] occurs in [s], compared as [re.IGNORECASE] compares. *)
Fixpoint occurs (w s : string) : bool :=
  match match_lit flags_si w s with
  | Some _ => true
  | None =>
      match s with
      | String _ t => occurs w t
      | "" => false
      end
  end.

(** A score as the validator leaves it: [None], or a number that is
    neither below 1 nor above 5, which for a float is [1 <= f <= 5]. *)
Definition valid_score (v : pyval) : Prop :=
  v = PNone \/ exists f, v = PFloat f /\ float_between 1 f 5 = true.

(** The shape of what [parse_evaluation] of the Ollama and GPT-4o-mini
    scripts returns: six keys, scores [None] or float, reasons [None] or
    string. *)
Definition is_score (v : pyval) : Prop :=
  v = PNone \/ exists f, v = PFloat f /\ f <> S754_nan.
Definition is_reason (v : pyval) : Prop := v = PNone \/ exists s, v = PStr s.

Definition criteria : list (string * string) :=
  [ ("authenticity_score", "authenticity_reason");
    ("sensitivity_score", "sensitivity_reason");
    ("harmony_score", "harmony_reason") ].

Definition parsed_record (d : gmap string pyval) : Prop :=
  forall ks kr, In (ks, kr) criteria ->
    exists score reason, d !! ks = Some score /\ is_score score /\
                         d !! kr = Some reason /\ is_reason reason.

(** What the validator writes when it repairs from the reason [text]. *)
Definition repaired (text : pyval) : pyval :=
  match text with
  | PStr s =>
      match re_search no_flags number s with
      | Some m =>
          match py_float (group0 m) with
          | Some f => if float_between 1 f 5 then PFloat f else PNone
          | None => PNone
          end
      | None => PNone
      end
  | _ => PNone
  end.

(** [score is None or score < 1 or score > 5] on a score of the shape
    above. *)
Definition null_or_outside (score : pyval) : bool :=
  match score with
  | PNone => true
  | PFloat f => float_lt f (float_of_Z 1) || float_lt (float_of_Z 5) f
  | _ => false
  end.

(** What [fix_score] decides from the two entries it reads: [Ok None] to
    leave the record alone, [Ok (Some v)] to write [v]. *)
Definition fix_plan (ks kr : string) (d : gmap string pyval) : py (option pyval) :=
  let* score := getitem d ks in
  let* bad := none_or_outside score 1 5 in
  if bad then
    let* text := getitem d kr in
    if truthy text then
      let* m := re_search_val no_flags number text in
      Ok (Some (repaired text))
    else Ok (Some PNone)
  else Ok None.

Definition apply_plan (ks : string) (d : gmap string pyval) (p : option pyval)
    : gmap string pyval :=
  match p with
  | Some v => <[ks := v]> d
  | None => d
  end.

(** The validator as a function of a well-shaped record: each score that is
    null or outside [1,5] is replaced by the repair from its reason. *)
Definition fixed_score (d : gmap string pyval) (ks kr : string) : pyval :=
  match d !! ks, d !! kr with
  | Some score, Some reason =>
      if null_or_outside score then repaired reason else score
  | _, _ => PNone
  end.

Definition validated (d : gmap string pyval) : gmap string pyval :=
  <["harmony_score" := fixed_score d "harmony_score" "harmony_reason"]>
  (<["sensitivity_score" := fixed_score d "sensitivity_score" "sensitivity_reason"]>
  (<["authenticity_score" := fixed_score d "authenticity_score" "authenticity_reason"]>
  d)).

(** The record of P4: every field null but the authenticity reason. *)
Definition p4_record (score : pyval) (reason : string) : gmap string pyval :=
  <["authenticity_score" := score]>
  (<["authenticity_reason" := PStr reason]>
  (<["sensitivity_score" := PNone]>
  (<["sensitivity_reason" := PNone]>
  (<["harmony_score" := PNone]>
  (<["harmony_reason" := PNone]> ∅))))).

(** [P] holds of [v +:+ b] for every non-empty suffix [v] of [a]: of the
    text from every position inside [a]. *)
Fixpoint each_suffix (P : string -> Prop) (a b : string) : Prop :=
  match a with
  | "" => True
  | String _ a' => P (a +:+ b) /\ each_suffix P a' b
  end.

(** No occurrence of [w] starts inside [a], whatever follows [a]. *)
Definition blocked (w a : string) : Prop :=
  forall b, each_suffix (fun s => match_lit flags_si w s = None) a b.

(** [s] is empty or starts with a character outside [p]. *)
Definition stops (p : ascii -> bool) (s : string) : Prop :=
  match s with
  | "" => True
  | String a _ => p a = false
  end.

(** Every match of [r] sets group 1. *)
Fixpoint sets_group (r : regex) : bool :=
  match r with
  | RGroup _ => true
  | RSeq r1 r2 => sets_group r1 || sets_group r2
  | RAlt r1 r2 => sets_group r1 && sets_group r2
  | RLook r1 => sets_group r1
  | _ => false
  end.

(** The six patterns of the Ollama and GPT-4o-mini scripts by their label
    and, for a reason, the pattern inside the closing lookahead. *)
Definition score_pattern (label : string) : regex :=
  (RLit label ;; ROpt (RLit ":") ;; RStar CSpace ;;
   ROpt (RAlt (RLit "*") (RLit "#")) ;; RStar CSpace ;; RGroup number)%re.

Definition reason_pattern (label : string) (stop : regex) : regex :=
  (RLit label ;; RStarLazy CAny ;;
   RAlt (RLit "Reason") (RLit "Explanation") ;; RLit ":" ;; RStar CSpace ;;
   RGroup (RStarLazy CAny) ;; RLook stop)%re.

Definition stop_authenticity : regex :=
  (RStar (CChar newline) ;; RAlt (RLit "SENSITIVITY") (RAlt (RLit "HARMONY") REnd))%re.

Definition stop_sensitivity : regex :=
  (RStar (CChar newline) ;; RAlt (RLit "HARMONY") REnd)%re.

(** The value [parse_evaluation] stores under [key] for [pattern]. *)
Definition parse_field (pattern : regex) (key text : string) : pyval :=
  match re_search flags_si pattern text with
  | Some m =>
      let value := strip (default "" (group1 m)) in
      if str_in "score" key then coerce_score value else PStr value
  | None => PNone
  end.

Definition parse_fields (table : list (regex * string)) (text : string)
    : gmap string pyval :=
  fold_left (fun d '(pattern, key) => <[key := parse_field pattern key text]> d)
    table ∅.

(** The same for the Gemini script, which stores the stripped capture. *)
Definition gemini_field (pattern : regex) (text : string) : pyval :=
  match re_search flags_si pattern text with
  | Some m => PStr (strip (default "" (group1 m)))
  | None => PNone
  end.

Definition gemini_fields (table : list (regex * string)) (text : string)
    : gmap string pyval :=
  fold_left (fun d '(pattern, key) => <[key := gemini_field pattern text]> d)
    table ∅.

(** A numeric token: digits, or digits, a dot and digits. *)
Definition number_token (tok : string) : bool :=
  match split_dot tok with
  | (i, None) => str_forall is_digit i && nonempty i
  | (i, Some f) =>
      str_forall is_digit i && nonempty i && str_forall is_digit f && nonempty f
  end.

(** All six fields null. *)
Definition all_null : gmap string pyval :=
  <["harmony_reason" := PNone]> (<["harmony_score" := PNone]>
  (<["sensitivity_reason" := PNone]> (<["sensitivity_score" := PNone]>
  (<["authenticity_reason" := PNone]> (<["authenticity_score" := PNone]> ∅))))).

(** [d[key]] when the key is there. *)
Definition entry {V : Type} (dflt : V) (d : gmap string V) (key : string) : V :=
  default dflt (d !! key).

(** The record one pass of the Ollama loop appends, from the raw
    evaluation text. *)
Definition ollama_record (row : gmap string cell) (model_name : string)
    (iteration : nat) (evaluation : string) : gmap string pyval :=
  let d := validated (parse_fields Ollama.patterns evaluation) in
  <["harmony_reason" := entry PNone d "harmony_reason"]>
  (<["harmony_score" := entry PNone d "harmony_score"]>
  (<["sensitivity_reason" := entry PNone d "sensitivity_reason"]>
  (<["sensitivity_score" := entry PNone d "sensitivity_score"]>
  (<["authenticity_reason" := entry PNone d "authenticity_reason"]>
  (<["authenticity_score" := entry PNone d "authenticity_score"]>
  (<["evaluation" := PStr evaluation]>
  (<["iteration" := PInt (Z.of_nat iteration)]>
  (<["evaluator_model" := PStr model_name]>
  (of_cell <$> row))))))))).

(** The same for the GPT-4o-mini loop. *)
Definition gpt_record (row : gmap string cell) (evaluation : string)
    : gmap string pyval :=
  let d := validated (parse_fields Ollama.patterns evaluation) in
  <["harmony_reason" := entry PNone d "harmony_reason"]>
  (<["harmony_score" := entry PNone d "harmony_score"]>
  (<["sensitivity_reason" := entry PNone d "sensitivity_reason"]>
  (<["sensitivity_score" := entry PNone d "sensitivity_score"]>
  (<["authenticity_reason" := entry PNone d "authenticity_reason"]>
  (<["authenticity_score" := entry PNone d "authenticity_score"]>
  (<["evaluation" := PStr evaluation]>
  (of_cell <$> row))))))).

(** The same for the Gemini loop, which has no validator. *)
Definition gemini_record (row : gmap string cell) (iteration : nat)
    (evaluation : string) : gmap string pyval :=
  let d := gemini_fields Gemini.patterns evaluation in
  <["harmony_reason" := entry PNone d "harmony_reason"]>
  (<["harmony_score" := entry PNone d "harmony_score"]>
  (<["sensitivity_reason" := entry PNone d "sensitivity_reason"]>
  (<["sensitivity_score" := entry PNone d "sensitivity_score"]>
  (<["authenticity_reason" := entry PNone d "authenticity_reason"]>
  (<["authenticity_score" := entry PNone d "authenticity_score"]>
  (<["evaluation" := PStr evaluation]>
  (<["evaluator_model" := PStr "gemini-1.5-flash"]>
  (<["iteration" := PInt (Z.of_nat iteration)]>
  (of_cell <$> row))))))))).

(** A loop body that never raises, appends [c] records and keeps [P] true
    of every record of the collection. *)
Definition grows (P : gmap string pyval -> Prop) (c : nat) (f : run -> py run)
    : Prop :=
  forall st, Forall P (results st) ->
    exists st', f st = Ok st' /\ length (results st') = length (results st) + c /\
                Forall P (results st').

(** The three scores of a persisted record are null or within [1,5]. *)
Definition scores_valid (record : gmap string pyval) : Prop :=
  forall ks kr, In (ks, kr) criteria ->
    exists v, record !! ks = Some v /\ valid_score v.

(** The six fields of a record are null. *)
Definition six_null (record : gmap string pyval) : Prop :=
  forall ks kr, In (ks, kr) criteria ->
    record !! ks = Some PNone /\ record !! kr = Some PNone.

(** None of the three criterion labels occurs in [s], in any case. *)
Definition label_free (s : string) : Prop :=
  occurs "AUTHENTICITY" s = false /\ occurs "SENSITIVITY" s = false /\
  occurs "HARMONY" s = false.

(** The Gemini patterns by their label. *)
Definition gemini_score_pattern (label : string) : regex :=
  (RLit label ;; ROpt (RLit ":") ;; RStar CSpace ;; RGroup (RPlus CDigit))%re.

Definition gemini_reason_pattern (label next : string) : regex :=
  (RLit label ;; RStarLazy CAny ;; RLit "Reason" ;; RLit ":" ;; RStar CSpace ;;
   RGroup (RStarLazy CAny) ;; RLook (RStar (CChar newline) ;; RLit next))%re.

Definition gemini_last_pattern (label : string) : regex :=
  (RLit label ;; RStarLazy CAny ;; RLit "Reason" ;; RLit ":" ;; RStar CSpace ;;
   RGroup (RStar CAny))%re.

(** A record carries the triple it was made for. *)
Definition tagged (rows : list (gmap string cell)) (models : list string)
    (record : gmap string pyval) : Prop :=
  exists row model_name iteration,
    In row rows /\ In model_name models /\ 1 <= iteration <= 5 /\
    record !! "evaluator_model" = Some (PStr model_name) /\
    record !! "iteration" = Some (PInt (Z.of_nat iteration)) /\
    forall column, column ∉ ["evaluator_model"; "iteration"; "evaluation";
                             "authenticity_score"; "authenticity_reason";
                             "sensitivity_score"; "sensitivity_reason";
                             "harmony_score"; "harmony_reason"] ->
                   record !! column = of_cell <$> row !! column.

(** Inputs of the examples. *)
Definition row0 : gmap string cell :=
  <["original_dish" := Some "Bibimbap"]>
  (<["variation" := Some "Halal"]>
  (<["generated_recipe" := Some "Rice, vegetables, egg."]>
  (<["model" := Some "gpt-4o-mini"]> ∅))).

Definition llm_out_of_range : collaborator := fun _ _ _ =>
  Returned "AUTHENTICITY: 9
Reason: Beyond the scale.
SENSITIVITY: 2
Reason: Weak.
HARMONY: 3
Reason: Fair.".

Definition llm_down : collaborator := fun _ _ _ => Raised false "rate limited".

Definition llm_echo : collaborator := fun _ _ _ => Raised false "AUTHENTICITY: 5".

(** A record holds what one collaborator call gave: the returned text, or
    the synthetic error string, and then six nulls when the message of the
    exception holds no label. *)
Definition recorded (llm : collaborator) (error_text : string -> string)
    (record : gmap string pyval) : Prop :=
  exists now model_name prompt,
    match llm now model_name prompt with
    | Returned text => record !! "evaluation" = Some (PStr text)
    | Raised _ msg =>
        record !! "evaluation" = Some (PStr (error_text msg)) /\
        (label_free msg -> six_null record)
    end.

(** The numeric coercion as the specification words it: keep the digits
    and the decimal points, parse what is left, null when that fails. *)
Definition coerce_spec (value : string) : pyval :=
  match py_float (str_filter (fun a => is_digit a || Ascii.eqb a dot) value) with
  | Some f => PFloat f
  | None => PNone
  end.

(** The three criteria: label, score key, reason key. *)
Definition labelled : list (string * string * string) :=
  [ ("AUTHENTICITY", "authenticity_score", "authenticity_reason");
    ("SENSITIVITY", "sensitivity_score", "sensitivity_reason");
    ("HARMONY", "harmony_score", "harmony_reason") ].

(** A text with one labelled criterion: the label, a colon, white space, a
    rating that starts with the digit [a], and later a "Reason:" line;
    [pre], [mid] and [post] are any text. *)
Definition one_criterion (label pre sp : string) (a : ascii) (mid post : string)
    : string :=
  pre +:+ label +:+ ":" +:+ sp +:+ String a mid +:+ "Reason:" +:+ post.

(** A response in the documented format. One criterion is its label and a
    colon, then a rating and a "Reason:" line with white space around them. *)
Record block := Block {
  gap_label : string;     (* between the colon and the rating *)
  rating : string;
  gap_rating : string;    (* between the rating and "Reason:" *)
  gap_reason : string;    (* between "Reason:" and the reason *)
  reason : string }.

Definition block_text (label : string) (b : block) : string :=
  label +:+ ":" +:+ gap_label b +:+ rating b +:+ gap_rating b +:+
  "Reason:" +:+ gap_reason b +:+ reason b.

Definition response (lead : string) (b1 : block) (sep1 : string) (b2 : block)
    (sep2 : string) (b3 : block) (trail : string) : string :=
  lead +:+ block_text "AUTHENTICITY" b1 +:+ sep1 +:+
  block_text "SENSITIVITY" b2 +:+ sep2 +:+ block_text "HARMONY" b3 +:+ trail.

(** A criterion followed by [t]. *)
Definition criterion (label : string) (b : block) (t : string) : string :=
  label +:+ ":" +:+ gap_label b +:+ rating b +:+ gap_rating b +:+
  "Reason:" +:+ gap_reason b +:+ reason b +:+ t.

Definition blank (s : string) : Prop := str_forall is_space s = true.

Definition starts_with (p : ascii -> bool) (s : string) : bool :=
  match s with
  | String a _ => p a
  | "" => false
  end.

Fixpoint ends_with (p : ascii -> bool) (s : string) : bool :=
  match s with
  | "" => false
  | String a "" => p a
  | String _ t => ends_with p t
  end.

Definition not_space (a : ascii) : bool := negb (is_space a).
Definition is_newline (a : ascii) : bool := Ascii.eqb a newline.

(** A reason is not empty and has no white space at either end. *)
Definition tidy (r : string) : Prop :=
  starts_with not_space r = true /\ ends_with not_space r = true.

(** The gaps of a criterion are white space, its rating is a numeric token
    and its reason is tidy. *)
Definition block_ok (b : block) : Prop :=
  blank (gap_label b) /\ number_token (rating b) = true /\
  blank (gap_rating b) /\ blank (gap_reason b) /\ tidy (reason b).

(** The documented format: three criteria in order, with white space, or
    nothing, before, between and after them. *)
Definition documented (lead : string) (b1 : block) (sep1 : string) (b2 : block)
    (sep2 : string) (b3 : block) (trail : string) : Prop :=
  blank lead /\ block_ok b1 /\ blank sep1 /\
  block_ok b2 /\ blank sep2 /\ block_ok b3 /\ blank trail.

(** No reason mentions, in any case, the label of a later criterion. *)
Definition reasons_clear (b1 b2 : block) : Prop :=
  occurs "SENSITIVITY" (reason b1) = false /\
  occurs "HARMONY" (reason b1) = false /\
  occurs "HARMONY" (reason b2) = false.

(** A rating written with digits only. *)
Definition whole (b : block) : Prop :=
  str_forall is_digit (rating b) = true.

(** No letter in [s]. *)
Definition no_letter (s : string) : Prop :=
  str_forall (fun a => negb (is_letter a)) s = true.

(** The lookahead of a reason pattern succeeds at [x]: after a run of
    newlines comes one of the [words], or, when [ends], the end of the
    text. *)
Definition stop_here (words : list string) (ends : bool) (x : string) : Prop :=
  exists w y, x = w +:+ y /\ str_forall is_newline w = true /\
    ((exists word r, In word words /\ match_lit flags_si word y = Some r) \/
     (ends = true /\ at_end y = true)).

(** The record both parsers should return for a response. *)
Definition expected (s1 r1 s2 r2 s3 r3 : pyval) : gmap string pyval :=
  <["harmony_reason" := r3]> (<["harmony_score" := s3]>
  (<["sensitivity_reason" := r2]> (<["sensitivity_score" := s2]>
  (<["authenticity_reason" := r1]> (<["authenticity_score" := s1]> ∅))))).

(** The three columns every script reads from a row. *)
Definition has_columns (row : gmap string cell) : Prop :=
  is_Some (row !! "original_dish") /\ is_Some (row !! "variation") /\
  is_Some (row !! "generated_recipe").

(** No digit in [s]. *)
Definition no_digit (s : string) : Prop :=
  str_forall (fun a => negb (is_digit a)) s = true.

(** The token [tok] ends before [post]: no digit follows it, and when it is
    a run of digits no dot with a digit behind it follows it. *)
Definition token_ends (tok post : string) : Prop :=
  stops is_digit post /\
  (str_forall is_digit tok = true ->
   forall a t, post = String dot (String a t) -> is_digit a = false).

(** [tok] is the first numeric token of [text]: the first run of digits of
    the text, together with a dot and the run of digits behind it when they
    follow at once. A sign or a dot in front of the digits is no part of
    it. *)
Definition first_number (text tok : string) : Prop :=
  exists pre post, text = pre +:+ tok +:+ post /\ no_digit pre /\
                   number_token tok = true /\ token_ends tok post.

(** In the text [pre +:+ rest], the word [w] starts at no position of
    [pre], in any case of its letters. *)
Definition starts_first (w pre rest : string) : Prop :=
  each_suffix (fun s => match_lit flags_si w s = None) pre rest.

(** No nonempty end of [w] is the start of [t], as [re.IGNORECASE]
    compares. *)
Fixpoint tails_miss (w t : string) : Prop :=
  match w with
  | "" => True
  | String _ w' => match_lit flags_si w t = None /\ tails_miss w' t
  end.

(** The digits of a rating before its decimal point. *)
Definition integer_part (tok : string) : string := (split_dot tok).1.

(** ** Vocabulary of the properties beyond the claims *)

(** The keys of a parsed evaluation. *)
Definition six_keys : gset string :=
  list_to_set ["authenticity_score"; "authenticity_reason"; "sensitivity_score";
               "sensitivity_reason"; "harmony_score"; "harmony_reason"].

(** [row[key]] for a column the row has. *)
Definition column (row : gmap string cell) (key : string) : cell :=
  entry None row key.

(** The (row, evaluator model, iteration) triples in the order of the three
    nested loops. *)
Definition triples (rows : list (gmap string cell)) (models : list string)
    : list (gmap string cell * string * nat) :=
  flat_map (fun row =>
    flat_map (fun model_name =>
      map (fun iteration => (row, model_name, iteration)) iterations) models) rows.

(** A record is the one made for a triple: it names the triple's evaluator
    model and iteration, holds an evaluation, and passes the columns of the
    triple's row through. *)
Definition carries (t : gmap string cell * string * nat)
    (record : gmap string pyval) : Prop :=
  let '(row, model_name, iteration) := t in
  record !! "evaluator_model" = Some (PStr model_name) /\
  record !! "iteration" = Some (PInt (Z.of_nat iteration)) /\
  is_Some (record !! "evaluation") /\
  forall column, column ∉ ["evaluator_model"; "iteration"; "evaluation";
                           "authenticity_score"; "authenticity_reason";
                           "sensitivity_score"; "sensitivity_reason";
                           "harmony_score"; "harmony_reason"] ->
                 record !! column = of_cell <$> row !! column.

(** The records of the Ollama run: the record at position [n] is built for
    the [n]-th triple from the answer to the collaborator's [n]-th call. *)
Definition ollama_results (llm : collaborator) (models : list string)
    (rows : list (gmap string cell)) : list (gmap string pyval) :=
  imap (fun n '(row, model_name, iteration) =>
          ollama_record row model_name iteration
            (Ollama.evaluate_recipe llm n model_name (column row "original_dish")
               (column row "variation") (column row "generated_recipe") iteration))
    (triples rows models).

Definition gemini_results (llm : collaborator) (rows : list (gmap string cell))
    : list (gmap string pyval) :=
  imap (fun n '(row, iteration) =>
          gemini_record row iteration
            (Gemini.evaluate_recipe llm n (column row "original_dish")
               (column row "variation") (column row "generated_recipe") iteration))
    (flat_map (fun row => map (fun iteration => (row, iteration)) iterations) rows).

Definition gpt_results (llm : collaborator) (rows : list (gmap string cell))
    : list (gmap string pyval) :=
  imap (fun n row =>
          gpt_record row
            (Gpt4oMini.evaluate_recipe llm n (column row "original_dish")
               (column row "variation") (column row "generated_recipe")))
    rows.

(** A row of the GPT-4o-mini input: the three columns and [model]. *)
Definition has_model (row : gmap string cell) : Prop :=
  has_columns row /\ is_Some (row !! "model").

(** The first of the three columns, in the order the scripts read them,
    that a row lacks. *)
Definition first_missing (row : gmap string cell) : option string :=
  match row !! "original_dish", row !! "variation", row !! "generated_recipe" with
  | None, _, _ => Some "original_dish"
  | Some _, None, _ => Some "variation"
  | Some _, Some _, None => Some "generated_recipe"
  | Some _, Some _, Some _ => None
  end.

(** [lbl] is [w] up to the case of its letters. *)
Fixpoint same_letters (w lbl : string) : bool :=
  match w, lbl with
  | "", "" => true
  | String c w', String a lbl' => chr_eq flags_si c a && same_letters w' lbl'
  | _, _ => false
  end.

(** The characters [lstrip('0123456789. *-')] removes. *)
Definition numbering : string := "0123456789. *-".

(** An item of a list as the generator keeps it: not empty, on one line,
    without white space at either end and without numbering in front. *)
Definition plain (item : string) : Prop :=
  tidy item /\ char_in item newline = false /\
  starts_with (char_in numbering) item = false.

(** The pair [extract_ingredients_instructions] returns. *)
Definition extracted (result : string) : string * string :=
  match Generator.extract_ingredients_instructions result with
  | Ok p => p
  | Raise _ => ("", "")
  end.

(** The (dish, variation) pairs in the order of the two nested loops. *)
Definition pairs (self : Generator.RecipeGenerator) : list (string * string) :=
  flat_map (fun dish => map (fun variation => (dish, variation))
                          (Generator.variations self))
    (Generator.dishes self).

(** The record [generate_recipes] appends for one pair. *)
Definition generated_row (model_name : string) (index : nat)
    (dish variation generated_recipe : string) : gmap string pyval :=
  <["instructions" := PStr (extracted generated_recipe).2]>
  (<["ingredients" := PStr (extracted generated_recipe).1]>
  (<["generated_recipe" := PStr generated_recipe]>
  (<["variation" := PStr variation]>
  (<["original_dish" := PStr dish]>
  (<["model" := PStr model_name]>
  (<["index" := PInt (Z.of_nat index)]> ∅)))))).

(** The records of a run of the generator: the record at position [n] is
    made for the [n]-th pair from the answer to the [n]-th call, and numbered
    from [self.index]. *)
Definition generated (self : Generator.RecipeGenerator) (llm : collaborator)
    : list (gmap string pyval) :=
  imap (fun n '(dish, variation) =>
          generated_row (Generator.model_name self) (Generator.index self + n)
            dish variation (Generator.generate_recipe self llm n dish variation))
    (pairs self).

(** [self] after [count] more records. *)
Definition advanced (self : Generator.RecipeGenerator) (count : nat)
    : Generator.RecipeGenerator :=
  {| Generator.model_name := Generator.model_name self;
     Generator.dishes := Generator.dishes self;
     Generator.variations := Generator.variations self;
     Generator.index := Generator.index self + count |}.

(** A row whose columns are all field names of the output file. *)
Definition known_columns (fieldnames : list string) (row : gmap string cell) : Prop :=
  forall key, is_Some (row !! key) -> In key fieldnames.

(** A line of the output file holds, under each field name, the value of
    the record, or the empty string when the record has none. *)
Definition line_of (fieldnames : list string) (record : gmap string pyval)
    (line : list pyval) : Prop :=
  Forall2 (fun key value => value = default (PStr "") (record !! key)) fieldnames line.

(** A row with a column that is no field name of the output file. *)
Definition unknown_column (fieldnames : list string) (row : gmap string cell) : Prop :=
  exists key, is_Some (row !! key) /\ ~ In key fieldnames.

(** A list written one item per line, each item behind its numbering. *)
Definition bulleted (lines : list (string * string)) : string :=
  join nl (map (fun '(bullet, item) => bullet +:+ item) lines).

(** A numbering made of the characters that are removed, before an item
    that is plain and holds no closing brace. *)
Definition listed (line : string * string) : Prop :=
  str_forall (char_in numbering) line.1 = true /\ plain line.2 /\
  char_in line.2 "}" = false.

(** A key file that can be read and holds more than white space: the one
    case in which the constructor of an evaluator returns. *)
Definition key_read (key : file_read) : Prop :=
  exists text, key = Content text /\ ~ blank text.

(** [s] with its ASCII capitals made small. *)
Fixpoint lower_str (s : string) : string :=
  match s with
  | "" => ""
  | String a t => String (lower a) (lower_str t)
  end.

Definition lower_val (v : pyval) : pyval :=
  match v with
  | PStr s => PStr (lower_str s)
  | _ => v
  end.

Definition lower_state (st : mstate) : mstate :=
  (lower_str st.1, option_map lower_str st.2).

Definition lower_match (m : re_match) : re_match :=
  Match (lower_str (group0 m)) (option_map lower_str (group1 m)).

(** A pattern without a negated character class. *)
Definition simple_set (c : cset) : bool :=
  match c with
  | CNot _ => false
  | _ => true
  end.

Fixpoint simple (r : regex) : bool :=
  match r with
  | RSet c | RStar c | RStarLazy c | RPlus c => simple_set c
  | RSeq r1 r2 | RAlt r1 r2 => simple r1 && simple r2
  | ROpt r1 | RGroup r1 | RLook r1 => simple r1
  | RLit _ | REnd => true
  end.

(** ** Characters *)

#[local] Arguments String.append : simpl nomatch.

Ltac ascii_cases a :=
  destruct a as [[] [] [] [] [] [] [] []]; vm_compute; try reflexivity;
  try discriminate; auto.

Lemma digit_not_space a : is_digit a = true -> is_space a = false.
Proof. ascii_cases a. Qed.

Lemma digit_not_dot a : is_digit a = true -> Ascii.eqb a dot = false.
Proof. ascii_cases a. Qed.

Lemma dot_not_space : is_space dot = false.
Proof. reflexivity. Qed.

Lemma letter_lower a : is_letter a = true -> is_lower (lower a) = true.
Proof. ascii_cases a. Qed.

Lemma lower_letter a : is_lower (lower a) = true -> is_letter a = true.
Proof. ascii_cases a. Qed.

Lemma letter_not_space a : is_letter a = true -> is_space a = false.
Proof. ascii_cases a. Qed.

Lemma letter_not_digit a : is_letter a = true -> is_digit a = false.
Proof. ascii_cases a. Qed.

(** A letter of a pattern matches letters only. *)
Lemma chr_eq_letter fl c a :
  is_letter c = true -> chr_eq fl c a = true -> is_letter a = true.
Proof.
  unfold chr_eq. destruct (IGNORECASE fl).
  - intros Hc H. apply Ascii.eqb_eq in H. apply lower_letter.
    rewrite <- H. now apply letter_lower.
  - intros Hc H. apply Ascii.eqb_eq in H. now subst.
Qed.

(** ** Strings *)

Lemma str_app_nil_r s : s +:+ "" = s.
Proof. induction s; simpl; congruence. Qed.

Lemma str_app_assoc a b c : (a +:+ b) +:+ c = a +:+ (b +:+ c).
Proof. induction a; simpl; congruence. Qed.

Lemma str_length_app a b : String.length (a +:+ b) = String.length a + String.length b.
Proof. induction a; simpl; congruence. Qed.

Lemma str_take_app a b : str_take (String.length a) (a +:+ b) = a.
Proof. induction a; simpl; [now destruct b | congruence]. Qed.

Lemma consumed_app a b : consumed (a +:+ b) b = a.
Proof.
  unfold consumed. rewrite str_length_app.
  replace (String.length a + String.length b - String.length b)
    with (String.length a) by lia.
  apply str_take_app.
Qed.

Lemma consumed_refl s : consumed s s = "".
Proof. apply (consumed_app "" s). Qed.

Lemma str_forall_app p a b :
  str_forall p (a +:+ b) = str_forall p a && str_forall p b.
Proof. induction a; simpl; [reflexivity | rewrite IHa; now destruct (p a)]. Qed.

Lemma str_filter_id p s : str_forall p s = true -> str_filter p s = s.
Proof.
  induction s; simpl; [reflexivity |].
  destruct (p a); simpl; [intros; f_equal; auto | discriminate].
Qed.

Lemma str_filter_forall p s : str_forall p (str_filter p s) = true.
Proof.
  induction s; simpl; [reflexivity |].
  destruct (p a) eqn:E; simpl; [now rewrite E |]; assumption.
Qed.

(** ** Floats *)

Lemma SFcompare_antisym x y c :
  SFcompare x y = Some c -> SFcompare y x = Some (CompOpp c).
Proof.
  destruct x as [sx|sx| |sx mx ex], y as [sy|sy| |sy my ey]; simpl;
    try discriminate;
    try (destruct sx; intros [= <-]; reflexivity);
    try (destruct sy; intros [= <-]; reflexivity);
    try (destruct sx, sy; intros [= <-]; reflexivity).
  intros [= <-]. f_equal.
  change (Pos.compare_cont Eq mx my) with (Pos.compare mx my).
  change (Pos.compare_cont Eq my mx) with (Pos.compare my mx).
  rewrite (Z.compare_antisym ex ey), (Pos.compare_antisym mx my).
  destruct sx, sy; simpl; try reflexivity;
    destruct (ex ?= ey)%Z; simpl; try reflexivity;
    destruct (mx ?= my)%positive; reflexivity.
Qed.

Lemma float_le_not_lt x y : float_le x y = true -> float_lt y x = false.
Proof.
  unfold float_le, float_lt, SFleb, SFltb.
  destruct (SFcompare x y) as [c|] eqn:E; [| discriminate].
  rewrite (SFcompare_antisym _ _ _ E). now destruct c.
Qed.

Lemma SFcompare_some x y :
  x <> S754_nan -> y <> S754_nan -> exists c, SFcompare x y = Some c.
Proof.
  destruct x, y; simpl; intros; try congruence; eauto.
Qed.

Lemma float_not_lt_le x y :
  x <> S754_nan -> y <> S754_nan -> float_lt y x = false -> float_le x y = true.
Proof.
  intros Hx Hy. unfold float_le, float_lt, SFleb, SFltb.
  destruct (SFcompare_some x y Hx Hy) as [c E].
  rewrite E, (SFcompare_antisym _ _ _ E). now destruct c.
Qed.

(** Between 1 and 5 is the same as neither below 1 nor above 5, NaN apart. *)
Lemma float_between_iff f :
  f <> S754_nan ->
  float_between 1 f 5 = true <->
  float_lt f (float_of_Z 1) = false /\ float_lt (float_of_Z 5) f = false.
Proof.
  intros Hf. unfold float_between. rewrite andb_true_iff. split.
  - intros [H1 H2]. split; now apply float_le_not_lt.
  - intros [H1 H2]. split; apply float_not_lt_le; auto; discriminate.
Qed.

Lemma float_between_not_nan f : float_between 1 f 5 = true -> f <> S754_nan.
Proof. intros H ->. discriminate. Qed.

Lemma float_between_settled f :
  float_between 1 f 5 = true -> none_or_outside (PFloat f) 1 5 = Ok false.
Proof.
  intros H. apply float_between_iff in H as [H1 H2];
    [| now apply float_between_not_nan].
  unfold none_or_outside, py_lt, py_gt, bind. now rewrite H1, H2.
Qed.

(** Rounding a non-negative mantissa never gives NaN. *)
Lemma shr_1_nonneg mrs : (0 <= shr_m mrs)%Z -> (0 <= shr_m (shr_1 mrs))%Z.
Proof.
  destruct mrs as [m r s]. simpl. destruct m as [|p|p]; simpl; try lia.
  - destruct p; simpl; lia.
Qed.

Lemma iter_shr_1_nonneg p mrs :
  (0 <= shr_m mrs)%Z -> (0 <= shr_m (SpecFloat.iter_pos shr_1 p mrs))%Z.
Proof.
  revert mrs. induction p; simpl; intros mrs H;
    auto using shr_1_nonneg.
Qed.

Lemma shr_nonneg mrs e n :
  (0 <= shr_m mrs)%Z -> (0 <= shr_m (fst (shr mrs e n)))%Z.
Proof.
  intros H. unfold shr. destruct n; simpl; auto using iter_shr_1_nonneg.
Qed.

Lemma shr_record_of_loc_m m l : shr_m (shr_record_of_loc m l) = m.
Proof. destruct l as [|[]]; reflexivity. Qed.

Lemma shr_fexp_nonneg m e l :
  (0 <= m)%Z -> (0 <= shr_m (fst (shr_fexp prec emax m e l)))%Z.
Proof.
  intros H. unfold shr_fexp. apply shr_nonneg.
  now rewrite shr_record_of_loc_m.
Qed.

Lemma round_nearest_even_nonneg m l :
  (0 <= m)%Z -> (0 <= round_nearest_even m l)%Z.
Proof.
  intros H. unfold round_nearest_even.
  destruct l as [|[]]; try lia. destruct (Z.even m); lia.
Qed.

Lemma binary_round_aux_not_nan sx mx ex lx :
  (0 <= mx)%Z -> binary_round_aux prec emax sx mx ex lx <> S754_nan.
Proof.
  intros H. unfold binary_round_aux.
  pose proof (shr_fexp_nonneg mx ex lx H) as H1.
  destruct (shr_fexp prec emax mx ex lx) as [mrs' e'].
  simpl in H1.
  pose proof (shr_fexp_nonneg _ e' loc_Exact
                (round_nearest_even_nonneg _ (loc_of_shr_record mrs') H1)) as H2.
  destruct (shr_fexp prec emax _ e' loc_Exact) as [mrs'' e''].
  simpl in H2.
  destruct (shr_m mrs'') as [|p|p]; try discriminate; [| lia].
  destruct (e'' <=? emax - prec)%Z; discriminate.
Qed.

Lemma float_of_decimal_not_nan n k :
  (0 <= n)%Z -> float_of_decimal n k <> S754_nan.
Proof.
  intros Hn. unfold float_of_decimal. destruct n as [|p|p]; try discriminate; [| lia].
  destruct (SFdiv_core_binary prec emax (Z.pos p) 0 (10 ^ Z.of_nat k) 0)
    as [[q e] l] eqn:E.
  apply binary_round_aux_not_nan.
  unfold SFdiv_core_binary in E.
  set (m' := match _ with Z0 => Z.pos p | Zpos _ => _ | Zneg _ => 0%Z end) in E.
  assert (Hm : (0 <= m')%Z).
  { subst m'. destruct (_ - _)%Z; try lia. apply Z.shiftl_nonneg. lia. }
  assert (Hd : (0 < 10 ^ Z.of_nat k)%Z) by (apply Z.pow_pos_nonneg; lia).
  pose proof (Z_div_mod m' (10 ^ Z.of_nat k)) as Hdm.
  destruct (Z.div_eucl m' (10 ^ Z.of_nat k)) as [q' r'].
  injection E as <- _ _.
  destruct Hdm as [Heq Hr]; [lia |]. nia.
Qed.

Lemma digit_val_nonneg a : is_digit a = true -> (0 <= digit_val a)%Z.
Proof. ascii_cases a. Qed.

Lemma digits_val_nonneg s acc :
  str_forall is_digit s = true -> (0 <= acc)%Z -> (0 <= digits_val acc s)%Z.
Proof.
  revert acc. induction s as [|a s IH]; simpl; intros acc H Hacc; [assumption |].
  apply andb_true_iff in H as [Ha Hs]. apply IH; [assumption |].
  pose proof (digit_val_nonneg a Ha). lia.
Qed.

Lemma py_float_not_nan s f : py_float s = Some f -> f <> S754_nan.
Proof.
  unfold py_float. destruct (split_dot s) as [i [fr|]].
  - destruct (str_forall is_digit i && str_forall is_digit fr
              && (nonempty i || nonempty fr)) eqn:E; [| discriminate].
    intros [= <-]. apply float_of_decimal_not_nan.
    apply andb_true_iff in E as [E _]. apply andb_true_iff in E as [E1 E2].
    apply digits_val_nonneg; [| lia]. now rewrite str_forall_app, E1, E2.
  - destruct (str_forall is_digit i && nonempty i) eqn:E; [| discriminate].
    intros [= <-]. apply float_of_decimal_not_nan.
    apply andb_true_iff in E as [E _]. apply digits_val_nonneg; [assumption | lia].
Qed.

(** ** The score validator *)

Lemma fix_score_plan d ks :
  Ollama.fix_score d ks =
  let* p := fix_plan ks (str_replace "score" "reason" ks) d in
  Ok (apply_plan ks d p).
Proof.
  unfold Ollama.fix_score, fix_plan.
  destruct (getitem d ks) as [score|e]; simpl; [| reflexivity].
  destruct (none_or_outside score 1 5) as [[|]|e]; simpl; try reflexivity.
  destruct (getitem d _) as [text|e]; simpl; [| reflexivity].
  destruct (truthy text) eqn:Ht; [| reflexivity].
  destruct text as [|s|z|f]; simpl; try reflexivity.
  destruct (re_search no_flags number s) as [m|]; simpl; [| reflexivity].
  destruct (py_float (group0 m)) as [f|]; simpl; [| reflexivity].
  now destruct (float_between 1 f 5).
Qed.

Lemma fix_plan_ext ks kr d d' :
  d !! ks = d' !! ks -> d !! kr = d' !! kr -> fix_plan ks kr d = fix_plan ks kr d'.
Proof. intros H1 H2. unfold fix_plan, getitem. now rewrite H1, H2. Qed.

Lemma repaired_valid text : valid_score (repaired text).
Proof.
  unfold repaired. destruct text as [|s|z|f]; try (now left).
  destruct (re_search no_flags number s) as [m|]; [| now left].
  destruct (py_float (group0 m)) as [f|]; [| now left].
  destruct (float_between 1 f 5) eqn:E; [right; eauto | now left].
Qed.

Lemma valid_score_rerun v :
  valid_score v ->
  none_or_outside v 1 5 = Ok false \/ v = PNone.
Proof.
  intros [->|[f [-> Hf]]]; [now right | left; now apply float_between_settled].
Qed.

(** A plan that writes, writes a valid score; a second run on the result
    leaves it alone or writes the same score again. *)
Lemma fix_plan_writes ks kr d v :
  fix_plan ks kr d = Ok (Some v) -> valid_score v.
Proof.
  unfold fix_plan. destruct (getitem d ks) as [score|]; simpl; [| discriminate].
  destruct (none_or_outside score 1 5) as [[|]|]; simpl; try discriminate.
  destruct (getitem d kr) as [text|]; simpl; [| discriminate].
  destruct (truthy text).
  - destruct (re_search_val no_flags number text); simpl; [| discriminate].
    intros [= <-]. apply repaired_valid.
  - intros [= <-]. now left.
Qed.

Lemma fix_plan_again ks kr d v :
  ks <> kr -> fix_plan ks kr d = Ok (Some v) ->
  fix_plan ks kr (<[ks := v]> d) = Ok None \/
  fix_plan ks kr (<[ks := v]> d) = Ok (Some v).
Proof.
  intros Hne H. pose proof (fix_plan_writes _ _ _ _ H) as Hv.
  destruct (valid_score_rerun v Hv) as [Hs| ->].
  - left. unfold fix_plan, getitem. rewrite lookup_insert_eq. simpl. now rewrite Hs.
  - right. revert H. unfold fix_plan, getitem.
    rewrite lookup_insert_eq, lookup_insert_ne by assumption. simpl.
    destruct (d !! ks) as [score|]; simpl; [| discriminate].
    destruct (none_or_outside score 1 5) as [[|]|]; simpl; try discriminate.
    auto.
Qed.

Lemma reason_key_ne ks : In ks Ollama.score_keys -> ks <> str_replace "score" "reason" ks.
Proof. intros [<-|[<-|[<-|[]]]]; vm_compute; discriminate. Qed.

(** One key: running [fix_score] on its own result changes nothing. *)
Lemma fix_score_stable ks d d1 :
  In ks Ollama.score_keys ->
  Ollama.fix_score d ks = Ok d1 -> Ollama.fix_score d1 ks = Ok d1.
Proof.
  intros Hin. pose proof (reason_key_ne ks Hin) as Hne.
  rewrite !fix_score_plan.
  destruct (fix_plan ks _ d) as [[v|]|e] eqn:E; simpl; try discriminate.
  - intros [= <-]. destruct (fix_plan_again _ _ _ _ Hne E) as [-> | ->]; simpl.
    + reflexivity.
    + now rewrite insert_insert_eq.
  - intros [= <-]. now rewrite E.
Qed.

(** [fix_score] touches its own score key only. *)
Lemma fix_score_frame ks d d1 j :
  Ollama.fix_score d ks = Ok d1 -> j <> ks -> d1 !! j = d !! j.
Proof.
  rewrite fix_score_plan.
  destruct (fix_plan ks _ d) as [[v|]|e]; simpl; try discriminate;
    intros [= <-] Hj; [now rewrite lookup_insert_ne | reflexivity].
Qed.

(** Being left alone depends on the two entries read only. *)
Lemma fix_score_fixed_ext ks d d' :
  d !! ks = d' !! ks ->
  d !! str_replace "score" "reason" ks = d' !! str_replace "score" "reason" ks ->
  Ollama.fix_score d ks = Ok d -> Ollama.fix_score d' ks = Ok d'.
Proof.
  intros H1 H2. rewrite !fix_score_plan, <- (fix_plan_ext _ _ d d' H1 H2).
  destruct (fix_plan ks _ d) as [[v|]|e]; simpl; try discriminate; [| reflexivity].
  intros [= H]. f_equal. apply insert_id.
  rewrite <- H1, <- H. apply lookup_insert_eq.
Qed.

(** C5 *)
(** C5: the validator is idempotent. For every dictionary [r], running
    [validate_and_fix_scores] on its own result gives that result again;
    when the first run raises, so does the composition. The same holds for
    the GPT-4o-mini script, whose validator is the same text. *)
Theorem validate_idempotent (r : gmap string pyval) :
  (let* r' := Ollama.validate_and_fix_scores r in Ollama.validate_and_fix_scores r')
    = Ollama.validate_and_fix_scores r /\
  (let* r' := Gpt4oMini.validate_and_fix_scores r in Gpt4oMini.validate_and_fix_scores r')
    = Gpt4oMini.validate_and_fix_scores r.
Proof.
  change Gpt4oMini.validate_and_fix_scores with Ollama.validate_and_fix_scores.
  assert (H : (let* r' := Ollama.validate_and_fix_scores r in
               Ollama.validate_and_fix_scores r') = Ollama.validate_and_fix_scores r);
    [| now split].
  unfold Ollama.validate_and_fix_scores, Ollama.score_keys. simpl.
  destruct (Ollama.fix_score r "authenticity_score") as [d1|e] eqn:E1; simpl;
    [| reflexivity].
  destruct (Ollama.fix_score d1 "sensitivity_score") as [d2|e] eqn:E2; simpl;
    [| reflexivity].
  destruct (Ollama.fix_score d2 "harmony_score") as [d3|e] eqn:E3; simpl;
    [| reflexivity].
  assert (In "authenticity_score" Ollama.score_keys) as I1 by (simpl; auto).
  assert (In "sensitivity_score" Ollama.score_keys) as I2 by (simpl; auto).
  assert (In "harmony_score" Ollama.score_keys) as I3 by (simpl; auto).
  assert (A : Ollama.fix_score d3 "authenticity_score" = Ok d3).
  { apply (fix_score_fixed_ext _ d1); [| | eapply fix_score_stable; eauto].
    - rewrite (fix_score_frame _ _ _ _ E3), (fix_score_frame _ _ _ _ E2);
        [reflexivity | discriminate | discriminate].
    - rewrite (fix_score_frame _ _ _ _ E3), (fix_score_frame _ _ _ _ E2);
        [reflexivity | vm_compute; discriminate | vm_compute; discriminate]. }
  assert (B : Ollama.fix_score d3 "sensitivity_score" = Ok d3).
  { apply (fix_score_fixed_ext _ d2); [| | eapply fix_score_stable; eauto].
    - rewrite (fix_score_frame _ _ _ _ E3); [reflexivity | discriminate].
    - rewrite (fix_score_frame _ _ _ _ E3); [reflexivity | vm_compute; discriminate]. }
  assert (C : Ollama.fix_score d3 "harmony_score" = Ok d3)
    by (eapply fix_score_stable; eauto).
  rewrite A. simpl. rewrite B. simpl. now rewrite C.
Qed.

Ltac map_lookup :=
  repeat first [ rewrite lookup_insert_eq
               | rewrite lookup_insert_ne by discriminate
               | rewrite lookup_empty ].

(** On a well-shaped record the validator never raises. *)
Lemma fix_plan_wf d ks kr score reason :
  d !! ks = Some score -> is_score score ->
  d !! kr = Some reason -> is_reason reason ->
  fix_plan ks kr d =
  Ok (if null_or_outside score then Some (repaired reason) else None).
Proof.
  intros Hs Is Hr Ir. unfold fix_plan, getitem. rewrite Hs, Hr. simpl.
  assert (Hn : none_or_outside score 1 5 = Ok (null_or_outside score)).
  { destruct Is as [->|[f [-> _]]]; [reflexivity |].
    unfold none_or_outside, py_lt, py_gt, bind, null_or_outside.
    now destruct (float_lt f (float_of_Z 1)). }
  rewrite Hn. simpl. destruct (null_or_outside score); [| reflexivity].
  destruct Ir as [->|[s ->]]; [reflexivity |].
  destruct s as [|a s]; reflexivity.
Qed.

Lemma fix_score_wf d ks kr score reason :
  kr = str_replace "score" "reason" ks ->
  d !! ks = Some score -> is_score score ->
  d !! kr = Some reason -> is_reason reason ->
  Ollama.fix_score d ks =
  Ok (<[ks := if null_or_outside score then repaired reason else score]> d).
Proof.
  intros -> Hs Is Hr Ir. rewrite fix_score_plan.
  rewrite (fix_plan_wf _ _ _ _ _ Hs Is Hr Ir). simpl.
  destruct (null_or_outside score); simpl; [reflexivity |].
  now rewrite insert_id.
Qed.

Lemma validate_wf d :
  parsed_record d -> Ollama.validate_and_fix_scores d = Ok (validated d).
Proof.
  intros Hd.
  destruct (Hd "authenticity_score" "authenticity_reason")
    as (sa & ra & Hsa & Isa & Hra & Ira); [simpl; auto |].
  destruct (Hd "sensitivity_score" "sensitivity_reason")
    as (ss & rs & Hss & Iss & Hrs & Irs); [simpl; auto |].
  destruct (Hd "harmony_score" "harmony_reason")
    as (sh & rh & Hsh & Ish & Hrh & Irh); [simpl; auto |].
  unfold Ollama.validate_and_fix_scores, Ollama.score_keys, validated, fixed_score.
  rewrite Hsa, Hra, Hss, Hrs, Hsh, Hrh.
  cbn [for_each].
  rewrite (fix_score_wf d _ "authenticity_reason" sa ra); auto. cbn [bind].
  rewrite (fix_score_wf _ _ "sensitivity_reason" ss rs); auto;
    [| now rewrite lookup_insert_ne | now rewrite lookup_insert_ne].
  cbn [bind].
  rewrite (fix_score_wf _ _ "harmony_reason" sh rh); auto;
    now rewrite !lookup_insert_ne.
Qed.

Lemma fixed_score_valid d ks kr score reason :
  d !! ks = Some score -> is_score score -> d !! kr = Some reason ->
  valid_score (fixed_score d ks kr).
Proof.
  intros Hs Is Hr. unfold fixed_score. rewrite Hs, Hr.
  destruct (null_or_outside score) eqn:E; [apply repaired_valid |].
  destruct Is as [->|[f [-> Hf]]]; [now left |].
  right. exists f. split; [reflexivity |].
  apply float_between_iff; [assumption |].
  simpl in E. now apply orb_false_iff in E.
Qed.

Lemma validated_lookup d ks kr :
  In (ks, kr) criteria ->
  validated d !! ks = Some (fixed_score d ks kr) /\ validated d !! kr = d !! kr.
Proof.
  unfold validated.
  intros [[= <- <-]|[[= <- <-]|[[= <- <-]|[]]]];
    (split; [now map_lookup | now map_lookup]).
Qed.


(** ** The matcher *)

Section StarFacts.
Context {R : Type} (p : ascii -> bool).
Implicit Types (k : string -> option R) (s w : string).

Lemma star_greedy_sound s k res :
  star_greedy p s k = Some res ->
  exists w s', s = w +:+ s' /\ str_forall p w = true /\ k s' = Some res.
Proof.
  induction s as [|a s IH]; simpl.
  - intros H. now exists "", "".
  - destruct (p a) eqn:Pa.
    + destruct (star_greedy p s k) as [r|] eqn:E.
      * intros [= ->]. destruct (IH eq_refl) as (w & s' & -> & Hw & Hk).
        exists (String a w), s'. simpl. now rewrite Pa.
      * intros H. now exists "", (String a s).
    + intros H. now exists "", (String a s).
Qed.

Lemma star_greedy_complete w s' k :
  str_forall p w = true -> is_Some (k s') -> is_Some (star_greedy p (w +:+ s') k).
Proof.
  intros Hw Hk. induction w as [|a w IH]; simpl.
  - destruct s' as [|b s']; simpl; [assumption |].
    destruct (p b); [| assumption].
    destruct (star_greedy p s' k); [eauto | assumption].
  - simpl in Hw. apply andb_true_iff in Hw as [Pa Hw]. rewrite Pa.
    destruct (IH Hw) as [r ->]. eauto.
Qed.

(** Greedy: when all of [w] is taken and the rest of the pattern succeeds
    right after it, that is the match. *)
Lemma star_greedy_max w s' k res :
  str_forall p w = true -> stops p s' -> k s' = Some res ->
  star_greedy p (w +:+ s') k = Some res.
Proof.
  intros Hw Hs Hk. induction w as [|a w IH]; simpl.
  - destruct s' as [|b s']; simpl; [assumption |].
    simpl in Hs. now rewrite Hs.
  - simpl in Hw. apply andb_true_iff in Hw as [Pa Hw]. now rewrite Pa, (IH Hw).
Qed.

Lemma star_lazy_sound s k res :
  star_lazy p s k = Some res ->
  exists w s', s = w +:+ s' /\ str_forall p w = true /\ k s' = Some res /\
               each_suffix (fun t => k t = None) w s'.
Proof.
  induction s as [|a s IH]; simpl.
  - destruct (k "") eqn:E; [| discriminate]. intros [= ->]. now exists "", "".
  - destruct (k (String a s)) eqn:E.
    + intros [= ->]. now exists "", (String a s).
    + destruct (p a) eqn:Pa; [| discriminate].
      intros H. destruct (IH H) as (w & s' & -> & Hw & Hk & Hmin).
      exists (String a w), s'. simpl. now rewrite Pa.
Qed.

Lemma star_lazy_complete w s' k :
  str_forall p w = true -> is_Some (k s') -> is_Some (star_lazy p (w +:+ s') k).
Proof.
  intros Hw Hk. induction w as [|a w IH]; simpl.
  - destruct s' as [|b s']; simpl; destruct Hk as [r ->]; eauto.
  - simpl in Hw. apply andb_true_iff in Hw as [Pa Hw].
    destruct (k (String a (w +:+ s'))); [eauto |]. rewrite Pa. auto.
Qed.

Lemma star_lazy_here s k res : k s = Some res -> star_lazy p s k = Some res.
Proof. intros H. destruct s; simpl; now rewrite H. Qed.

(** Lazy: while the rest of the pattern fails, one more character is taken. *)
Lemma star_lazy_skip a b k :
  str_forall p a = true -> each_suffix (fun t => k t = None) a b ->
  star_lazy p (a +:+ b) k = star_lazy p b k.
Proof.
  induction a as [|c a IH]; simpl; [reflexivity |].
  intros Hp [H1 H2]. apply andb_true_iff in Hp as [Pc Hp].
  simpl in H1. rewrite H1, Pc. auto.
Qed.
End StarFacts.

Lemma each_suffix_app P a1 a2 b :
  each_suffix P a1 (a2 +:+ b) -> each_suffix P a2 b -> each_suffix P (a1 +:+ a2) b.
Proof.
  induction a1 as [|c a1 IH]; simpl; [auto |].
  intros [H1 H2] H3. split; [| auto].
  now rewrite str_app_assoc.
Qed.

Lemma each_suffix_chars (P : string -> Prop) (q : ascii -> bool) a b :
  (forall c t, q c = true -> P (String c t)) ->
  str_forall q a = true -> each_suffix P a b.
Proof.
  intros HP. induction a as [|c a IH]; simpl; [auto |].
  intros H. apply andb_true_iff in H as [Hc Ha]. split; auto.
Qed.

Lemma each_suffix_impl (P Q : string -> Prop) a b :
  (forall t, P t -> Q t) -> each_suffix P a b -> each_suffix Q a b.
Proof. intros HPQ. induction a; simpl; [auto | intros [H1 H2]; split; auto]. Qed.

(** Every match the backtracking search returns is a match of the pattern. *)
Lemma rmatch_sound fl r : forall s cap k res,
  rmatch fl r s cap k = Some res ->
  exists s' cap', matches fl r s cap s' cap' /\ k s' cap' = Some res.
Proof.
  induction r as [w|c|c|c|c|r1 IH1 r2 IH2|r1 IH1 r2 IH2|r1 IH1|r1 IH1|r1 IH1|];
    intros s cap k res; simpl.
  - destruct (match_lit fl w s) as [s'|] eqn:E; [| discriminate].
    intros H. now exists s', cap.
  - destruct s as [|a s]; [discriminate |].
    destruct (cmatch fl c a) eqn:E; [| discriminate].
    intros H. exists s, cap. split; [exists a |]; auto.
  - intros H. apply star_greedy_sound in H as (w & s' & -> & Hw & Hk).
    exists s', cap. split; [exists w |]; auto.
  - intros H. apply star_lazy_sound in H as (w & s' & -> & Hw & Hk & _).
    exists s', cap. split; [exists w |]; auto.
  - destruct s as [|a s]; [discriminate |].
    destruct (cmatch fl c a) eqn:E; [| discriminate].
    intros H. apply star_greedy_sound in H as (w & s' & -> & Hw & Hk).
    exists s', cap. split; [exists a, w |]; auto.
  - intros H. apply IH1 in H as (s1 & c1 & M1 & H).
    apply IH2 in H as (s2 & c2 & M2 & H). exists s2, c2. split; [| assumption].
    now exists s1, c1.
  - destruct (rmatch fl r1 s cap k) as [x|] eqn:E.
    + intros [= ->]. apply IH1 in E as (s1 & c1 & M1 & H). exists s1, c1. auto.
    + intros H. apply IH2 in H as (s1 & c1 & M1 & H). exists s1, c1. auto.
  - destruct (rmatch fl r1 s cap k) as [x|] eqn:E.
    + intros [= ->]. apply IH1 in E as (s1 & c1 & M1 & H). exists s1, c1. auto.
    + intros H. exists s, cap. auto.
  - intros H. apply IH1 in H as (s1 & c1 & M1 & H).
    exists s1, (Some (consumed s s1)). split; [exists c1 |]; auto.
  - destruct (rmatch fl r1 s cap _) as [[s2 c2]|] eqn:E; [| discriminate].
    intros H. apply IH1 in E as (s1 & c1 & M1 & [= <- <-]).
    exists s, c1. split; [split; [reflexivity | now exists s1] | assumption].
  - destruct (at_end s) eqn:E; [| discriminate].
    intros H. exists s, cap. auto.
Qed.

Lemma nogroup_cap fl r : forall s cap s' cap',
  nogroup r = true -> matches fl r s cap s' cap' -> cap' = cap.
Proof.
  induction r as [w|c|c|c|c|r1 IH1 r2 IH2|r1 IH1 r2 IH2|r1 IH1|r1 IH1|r1 IH1|];
    intros s cap s' cap'; simpl; try discriminate.
  - now intros _ [_ ->].
  - now intros _ (a & _ & _ & ->).
  - now intros _ (w & _ & _ & ->).
  - now intros _ (w & _ & _ & ->).
  - now intros _ (a & w & _ & _ & _ & ->).
  - intros H (s1 & c1 & M1 & M2). apply andb_true_iff in H as [H1 H2].
    rewrite (IH2 _ _ _ _ H2 M2). eauto.
  - intros H [M|M]; apply andb_true_iff in H as [H1 H2]; eauto.
  - intros H [M|[_ ->]]; eauto.
  - intros H [_ [s2 M]]. eauto.
  - now intros _ (_ & -> & _).
Qed.

(** When the pattern has a match after which the rest succeeds, the
    backtracking search finds one (not always the same). *)
Lemma rmatch_complete fl r : forall s cap s' cap' k,
  plain_looks r = true ->
  matches fl r s cap s' cap' -> is_Some (k s' cap') ->
  is_Some (rmatch fl r s cap k).
Proof.
  induction r as [w|c|c|c|c|r1 IH1 r2 IH2|r1 IH1 r2 IH2|r1 IH1|r1 IH1|r1 IH1|];
    intros s cap s' cap' k; simpl.
  - intros _ [-> ->]. auto.
  - intros _ (a & -> & -> & ->). auto.
  - intros _ (w & -> & Hw & ->) Hk. now apply star_greedy_complete.
  - intros _ (w & -> & Hw & ->) Hk. now apply star_lazy_complete.
  - intros _ (a & w & -> & -> & Hw & ->) Hk. now apply star_greedy_complete.
  - intros H (s1 & c1 & M1 & M2) Hk. apply andb_true_iff in H as [H1 H2].
    eapply IH1; eauto.
  - intros H M Hk. apply andb_true_iff in H as [H1 H2].
    destruct (rmatch fl r1 s cap k) eqn:E; [eauto |].
    destruct M as [M|M]; [| eauto].
    pose proof (IH1 _ _ _ _ _ H1 M Hk) as [x Hx]. congruence.
  - intros H M Hk. destruct (rmatch fl r1 s cap k) eqn:E; [eauto |].
    destruct M as [M|[-> ->]]; [| assumption].
    pose proof (IH1 _ _ _ _ _ H M Hk) as [x Hx]. congruence.
  - intros H (c0 & M & ->) Hk. eapply IH1; eauto.
  - intros H [-> [s2 M]] Hk.
    pose proof (nogroup_cap _ _ _ _ _ _ H M) as ->.
    destruct (rmatch fl r1 s cap _) as [[s3 c3]|] eqn:E.
    + apply rmatch_sound in E as (s4 & c4 & M4 & [= <- <-]).
      now rewrite (nogroup_cap _ _ _ _ _ _ H M4).
    + assert (Hl : plain_looks r1 = true).
      { clear -H. induction r1; simpl in *; try reflexivity; try discriminate;
          try (apply andb_true_iff in H as [? ?]; apply andb_true_iff); auto. }
      pose proof (IH1 _ _ _ _ (fun s' c => Some (s', c)) Hl M (ltac:(eauto))) as [x Hx].
      congruence.
  - intros _ (-> & -> & ->). auto.
Qed.

Lemma re_search_here fl r s s' cap :
  match_at fl r s = Some (s', cap) ->
  re_search fl r s = Some (Match (consumed s s') cap).
Proof. intros H. destruct s; simpl; now rewrite H. Qed.

Lemma re_search_skip fl r a b :
  each_suffix (fun t => match_at fl r t = None) a b ->
  re_search fl r (a +:+ b) = re_search fl r b.
Proof.
  induction a as [|c a IH]; simpl; [reflexivity |].
  intros [H1 H2]. simpl in H1. rewrite H1. auto.
Qed.

(** A successful search: some suffix of the text has a match. *)
Lemma re_search_sound fl r s m :
  re_search fl r s = Some m ->
  exists a t s' cap, s = a +:+ t /\ matches fl r t None s' cap /\
                     m = Match (consumed t s') cap.
Proof.
  induction s as [|c s IH]; simpl.
  - destruct (match_at fl r "") as [[s' cap]|] eqn:E; [| discriminate].
    intros [= <-]. apply rmatch_sound in E as (s1 & c1 & M & [= -> ->]).
    now exists "", "", s', cap.
  - destruct (match_at fl r (String c s)) as [[s' cap]|] eqn:E.
    + intros [= <-]. apply rmatch_sound in E as (s1 & c1 & M & [= -> ->]).
      now exists "", (String c s), s', cap.
    + intros H. destruct (IH H) as (a & t & s' & cap & -> & M & ->).
      now exists (String c a), t, s', cap.
Qed.

(** No match at any suffix: the search fails. *)
Lemma re_search_none fl r s :
  (forall a t s' cap, s = a +:+ t -> ~ matches fl r t None s' cap) ->
  re_search fl r s = None.
Proof.
  intros H. destruct (re_search fl r s) as [m|] eqn:E; [| reflexivity].
  apply re_search_sound in E as (a & t & s' & cap & -> & M & _).
  now destruct (H a t s' cap eq_refl).
Qed.

Lemma re_search_complete fl r a t s' cap :
  plain_looks r = true -> matches fl r t None s' cap ->
  is_Some (re_search fl r (a +:+ t)).
Proof.
  intros Hl M. induction a as [|c a IH]; simpl.
  - pose proof (rmatch_complete fl r t None s' cap accept Hl M (ltac:(eauto))) as [[s1 c1] Hx].
    fold (match_at fl r t) in Hx. rewrite (re_search_here _ _ _ _ _ Hx). eauto.
  - destruct (match_at fl r (String c (a +:+ t))) as [[s1 c1]|]; eauto.
Qed.

(** ** The parser: closed form *)

Lemma matches_keeps fl r : forall s cap s' cap',
  matches fl r s cap s' cap' ->
  sets_group r = true \/ is_Some cap -> is_Some cap'.
Proof.
  induction r as [w|c|c|c|c|r1 IH1 r2 IH2|r1 IH1 r2 IH2|r1 IH1|r1 IH1|r1 IH1|];
    intros s cap s' cap'; simpl.
  - intros [_ ->] [?|?]; [discriminate | assumption].
  - intros (a & _ & _ & ->) [?|?]; [discriminate | assumption].
  - intros (w & _ & _ & ->) [?|?]; [discriminate | assumption].
  - intros (w & _ & _ & ->) [?|?]; [discriminate | assumption].
  - intros (a & w & _ & _ & _ & ->) [?|?]; [discriminate | assumption].
  - intros (s1 & c1 & M1 & M2) [H|H].
    + apply orb_true_iff in H as [H|H]; eauto.
    + eauto.
  - intros [M|M] [H|H]; try (apply andb_true_iff in H as [H1 H2]); eauto.
  - intros [M|[_ ->]] [H|H]; try discriminate; eauto.
  - intros (c0 & _ & ->) _. eauto.
  - intros [_ [s2 M]] H. eauto.
  - intros (_ & -> & _) [?|?]; [discriminate | assumption].
Qed.

Lemma re_search_group fl r s m :
  sets_group r = true -> re_search fl r s = Some m -> is_Some (group1 m).
Proof.
  intros Hg H. apply re_search_sound in H as (a & t & s' & cap & _ & M & ->).
  simpl. eapply matches_keeps; eauto.
Qed.

Lemma ollama_parse_step text d p key :
  sets_group p = true ->
  Ollama.parse_step text d (p, key) = Ok (<[key := parse_field p key text]> d).
Proof.
  intros Hg. unfold Ollama.parse_step, parse_field, group1_strip.
  destruct (re_search flags_si p text) as [m|] eqn:E; [| reflexivity].
  destruct (re_search_group _ _ _ _ Hg E) as [v ->]. simpl.
  now destruct (str_in "score" key).
Qed.

Lemma ollama_parse_table table text d :
  forallb (fun e => sets_group (fst e)) table = true ->
  for_each table (Ollama.parse_step text) d =
  Ok (fold_left (fun d '(pattern, key) => <[key := parse_field pattern key text]> d)
        table d).
Proof.
  revert d. induction table as [|[p key] table IH]; intros d; cbn [for_each fold_left forallb fst];
    [reflexivity |].
  intros H. apply andb_true_iff in H as [Hp Ht].
  rewrite (ollama_parse_step _ _ _ _ Hp). cbn [bind]. now apply IH.
Qed.

(** [parse_evaluation] never raises, and stores one field per pattern. *)
Lemma parse_evaluation_eq text :
  Ollama.parse_evaluation text = Ok (parse_fields Ollama.patterns text).
Proof. now apply ollama_parse_table. Qed.

Lemma gemini_parse_step text d p key :
  sets_group p = true ->
  Gemini.parse_step text d (p, key) = Ok (<[key := gemini_field p text]> d).
Proof.
  intros Hg. unfold Gemini.parse_step, gemini_field, group1_strip.
  destruct (re_search flags_si p text) as [m|] eqn:E; [| reflexivity].
  now destruct (re_search_group _ _ _ _ Hg E) as [v ->].
Qed.

Lemma gemini_parse_table table text d :
  forallb (fun e => sets_group (fst e)) table = true ->
  for_each table (Gemini.parse_step text) d =
  Ok (fold_left (fun d '(pattern, key) => <[key := gemini_field pattern text]> d)
        table d).
Proof.
  revert d. induction table as [|[p key] table IH]; intros d; cbn [for_each fold_left forallb fst];
    [reflexivity |].
  intros H. apply andb_true_iff in H as [Hp Ht].
  rewrite (gemini_parse_step _ _ _ _ Hp). cbn [bind]. now apply IH.
Qed.

Lemma gemini_parse_evaluation_eq text :
  Gemini.parse_evaluation text = Ok (gemini_fields Gemini.patterns text).
Proof. now apply gemini_parse_table. Qed.

(** The six entries of the parser's result. *)
Lemma parse_fields_lookup text p key :
  In (p, key) Ollama.patterns ->
  parse_fields Ollama.patterns text !! key = Some (parse_field p key text).
Proof.
  unfold parse_fields, Ollama.patterns. cbn [fold_left].
  intros [[= <- <-]|[[= <- <-]|[[= <- <-]|[[= <- <-]|[[= <- <-]|[[= <- <-]|[]]]]]]];
    now map_lookup.
Qed.

Lemma gemini_fields_lookup text p key :
  In (p, key) Gemini.patterns ->
  gemini_fields Gemini.patterns text !! key = Some (gemini_field p text).
Proof.
  unfold gemini_fields, Gemini.patterns. cbn [fold_left].
  intros [[= <- <-]|[[= <- <-]|[[= <- <-]|[[= <- <-]|[[= <- <-]|[[= <- <-]|[]]]]]]];
    now map_lookup.
Qed.

Lemma coerce_score_is_score v : is_score (coerce_score v).
Proof.
  unfold coerce_score.
  destruct (py_float _) as [f|] eqn:E; [| now left].
  right. exists f. split; [reflexivity |]. now apply py_float_not_nan in E.
Qed.

Lemma parse_field_shape p key text :
  (str_in "score" key = true -> is_score (parse_field p key text)) /\
  (str_in "score" key = false -> is_reason (parse_field p key text)).
Proof.
  unfold parse_field. destruct (re_search flags_si p text) as [m|].
  - cbv zeta. split; intros ->; [apply coerce_score_is_score | right; eauto].
  - split; intros _; now left.
Qed.

Lemma parse_fields_parsed text : parsed_record (parse_fields Ollama.patterns text).
Proof.
  intros ks kr [[= <- <-]|[[= <- <-]|[[= <- <-]|[]]]];
    do 2 eexists;
    (split; [apply parse_fields_lookup; simpl; auto 7 |]);
    (split; [now apply parse_field_shape |]);
    (split; [apply parse_fields_lookup; simpl; auto 7 |]);
    now apply parse_field_shape.
Qed.

(** ** The orchestrators *)

Lemma grows_for_each {A : Type} (l : list A) (body : run -> A -> py run) P c :
  (forall x, In x l -> grows P c (fun st => body st x)) ->
  grows P (c * length l) (for_each l body).
Proof.
  induction l as [|x l IH]; intros Hb st Hst; cbn [for_each length].
  - exists st. repeat split; [lia | assumption].
  - destruct (Hb x (or_introl eq_refl) st Hst) as (st1 & E1 & L1 & F1).
    rewrite E1. cbn [bind].
    destruct (IH (fun y Hy => Hb y (or_intror Hy)) st1 F1) as (st2 & E2 & L2 & F2).
    exists st2. repeat split; [assumption | lia | assumption].
Qed.

Lemma grows_append P (f : run -> py run) (record : run -> gmap string pyval) :
  (forall st, f st = Ok (Run (results st ++ [record st]) (S (calls st)))) ->
  (forall st, P (record st)) ->
  grows P 1 f.
Proof.
  intros Hf HP st Hst. eexists. split; [apply Hf |]. simpl. split.
  - rewrite length_app. reflexivity.
  - apply Forall_app. split; [assumption | now constructor].
Qed.

Lemma getitem_some {V : Type} (d : gmap string V) key v :
  d !! key = Some v -> getitem d key = Ok v.
Proof. unfold getitem. now intros ->. Qed.

Lemma getitem_entry {V : Type} (dflt : V) (d : gmap string V) key :
  is_Some (d !! key) -> getitem d key = Ok (entry dflt d key).
Proof. unfold getitem, entry. now intros [v ->]. Qed.

Lemma validated_has d ks kr :
  parsed_record d -> In (ks, kr) criteria ->
  is_Some (validated d !! ks) /\ is_Some (validated d !! kr).
Proof.
  intros Hd Hin. destruct (validated_lookup d ks kr Hin) as [-> ->].
  destruct (Hd ks kr Hin) as (score & reason & _ & _ & -> & _). eauto.
Qed.

Lemma gemini_fields_has text key :
  In key ["authenticity_score"; "authenticity_reason"; "sensitivity_score";
          "sensitivity_reason"; "harmony_score"; "harmony_reason"] ->
  is_Some (gemini_fields Gemini.patterns text !! key).
Proof.
  unfold gemini_fields, Gemini.patterns. cbn [fold_left].
  intros [<-|[<-|[<-|[<-|[<-|[<-|[]]]]]]]; map_lookup; eauto.
Qed.

Lemma ollama_evaluate_once llm row model_name st iteration od v gr :
  row !! "original_dish" = Some od -> row !! "variation" = Some v ->
  row !! "generated_recipe" = Some gr ->
  Ollama.evaluate_once llm row model_name st iteration =
  Ok (Run (results st ++
             [ollama_record row model_name iteration
                (Ollama.evaluate_recipe llm (calls st) model_name od v gr iteration)])
          (S (calls st))).
Proof.
  intros H1 H2 H3. unfold Ollama.evaluate_once.
  rewrite (getitem_some _ _ _ H1), (getitem_some _ _ _ H2), (getitem_some _ _ _ H3).
  cbn [bind]. rewrite parse_evaluation_eq. cbn [bind].
  set (text := Ollama.evaluate_recipe _ _ _ _ _ _ _).
  pose proof (parse_fields_parsed text) as Hd.
  rewrite (validate_wf _ Hd). cbn [bind].
  destruct (validated_has _ "authenticity_score" "authenticity_reason" Hd) as [A1 A2];
    [simpl; auto |].
  destruct (validated_has _ "sensitivity_score" "sensitivity_reason" Hd) as [B1 B2];
    [simpl; auto |].
  destruct (validated_has _ "harmony_score" "harmony_reason" Hd) as [C1 C2];
    [simpl; auto |].
  rewrite (getitem_entry PNone _ _ A1), (getitem_entry PNone _ _ A2),
    (getitem_entry PNone _ _ B1), (getitem_entry PNone _ _ B2),
    (getitem_entry PNone _ _ C1), (getitem_entry PNone _ _ C2).
  reflexivity.
Qed.

Lemma gpt_evaluate_row llm st index row md od v gr :
  row !! "model" = Some md ->
  row !! "original_dish" = Some od -> row !! "variation" = Some v ->
  row !! "generated_recipe" = Some gr ->
  Gpt4oMini.evaluate_row llm st (index, row) =
  Ok (Run (results st ++
             [gpt_record row (Gpt4oMini.evaluate_recipe llm (calls st) od v gr)])
          (S (calls st))).
Proof.
  intros H0 H1 H2 H3. unfold Gpt4oMini.evaluate_row.
  rewrite (getitem_some _ _ _ H0),
    (getitem_some _ _ _ H1), (getitem_some _ _ _ H2), (getitem_some _ _ _ H3).
  cbn [bind].
  change Gpt4oMini.parse_evaluation with Ollama.parse_evaluation.
  change Gpt4oMini.validate_and_fix_scores with Ollama.validate_and_fix_scores.
  rewrite parse_evaluation_eq. cbn [bind].
  set (text := Gpt4oMini.evaluate_recipe _ _ _ _ _).
  pose proof (parse_fields_parsed text) as Hd.
  rewrite (validate_wf _ Hd). cbn [bind].
  destruct (validated_has _ "authenticity_score" "authenticity_reason" Hd) as [A1 A2];
    [simpl; auto |].
  destruct (validated_has _ "sensitivity_score" "sensitivity_reason" Hd) as [B1 B2];
    [simpl; auto |].
  destruct (validated_has _ "harmony_score" "harmony_reason" Hd) as [C1 C2];
    [simpl; auto |].
  rewrite (getitem_entry PNone _ _ A1), (getitem_entry PNone _ _ A2),
    (getitem_entry PNone _ _ B1), (getitem_entry PNone _ _ B2),
    (getitem_entry PNone _ _ C1), (getitem_entry PNone _ _ C2).
  reflexivity.
Qed.

Lemma gemini_evaluate_once llm row st iteration od v gr :
  row !! "original_dish" = Some od -> row !! "variation" = Some v ->
  row !! "generated_recipe" = Some gr ->
  Gemini.evaluate_once llm row st iteration =
  Ok (Run (results st ++
             [gemini_record row iteration
                (Gemini.evaluate_recipe llm (calls st) od v gr iteration)])
          (S (calls st))).
Proof.
  intros H1 H2 H3. unfold Gemini.evaluate_once.
  rewrite (getitem_some _ _ _ H1), (getitem_some _ _ _ H2), (getitem_some _ _ _ H3).
  cbn [bind]. rewrite gemini_parse_evaluation_eq. cbn [bind].
  set (text := Gemini.evaluate_recipe _ _ _ _ _ _).
  rewrite !(getitem_entry PNone) by (apply gemini_fields_has; simpl; auto 7).
  reflexivity.
Qed.

Lemma enumerate1_length {A : Type} (l : list A) : length (enumerate1 l) = length l.
Proof.
  unfold enumerate1. rewrite length_combine, length_seq. lia.
Qed.

Lemma enumerate1_in {A : Type} (l : list A) i x : In (i, x) (enumerate1 l) -> In x l.
Proof. unfold enumerate1. apply in_combine_r. Qed.

(** The Ollama run: no exception, five records per row and model, and
    every record as [ollama_record] builds it from some call. *)
Lemma ollama_run self llm rows P :
  Forall has_columns rows ->
  (forall row model_name iteration now od v gr,
      In row rows -> In model_name (Ollama.model_names self) ->
      In iteration iterations ->
      P (ollama_record row model_name iteration
           (Ollama.evaluate_recipe llm now model_name od v gr iteration))) ->
  exists res, Ollama.evaluate_recipes self llm rows = Ok res /\
              length res = length rows * length (Ollama.model_names self) * 5 /\
              Forall P res.
Proof.
  intros Hrows HP. unfold Ollama.evaluate_recipes.
  assert (G : grows P (5 * length (Ollama.model_names self) * length (enumerate1 rows))
                (for_each (enumerate1 rows) (fun st '(index, row) =>
                   let* _ := getitem row "original_dish" in
                   let* _ := getitem row "variation" in
                   for_each (Ollama.model_names self) (fun st model_name =>
                     for_each iterations (Ollama.evaluate_once llm row model_name) st)
                     st))).
  { apply grows_for_each. intros [index row] Hin.
    apply enumerate1_in in Hin.
    rewrite Forall_forall in Hrows. destruct (Hrows row) as ([od H1] & [v H2] & [gr H3]).
    { now apply list_elem_of_In. }
    intros st Hst.
    rewrite (getitem_some _ _ _ H1), (getitem_some _ _ _ H2). cbn [bind].
    revert st Hst. apply grows_for_each. intros model_name Hm.
    change 5 with (1 * length iterations).
    apply grows_for_each. intros iteration Hi.
    apply (grows_append P _ (fun st => ollama_record row model_name iteration
             (Ollama.evaluate_recipe llm (calls st) model_name od v gr iteration))).
    - intros st. now apply ollama_evaluate_once.
    - intros st. now apply HP. }
  destruct (G (Run [] 0)) as (st & E & L & F); [constructor |].
  rewrite E. cbn [bind]. exists (results st). split; [reflexivity |].
  split; [| assumption]. rewrite L, enumerate1_length. simpl. lia.
Qed.

Lemma gpt_run llm rows P :
  Forall (fun row => has_columns row /\ is_Some (row !! "model")) rows ->
  (forall row now od v gr,
      In row rows -> P (gpt_record row (Gpt4oMini.evaluate_recipe llm now od v gr))) ->
  exists res, Gpt4oMini.evaluate_recipes llm rows = Ok res /\
              length res = length rows /\ Forall P res.
Proof.
  intros Hrows HP. unfold Gpt4oMini.evaluate_recipes.
  assert (G : grows P (1 * length (enumerate1 rows))
                (for_each (enumerate1 rows) (Gpt4oMini.evaluate_row llm))).
  { apply grows_for_each. intros [index row] Hin.
    apply enumerate1_in in Hin.
    rewrite Forall_forall in Hrows.
    destruct (Hrows row) as (([od H1] & [v H2] & [gr H3]) & [md H0]).
    { now apply list_elem_of_In. }
    apply (grows_append P _ (fun st => gpt_record row
             (Gpt4oMini.evaluate_recipe llm (calls st) od v gr))).
    - intros st. now apply (gpt_evaluate_row _ _ _ _ md).
    - intros st. now apply HP. }
  destruct (G (Run [] 0)) as (st & E & L & F); [constructor |].
  rewrite E. cbn [bind]. exists (results st). split; [reflexivity |].
  split; [| assumption]. rewrite L, enumerate1_length. simpl. lia.
Qed.

Lemma gemini_run llm rows P :
  Forall has_columns rows ->
  (forall row iteration now od v gr,
      In row rows -> In iteration iterations ->
      P (gemini_record row iteration
           (Gemini.evaluate_recipe llm now od v gr iteration))) ->
  exists res, Gemini.evaluate_recipes llm rows = Ok res /\
              length res = length rows * 1 * 5 /\ Forall P res.
Proof.
  intros Hrows HP. unfold Gemini.evaluate_recipes.
  assert (G : grows P (5 * length (enumerate1 rows))
                (for_each (enumerate1 rows) (fun st '(index, row) =>
                   for_each iterations (Gemini.evaluate_once llm row) st))).
  { apply grows_for_each. intros [index row] Hin.
    apply enumerate1_in in Hin.
    rewrite Forall_forall in Hrows. destruct (Hrows row) as ([od H1] & [v H2] & [gr H3]).
    { now apply list_elem_of_In. }
    change 5 with (1 * length iterations).
    apply grows_for_each. intros iteration Hi.
    apply (grows_append P _ (fun st => gemini_record row iteration
             (Gemini.evaluate_recipe llm (calls st) od v gr iteration))).
    - intros st. now apply gemini_evaluate_once.
    - intros st. now apply HP. }
  destruct (G (Run [] 0)) as (st & E & L & F); [constructor |].
  rewrite E. cbn [bind]. exists (results st). split; [reflexivity |].
  split; [| assumption]. rewrite L, enumerate1_length. simpl. lia.
Qed.

(** ** Texts without a label *)

Lemma ollama_patterns_eq :
  Ollama.patterns =
  [ (score_pattern "AUTHENTICITY", "authenticity_score");
    (reason_pattern "AUTHENTICITY:" stop_authenticity, "authenticity_reason");
    (score_pattern "SENSITIVITY", "sensitivity_score");
    (reason_pattern "SENSITIVITY:" stop_sensitivity, "sensitivity_reason");
    (score_pattern "HARMONY", "harmony_score");
    (reason_pattern "HARMONY:" REnd, "harmony_reason") ].
Proof. reflexivity. Qed.

Lemma gpt_patterns_eq : Gpt4oMini.patterns = Ollama.patterns.
Proof. reflexivity. Qed.

Lemma gemini_patterns_eq :
  Gemini.patterns =
  [ (gemini_score_pattern "AUTHENTICITY", "authenticity_score");
    (gemini_reason_pattern "AUTHENTICITY" "SENSITIVITY", "authenticity_reason");
    (gemini_score_pattern "SENSITIVITY", "sensitivity_score");
    (gemini_reason_pattern "SENSITIVITY" "HARMONY", "sensitivity_reason");
    (gemini_score_pattern "HARMONY", "harmony_score");
    (gemini_last_pattern "HARMONY", "harmony_reason") ].
Proof. reflexivity. Qed.

Lemma match_lit_app fl w1 w2 s :
  match_lit fl (w1 +:+ w2) s =
  match match_lit fl w1 s with
  | Some s1 => match_lit fl w2 s1
  | None => None
  end.
Proof.
  revert s. induction w1 as [|c w1 IH]; intros s; simpl; [reflexivity |].
  destruct s as [|a s]; [reflexivity |]. destruct (chr_eq fl c a); auto.
Qed.

Lemma occurs_suffix w a t :
  is_Some (match_lit flags_si w t) -> occurs w (a +:+ t) = true.
Proof.
  intros [x Hx]. induction a as [|c a IH]; simpl.
  - destruct t; simpl; now rewrite Hx.
  - now destruct (match_lit flags_si w (String c (a +:+ t))).
Qed.

Lemma occurs_none w a t :
  occurs w (a +:+ t) = false -> match_lit flags_si w t = None.
Proof.
  intros H. destruct (match_lit flags_si w t) eqn:E; [| reflexivity].
  rewrite occurs_suffix in H; [discriminate | eauto].
Qed.

(** A pattern that opens with a label finds nothing in a text where the
    label does not occur. *)
Lemma re_search_label w x rest text :
  occurs w text = false ->
  re_search flags_si (RSeq (RLit (w +:+ x)) rest) text = None.
Proof.
  intros H. apply re_search_none. intros a t s' cap -> (s1 & c1 & [M _] & _).
  rewrite match_lit_app, (occurs_none _ _ _ H) in M. discriminate.
Qed.

Lemma score_pattern_label label text :
  occurs label text = false -> re_search flags_si (score_pattern label) text = None.
Proof.
  intros H. unfold score_pattern. rewrite <- (str_app_nil_r label).
  now apply re_search_label.
Qed.

Lemma reason_pattern_label label x stop text :
  occurs label text = false ->
  re_search flags_si (reason_pattern (label +:+ x) stop) text = None.
Proof. intros H. now apply re_search_label. Qed.

Lemma gemini_score_pattern_label label text :
  occurs label text = false ->
  re_search flags_si (gemini_score_pattern label) text = None.
Proof.
  intros H. unfold gemini_score_pattern. rewrite <- (str_app_nil_r label).
  now apply re_search_label.
Qed.

Lemma gemini_reason_pattern_label label next text :
  occurs label text = false ->
  re_search flags_si (gemini_reason_pattern label next) text = None.
Proof.
  intros H. unfold gemini_reason_pattern. rewrite <- (str_app_nil_r label).
  now apply re_search_label.
Qed.

Lemma gemini_last_pattern_label label text :
  occurs label text = false ->
  re_search flags_si (gemini_last_pattern label) text = None.
Proof.
  intros H. unfold gemini_last_pattern. rewrite <- (str_app_nil_r label).
  now apply re_search_label.
Qed.

Lemma parse_field_none p key text :
  re_search flags_si p text = None -> parse_field p key text = PNone.
Proof. unfold parse_field. now intros ->. Qed.

Lemma gemini_field_none p text :
  re_search flags_si p text = None -> gemini_field p text = PNone.
Proof. unfold gemini_field. now intros ->. Qed.

(** Both parsers return six nulls on a text without any label. *)
Lemma parse_label_free text :
  label_free text ->
  parse_fields Ollama.patterns text = all_null /\
  gemini_fields Gemini.patterns text = all_null.
Proof.
  intros (HA & HS & HH). split.
  - rewrite ollama_patterns_eq. unfold parse_fields, all_null. cbn [fold_left].
    rewrite (parse_field_none _ _ _ (score_pattern_label _ _ HA)),
      (parse_field_none _ _ _ (score_pattern_label _ _ HS)),
      (parse_field_none _ _ _ (score_pattern_label _ _ HH)),
      (parse_field_none _ _ _ (reason_pattern_label _ ":" stop_authenticity _ HA)),
      (parse_field_none _ _ _ (reason_pattern_label _ ":" stop_sensitivity _ HS)),
      (parse_field_none _ _ _ (reason_pattern_label _ ":" REnd _ HH)).
    reflexivity.
  - rewrite gemini_patterns_eq. unfold gemini_fields, all_null. cbn [fold_left].
    rewrite (gemini_field_none _ _ (gemini_score_pattern_label _ _ HA)),
      (gemini_field_none _ _ (gemini_score_pattern_label _ _ HS)),
      (gemini_field_none _ _ (gemini_score_pattern_label _ _ HH)),
      (gemini_field_none _ _ (gemini_reason_pattern_label _ "SENSITIVITY" _ HA)),
      (gemini_field_none _ _ (gemini_reason_pattern_label _ "HARMONY" _ HS)),
      (gemini_field_none _ _ (gemini_last_pattern_label _ _ HH)).
    reflexivity.
Qed.

(** ** What reaches the result collection *)

Lemma validated_scores_valid d : parsed_record d -> scores_valid (validated d).
Proof.
  intros Hd ks kr Hin. destruct (validated_lookup d ks kr Hin) as [H _].
  destruct (Hd ks kr Hin) as (score & reason & Hs & Is & Hr & _).
  eexists. split; [exact H |]. eapply fixed_score_valid; eauto.
Qed.

Lemma entry_some {V : Type} (dflt : V) (d : gmap string V) key v :
  d !! key = Some v -> entry dflt d key = v.
Proof. unfold entry. now intros ->. Qed.

Lemma ollama_record_field row model_name iteration text ks kr :
  In (ks, kr) criteria ->
  ollama_record row model_name iteration text !! ks =
    Some (entry PNone (validated (parse_fields Ollama.patterns text)) ks) /\
  ollama_record row model_name iteration text !! kr =
    Some (entry PNone (validated (parse_fields Ollama.patterns text)) kr).
Proof.
  unfold ollama_record. cbv zeta.
  intros [[= <- <-]|[[= <- <-]|[[= <- <-]|[]]]]; split; now map_lookup.
Qed.

Lemma gpt_record_field row text ks kr :
  In (ks, kr) criteria ->
  gpt_record row text !! ks =
    Some (entry PNone (validated (parse_fields Ollama.patterns text)) ks) /\
  gpt_record row text !! kr =
    Some (entry PNone (validated (parse_fields Ollama.patterns text)) kr).
Proof.
  unfold gpt_record. cbv zeta.
  intros [[= <- <-]|[[= <- <-]|[[= <- <-]|[]]]]; split; now map_lookup.
Qed.

Lemma gemini_record_field row iteration text ks kr :
  In (ks, kr) criteria ->
  gemini_record row iteration text !! ks =
    Some (entry PNone (gemini_fields Gemini.patterns text) ks) /\
  gemini_record row iteration text !! kr =
    Some (entry PNone (gemini_fields Gemini.patterns text) kr).
Proof.
  unfold gemini_record. cbv zeta.
  intros [[= <- <-]|[[= <- <-]|[[= <- <-]|[]]]]; split; now map_lookup.
Qed.

Lemma ollama_record_valid row model_name iteration text :
  scores_valid (ollama_record row model_name iteration text).
Proof.
  intros ks kr Hin.
  destruct (ollama_record_field row model_name iteration text ks kr Hin) as [-> _].
  destruct (validated_scores_valid _ (parse_fields_parsed text) ks kr Hin)
    as (v & Hv & Vv).
  exists v. now rewrite (entry_some _ _ _ _ Hv).
Qed.

Lemma gpt_record_valid row text : scores_valid (gpt_record row text).
Proof.
  intros ks kr Hin.
  destruct (gpt_record_field row text ks kr Hin) as [-> _].
  destruct (validated_scores_valid _ (parse_fields_parsed text) ks kr Hin)
    as (v & Hv & Vv).
  exists v. now rewrite (entry_some _ _ _ _ Hv).
Qed.

Lemma validated_all_null : validated all_null = all_null.
Proof.
  unfold validated, fixed_score, all_null. map_lookup. cbn.
  apply map_eq. intros k.
  repeat (rewrite lookup_insert; case_decide; [reflexivity |]).
  now map_lookup.
Qed.

Lemma all_null_field ks kr :
  In (ks, kr) criteria -> all_null !! ks = Some PNone /\ all_null !! kr = Some PNone.
Proof.
  unfold all_null.
  intros [[= <- <-]|[[= <- <-]|[[= <- <-]|[]]]]; split; now map_lookup.
Qed.

Lemma ollama_record_null row model_name iteration text :
  label_free text -> six_null (ollama_record row model_name iteration text).
Proof.
  intros Hf ks kr Hin.
  destruct (ollama_record_field row model_name iteration text ks kr Hin) as [-> ->].
  destruct (parse_label_free text Hf) as [-> _]. rewrite validated_all_null.
  destruct (all_null_field ks kr Hin) as [H1 H2].
  now rewrite (entry_some _ _ _ _ H1), (entry_some _ _ _ _ H2).
Qed.

Lemma gemini_record_null row iteration text :
  label_free text -> six_null (gemini_record row iteration text).
Proof.
  intros Hf ks kr Hin.
  destruct (gemini_record_field row iteration text ks kr Hin) as [-> ->].
  destruct (parse_label_free text Hf) as [_ ->].
  destruct (all_null_field ks kr Hin) as [H1 H2].
  now rewrite (entry_some _ _ _ _ H1), (entry_some _ _ _ _ H2).
Qed.

(** The prefixes of the synthetic error strings hold no label and end in a
    space, so a label occurs in the error string only inside the message. *)
Lemma error_string_free msg :
  label_free msg ->
  label_free ("Error: " +:+ msg) /\ label_free ("Error in evaluation: " +:+ msg).
Proof.
  intros (HA & HS & HH). repeat split; cbn; assumption.
Qed.

(** ** Numeric coercion *)

Lemma str_filter_ext p q s : (forall a, p a = q a) -> str_filter p s = str_filter q s.
Proof. intros H. induction s as [|a s IH]; simpl; [reflexivity |]. now rewrite H, IH. Qed.

Lemma re_sub_delete_keep value :
  re_sub_delete not_digit_or_dot value =
  str_filter (fun a => is_digit a || Ascii.eqb a dot) value.
Proof.
  unfold re_sub_delete. apply str_filter_ext. intros a. simpl.
  rewrite negb_involutive, orb_false_r. unfold chr_eq, no_flags. cbn [IGNORECASE].
  now rewrite (Ascii.eqb_sym dot a).
Qed.

Lemma py_float_dots s :
  str_forall (fun a => Ascii.eqb a dot) s = true -> py_float s = None.
Proof.
  destruct s as [|a t]; [reflexivity |]. simpl. intros H.
  apply andb_true_iff in H as [Ha Ht]. unfold py_float. simpl. rewrite Ha.
  destruct t as [|b t]; [reflexivity |]. simpl in Ht.
  apply andb_true_iff in Ht as [Hb _]. apply Ascii.eqb_eq in Hb. now subst b.
Qed.

Lemma filter_no_digit value :
  str_forall (fun a => negb (is_digit a)) value = true ->
  str_forall (fun a => Ascii.eqb a dot)
    (str_filter (fun a => is_digit a || Ascii.eqb a dot) value) = true.
Proof.
  induction value as [|a s IH]; simpl; [reflexivity |].
  intros H. apply andb_true_iff in H as [Ha Hs]. apply negb_true_iff in Ha.
  rewrite Ha. simpl. destruct (Ascii.eqb a dot) eqn:E; simpl; [rewrite E |]; auto.
Qed.

(** C3 *)
(** C3 (amended): numeric coercion follows the rule the specification
    words ([coerce_spec]): delete every character that is neither a digit
    nor a decimal point, parse the rest as a float, null when it is empty
    or not a number. Under it "4", "4.0" and "**4**" coerce to 4.0, and a
    capture without any digit coerces to null. "4/5" coerces to 45.0: the
    slash is deleted and the digits around it join. *)
Theorem numeric_coercion :
  (forall value, coerce_score value = coerce_spec value) /\
  coerce_score "4" = PFloat (float_of_Z 4) /\
  coerce_score "4.0" = PFloat (float_of_Z 4) /\
  coerce_score "**4**" = PFloat (float_of_Z 4) /\
  coerce_score "4/5" = PFloat (float_of_Z 45) /\
  coerce_score "" = PNone /\
  (forall value, str_forall (fun a => negb (is_digit a)) value = true ->
                 coerce_score value = PNone).
Proof.
  assert (H : forall value, coerce_score value = coerce_spec value).
  { intros value. unfold coerce_score, coerce_spec. cbv zeta.
    now rewrite re_sub_delete_keep. }
  split; [exact H |]. repeat split; try reflexivity.
  intros value Hv. rewrite H. unfold coerce_spec.
  now rewrite (py_float_dots _ (filter_no_digit _ Hv)).
Qed.

Lemma numeric_coercion_witness : coerce_score "?!..." = PNone.
Proof.
  apply (proj2 (proj2 (proj2 (proj2 (proj2 (proj2 numeric_coercion)))))).
  reflexivity.
Defined.

(** The claim that "4/5" coerces to 4 fails: it coerces to 45. *)
Lemma coerce_four_fifths_counterexample :
  coerce_score "4/5" = PFloat (float_of_Z 45) /\
  coerce_score "4/5" <> PFloat (float_of_Z 4).
Proof. split; [reflexivity | discriminate]. Qed.

(** ** The claims on the orchestrators *)

Lemma iterations_range iteration : In iteration iterations -> 1 <= iteration <= 5.
Proof. unfold iterations. rewrite in_seq. lia. Qed.

Lemma ollama_record_tagged rows models row model_name iteration text :
  In row rows -> In model_name models -> In iteration iterations ->
  tagged rows models (ollama_record row model_name iteration text).
Proof.
  intros Hr Hm Hi. exists row, model_name, iteration.
  split; [assumption |]. split; [assumption |].
  split; [now apply iterations_range |].
  unfold ollama_record. cbv zeta. split; [now map_lookup |]. split; [now map_lookup |].
  intros column Hc. rewrite !lookup_insert_ne; [apply lookup_fmap | ..];
    intros <-; apply Hc; repeat constructor.
Qed.

Lemma gemini_record_tagged rows row iteration text :
  In row rows -> In iteration iterations ->
  tagged rows ["gemini-1.5-flash"] (gemini_record row iteration text).
Proof.
  intros Hr Hi. exists row, "gemini-1.5-flash", iteration.
  split; [assumption |]. split; [simpl; auto |].
  split; [now apply iterations_range |].
  unfold gemini_record. cbv zeta. split; [now map_lookup |]. split; [now map_lookup |].
  intros column Hc. rewrite !lookup_insert_ne; [apply lookup_fmap | ..];
    intros <-; apply Hc; repeat constructor.
Qed.

Lemma row0_columns : has_columns row0.
Proof. unfold has_columns, row0. repeat split; map_lookup; eauto. Qed.


(** C1 *)
(** C1 (amended): the validator turns every record of the parser's shape
    into one whose three scores are null or a float within [1,5], without
    raising; and every record the Ollama and the GPT-4o-mini pipeline
    append to the result collection has such scores, whatever the
    collaborator answers. The Gemini pipeline has no validator and persists
    the captured digits as they are. *)
Theorem persisted_scores_valid :
  (forall d, parsed_record d ->
     exists d', Ollama.validate_and_fix_scores d = Ok d' /\
                Gpt4oMini.validate_and_fix_scores d = Ok d' /\ scores_valid d') /\
  (forall self llm rows, Forall has_columns rows ->
     exists res, Ollama.evaluate_recipes self llm rows = Ok res /\
                 Forall scores_valid res) /\
  (forall llm rows,
     Forall (fun row => has_columns row /\ is_Some (row !! "model")) rows ->
     exists res, Gpt4oMini.evaluate_recipes llm rows = Ok res /\
                 Forall scores_valid res).
Proof.
  split; [| split].
  - intros d Hd. exists (validated d).
    change Gpt4oMini.validate_and_fix_scores with Ollama.validate_and_fix_scores.
    rewrite (validate_wf d Hd). auto using validated_scores_valid.
  - intros self llm rows Hrows.
    destruct (ollama_run self llm rows scores_valid Hrows) as (res & E & _ & F).
    + intros. apply ollama_record_valid.
    + eauto.
  - intros llm rows Hrows.
    destruct (gpt_run llm rows scores_valid Hrows) as (res & E & _ & F).
    + intros. apply gpt_record_valid.
    + eauto.
Qed.

Lemma persisted_scores_valid_witness :
  exists res, Ollama.evaluate_recipes Ollama.default llm_out_of_range [row0] = Ok res /\
              Forall scores_valid res.
Proof.
  apply (proj1 (proj2 persisted_scores_valid)).
  constructor; [apply row0_columns | constructor].
Defined.

(** The Gemini pipeline persists an out-of-range score as a string. *)
Lemma gemini_persists_unvalidated_counterexample :
  exists res record,
    Gemini.evaluate_recipes llm_out_of_range [row0] = Ok res /\
    In record res /\
    record !! "authenticity_score" = Some (PStr "9") /\
    ~ scores_valid record.
Proof.
  destruct (gemini_run llm_out_of_range [row0]
              (fun record => record !! "authenticity_score" = Some (PStr "9")))
    as (res & E & L & F).
  - constructor; [apply row0_columns | constructor].
  - intros row iteration now od v gr _ _.
    destruct (gemini_record_field row iteration
                (Gemini.evaluate_recipe llm_out_of_range now od v gr iteration)
                "authenticity_score" "authenticity_reason") as [-> _];
      [simpl; auto |].
    reflexivity.
  - destruct res as [|record res]; [discriminate |].
    exists (record :: res), record. inversion F as [|? ? H9 _]; subst.
    repeat split; [assumption | now left | assumption |].
    intros Hv. destruct (Hv "authenticity_score" "authenticity_reason") as (v & Hl & Vv);
      [simpl; auto |].
    rewrite H9 in Hl. injection Hl as <-.
    destruct Vv as [?|(f & ? & _)]; discriminate.
Qed.

(** ** A failing collaborator *)

Lemma ollama_record_recorded llm row model_name iteration now od v gr :
  recorded llm (fun msg => "Error: " +:+ msg)
    (ollama_record row model_name iteration
       (Ollama.evaluate_recipe llm now model_name od v gr iteration)).
Proof.
  exists now, model_name, (Ollama.prompt od v gr). unfold Ollama.evaluate_recipe.
  destruct (llm now model_name (Ollama.prompt od v gr)) as [text|b msg].
  - unfold ollama_record. cbv zeta. now map_lookup.
  - split; [unfold ollama_record; cbv zeta; now map_lookup |].
    intros Hf. apply ollama_record_null. now apply error_string_free.
Qed.

Lemma gemini_record_recorded llm row iteration now od v gr :
  recorded llm (fun msg => "Error in evaluation: " +:+ msg)
    (gemini_record row iteration
       (Gemini.evaluate_recipe llm now od v gr iteration)).
Proof.
  exists now, "gemini-1.5-flash", (Gemini.prompt od v gr). unfold Gemini.evaluate_recipe.
  destruct (llm now "gemini-1.5-flash" (Gemini.prompt od v gr)) as [text|b msg].
  - unfold gemini_record. cbv zeta. now map_lookup.
  - split; [unfold gemini_record; cbv zeta; now map_lookup |].
    intros Hf. apply gemini_record_null. now apply error_string_free.
Qed.

(** C7 *)
(** C7 (amended): a raised failure of the collaborator does not halt the
    batch. [evaluate_recipe] catches it and returns the synthetic string
    "Error: " + message (Ollama) or "Error in evaluation: " + message
    (Gemini); [evaluate_recipes] still returns all R * M * 5 records for
    every collaborator, each holding the text of its own call; and parsing
    the error string gives six nulls when the message holds none of the
    three labels, as for "Error: rate limited". *)
Theorem failure_isolated :
  (forall llm now model_name od v gr iteration b msg,
     llm now model_name (Ollama.prompt od v gr) = Raised b msg ->
     Ollama.evaluate_recipe llm now model_name od v gr iteration = "Error: " +:+ msg) /\
  (forall llm now od v gr iteration b msg,
     llm now "gemini-1.5-flash" (Gemini.prompt od v gr) = Raised b msg ->
     Gemini.evaluate_recipe llm now od v gr iteration = "Error in evaluation: " +:+ msg) /\
  (forall self llm rows, Forall has_columns rows ->
     (exists res, Ollama.evaluate_recipes self llm rows = Ok res /\
                  length res = length rows * length (Ollama.model_names self) * 5 /\
                  Forall (recorded llm (fun msg => "Error: " +:+ msg)) res) /\
     (exists res, Gemini.evaluate_recipes llm rows = Ok res /\
                  length res = length rows * 1 * 5 /\
                  Forall (recorded llm (fun msg => "Error in evaluation: " +:+ msg)) res)) /\
  (forall msg, label_free msg ->
     Ollama.parse_evaluation ("Error: " +:+ msg) = Ok all_null /\
     Gpt4oMini.parse_evaluation ("Error in evaluation: " +:+ msg) = Ok all_null /\
     Gemini.parse_evaluation ("Error in evaluation: " +:+ msg) = Ok all_null) /\
  Ollama.parse_evaluation "Error: rate limited" = Ok all_null /\
  Gemini.parse_evaluation "Error: rate limited" = Ok all_null.
Proof.
  split; [| split; [| split; [| split; [| split]]]].
  - intros * H. unfold Ollama.evaluate_recipe. now rewrite H.
  - intros * H. unfold Gemini.evaluate_recipe. now rewrite H.
  - intros self llm rows Hrows. split.
    + apply ollama_run; [assumption |]. intros. apply ollama_record_recorded.
    + apply gemini_run; [assumption |]. intros. apply gemini_record_recorded.
  - intros msg Hf. destruct (error_string_free msg Hf) as [H1 H2].
    change Gpt4oMini.parse_evaluation with Ollama.parse_evaluation.
    rewrite !parse_evaluation_eq, gemini_parse_evaluation_eq.
    destruct (parse_label_free _ H1) as [-> _].
    now destruct (parse_label_free _ H2) as [-> ->].
  - rewrite parse_evaluation_eq. reflexivity.
  - rewrite gemini_parse_evaluation_eq. reflexivity.
Qed.

Lemma failure_isolated_witness :
  Ollama.evaluate_recipe llm_down 0 "gemma2:2b" None None None 1 = "Error: rate limited" /\
  (exists res, Ollama.evaluate_recipes Ollama.default llm_down [row0] = Ok res /\
               length res = 25 /\
               Forall (recorded llm_down (fun msg => "Error: " +:+ msg)) res) /\
  Ollama.parse_evaluation ("Error: " +:+ "rate limited") = Ok all_null.
Proof.
  destruct failure_isolated as (H1 & _ & H3 & H4 & _).
  split; [| split].
  - now apply (H1 llm_down 0 "gemma2:2b" None None None 1 false "rate limited").
  - apply (H3 Ollama.default llm_down [row0]).
    constructor; [apply row0_columns | constructor].
  - apply (H4 "rate limited"). now repeat split.
Defined.

(** An error string is parsed like any other text: when the message of the
    exception holds a labelled rating, the record is not all null. *)
Lemma error_string_parsed_counterexample :
  Ollama.evaluate_recipe llm_echo 0 "gemma2:2b" None None None 1
    = "Error: AUTHENTICITY: 5" /\
  exists d, Ollama.parse_evaluation "Error: AUTHENTICITY: 5" = Ok d /\
            d !! "authenticity_score" = Some (PFloat (float_of_Z 5)) /\
            d <> all_null.
Proof.
  split; [reflexivity |].
  exists (parse_fields Ollama.patterns "Error: AUTHENTICITY: 5").
  split; [apply parse_evaluation_eq |].
  assert (H : parse_fields Ollama.patterns "Error: AUTHENTICITY: 5"
              !! "authenticity_score" = Some (PFloat (float_of_Z 5))).
  { rewrite (parse_fields_lookup _ (score_pattern "AUTHENTICITY")); [reflexivity |].
    simpl. auto. }
  split; [exact H |]. intros E. rewrite E in H. discriminate.
Qed.

(** ** The numeric token *)

Lemma chr_eq_dot fl c : chr_eq fl dot c = true -> c = dot.
Proof.
  destruct fl as [[] d]; unfold chr_eq; cbn [IGNORECASE]; ascii_cases c.
Qed.

Lemma chr_eq_refl fl c : chr_eq fl c c = true.
Proof. unfold chr_eq. destruct (IGNORECASE fl); apply Ascii.eqb_refl. Qed.

Lemma match_lit_self fl w s : match_lit fl w (w +:+ s) = Some s.
Proof. induction w as [|c w IH]; simpl; [reflexivity |]. now rewrite chr_eq_refl. Qed.

Lemma match_lit_extend fl w s r b :
  match_lit fl w s = Some r -> match_lit fl w (s +:+ b) = Some (r +:+ b).
Proof.
  revert s. induction w as [|c w IH]; intros s; simpl.
  - now intros [= ->].
  - destruct s as [|a s]; [discriminate |]. simpl.
    destruct (chr_eq fl c a); [apply IH | discriminate].
Qed.

Lemma split_dot_digits i :
  str_forall is_digit i = true -> split_dot i = (i, None).
Proof.
  induction i as [|a i IH]; simpl; [reflexivity |].
  intros H. apply andb_true_iff in H as [Ha Hi].
  now rewrite (digit_not_dot a Ha), (IH Hi).
Qed.

Lemma split_dot_app i f :
  str_forall is_digit i = true -> split_dot (i +:+ String dot f) = (i, Some f).
Proof.
  induction i as [|a i IH]; simpl; [reflexivity |].
  intros H. apply andb_true_iff in H as [Ha Hi].
  now rewrite (digit_not_dot a Ha), (IH Hi).
Qed.

(** The two shapes of a numeric token. *)
Lemma number_token_int a w :
  is_digit a = true -> str_forall is_digit w = true ->
  number_token (String a w) = true.
Proof.
  intros Ha Hw. unfold number_token.
  rewrite split_dot_digits by (simpl; now rewrite Ha).
  simpl. now rewrite Ha, Hw.
Qed.

Lemma number_token_dec a w a2 w2 :
  is_digit a = true -> str_forall is_digit w = true ->
  is_digit a2 = true -> str_forall is_digit w2 = true ->
  number_token (String a w +:+ String dot (String a2 w2)) = true.
Proof.
  intros Ha Hw Ha2 Hw2. unfold number_token.
  rewrite split_dot_app by (simpl; now rewrite Ha).
  simpl. now rewrite Ha, Hw, Ha2, Hw2.
Qed.

Lemma split_dot_spec s :
  match split_dot s with
  | (i, None) => s = i
  | (i, Some f) => s = i +:+ String dot f
  end.
Proof.
  induction s as [|a s IH]; simpl; [reflexivity |].
  destruct (Ascii.eqb a dot) eqn:E.
  - apply Ascii.eqb_eq in E. now subst a.
  - destruct (split_dot s) as [i [f|]]; simpl; now rewrite IH.
Qed.

Lemma str_forall_impl (p q : ascii -> bool) s :
  (forall a, p a = true -> q a = true) ->
  str_forall p s = true -> str_forall q s = true.
Proof.
  intros Hpq. induction s as [|a s IH]; simpl; [reflexivity |].
  intros H. apply andb_true_iff in H as [Ha Hs]. now rewrite (Hpq a Ha), IH.
Qed.

Lemma digits_digit_or_dot s :
  str_forall is_digit s = true ->
  str_forall (fun a => is_digit a || Ascii.eqb a dot) s = true.
Proof. apply str_forall_impl. now intros a ->. Qed.

Lemma number_token_chars tok :
  number_token tok = true ->
  tok <> "" /\ str_forall (fun a => is_digit a || Ascii.eqb a dot) tok = true.
Proof.
  unfold number_token. pose proof (split_dot_spec tok) as Hs.
  destruct (split_dot tok) as [i [f|]]; intros H.
  - apply andb_true_iff in H as [H Hf2]. apply andb_true_iff in H as [H Hf].
    apply andb_true_iff in H as [Hi Hi2]. subst tok. split.
    + destruct i; discriminate.
    + rewrite str_forall_app. apply andb_true_iff. split.
      * now apply digits_digit_or_dot.
      * change (str_forall (fun a => is_digit a || Ascii.eqb a dot) f = true).
        now apply digits_digit_or_dot.
  - apply andb_true_iff in H as [Hi Hi2]. subst tok. split.
    + destruct i; discriminate.
    + now apply digits_digit_or_dot.
Qed.

Lemma number_token_float tok :
  number_token tok = true -> exists f, py_float tok = Some f.
Proof.
  unfold number_token, py_float. destruct (split_dot tok) as [i [f|]]; intros H.
  - apply andb_true_iff in H as [H Hf2]. apply andb_true_iff in H as [H Hf].
    apply andb_true_iff in H as [Hi Hi2]. rewrite Hi, Hf, Hi2. simpl. eauto.
  - rewrite H. eauto.
Qed.

Lemma lstrip_id s : stops is_space s -> lstrip s = s.
Proof. destruct s as [|a s]; simpl; [reflexivity |]. now intros ->. Qed.

Lemma rstrip_no_space s :
  str_forall (fun a => negb (is_space a)) s = true -> rstrip s = s.
Proof.
  induction s as [|a s IH]; simpl; [reflexivity |].
  intros H. apply andb_true_iff in H as [Ha Hs]. apply negb_true_iff in Ha.
  rewrite (IH Hs), Ha. now destruct s.
Qed.

Lemma strip_no_space s :
  str_forall (fun a => negb (is_space a)) s = true -> strip s = s.
Proof.
  intros H. unfold strip. rewrite lstrip_id.
  - now apply rstrip_no_space.
  - destruct s as [|a s]; simpl in *; [exact I |].
    apply andb_true_iff in H as [Ha _]. now apply negb_true_iff in Ha.
Qed.

Lemma digit_or_dot_not_space a :
  is_digit a || Ascii.eqb a dot = true -> negb (is_space a) = true.
Proof. ascii_cases a. Qed.

(** A numeric token is left as it is by [strip] and by the deletion of
    stray characters, and [float] accepts it. *)
Lemma number_token_clean tok :
  number_token tok = true ->
  strip tok = tok /\ re_sub_delete not_digit_or_dot tok = tok /\
  exists f, py_float tok = Some f /\ coerce_score (strip tok) = PFloat f.
Proof.
  intros H. destruct (number_token_chars tok H) as [_ Hc].
  assert (Hs : strip tok = tok).
  { apply strip_no_space. revert Hc. apply str_forall_impl, digit_or_dot_not_space. }
  assert (Hd : re_sub_delete not_digit_or_dot tok = tok).
  { rewrite re_sub_delete_keep. now apply str_filter_id. }
  destruct (number_token_float tok H) as [f Hf].
  repeat split; auto. exists f. split; [assumption |].
  unfold coerce_score. cbv zeta. now rewrite Hs, Hd, Hf.
Qed.

(** What the group [\d+(?:\.\d+)?] can capture. *)
Lemma matches_number fl s cap s' cap' :
  matches fl number s cap s' cap' ->
  exists tok, s = tok +:+ s' /\ number_token tok = true.
Proof.
  unfold number. cbn [matches].
  intros (s1 & c1 & (a & w & -> & Ha & Hw & ->) & [M | [-> ->]]).
  - destruct M as (s2 & c2 & [Hd ->] & (a2 & w2 & -> & Ha2 & Hw2 & ->)).
    cbn [cmatch] in *.
    destruct s1 as [|c s1]; [discriminate |]. simpl in Hd.
    destruct (chr_eq fl "." c) eqn:E; [| discriminate].
    injection Hd as ->. apply (chr_eq_dot fl c) in E. subst c.
    exists (String a w +:+ String dot (String a2 w2)). split.
    + simpl. f_equal. now rewrite str_app_assoc.
    + now apply number_token_dec.
  - exists (String a w). split; [reflexivity |]. now apply number_token_int.
Qed.

Lemma consumed_cancel tok s' : consumed (tok +:+ s') s' = tok.
Proof. apply consumed_app. Qed.

(** What a score pattern can capture. *)
Lemma score_pattern_capture label t s' cap :
  matches flags_si (score_pattern label) t None s' cap ->
  exists tok, cap = Some tok /\ number_token tok = true.
Proof.
  unfold score_pattern. cbn [matches].
  intros (s1 & c1 & _ & s2 & c2 & _ & s3 & c3 & _ & s4 & c4 & _ & s5 & c5 & _ &
          c0 & M & ->).
  apply matches_number in M as (tok & -> & Ht).
  exists tok. now rewrite consumed_app.
Qed.

(** C9 *)
(** C9: in [parse_evaluation] of the Ollama and GPT-4o-mini scripts, when
    the pattern of a score key matches, the capture is a numeric token
    (digits with at most one decimal point between digits), [strip] and the
    deletion of stray characters leave it as it is, [float] accepts it, and
    the stored score is that float: the [ValueError] branch is never taken. *)
Theorem score_capture_is_float (text : string) (pattern : regex) (key : string)
    (m : re_match) :
  In (pattern, key) Ollama.patterns -> str_in "score" key = true ->
  re_search flags_si pattern text = Some m ->
  exists cap f,
    group1 m = Some cap /\ number_token cap = true /\
    strip cap = cap /\ re_sub_delete not_digit_or_dot cap = cap /\
    py_float cap = Some f /\
    exists d, Ollama.parse_evaluation text = Ok d /\
              Gpt4oMini.parse_evaluation text = Ok d /\
              d !! key = Some (PFloat f).
Proof.
  intros Hin Hk Hm.
  assert (Hp : exists label, pattern = score_pattern label).
  { rewrite ollama_patterns_eq in Hin.
    destruct Hin as [[= <- <-]|[[= <- <-]|[[= <- <-]|[[= <- <-]|[[= <- <-]|[[= <- <-]|[]]]]]]];
      try discriminate Hk; eauto. }
  destruct Hp as [label ->].
  pose proof Hm as Hs.
  apply re_search_sound in Hs as (a & t & s' & cap & _ & M & ->).
  apply score_pattern_capture in M as (tok & -> & Ht).
  destruct (number_token_clean tok Ht) as (H1 & H2 & f & H3 & H4).
  exists tok, f. repeat split; auto.
  exists (parse_fields Ollama.patterns text).
  change Gpt4oMini.parse_evaluation with Ollama.parse_evaluation.
  rewrite parse_evaluation_eq. repeat split.
  rewrite (parse_fields_lookup _ _ _ Hin). unfold parse_field.
  rewrite Hm, Hk. cbn -[coerce_score strip]. now rewrite H4.
Qed.

Lemma score_capture_is_float_witness :
  exists cap f,
    cap = "4.5" /\ py_float cap = Some f /\
    exists d, Ollama.parse_evaluation "SENSITIVITY: *4.5*" = Ok d /\
              d !! "sensitivity_score" = Some (PFloat f).
Proof.
  destruct (score_capture_is_float "SENSITIVITY: *4.5*"
              (score_pattern "SENSITIVITY") "sensitivity_score"
              (Match "SENSITIVITY: *4.5" (Some "4.5")))
    as (cap & f & Hc & _ & _ & _ & Hf & d & Hd & _ & Hl).
  - simpl. auto.
  - reflexivity.
  - reflexivity.
  - injection Hc as <-. exists "4.5", f. repeat split; eauto.
Defined.

(** ** Where a lazy capture stops *)

Lemma re_search_at fl r s m :
  re_search fl r s = Some m ->
  exists a t s' cap, s = a +:+ t /\ match_at fl r t = Some (s', cap) /\
                     m = Match (consumed t s') cap.
Proof.
  induction s as [|c s IH]; simpl.
  - destruct (match_at fl r "") as [[s' cap]|] eqn:E; [| discriminate].
    intros [= <-]. now exists "", "", s', cap.
  - destruct (match_at fl r (String c s)) as [[s' cap]|] eqn:E.
    + intros [= <-]. now exists "", (String c s), s', cap.
    + intros H. destruct (IH H) as (a & t & s' & cap & -> & M & ->).
      now exists (String c a), t, s', cap.
Qed.

Lemma each_suffix_at (P : string -> Prop) w s u v :
  each_suffix P w s -> w = u +:+ v -> v <> "" -> P (v +:+ s).
Proof.
  revert w. induction u as [|c u IH]; intros w H -> Hv.
  - destruct v as [|c v]; [congruence |]. simpl in H. apply H.
  - simpl in H. destruct H as [_ H]. eapply IH; eauto.
Qed.

Lemma occurs_split w0 w :
  occurs w0 w = true ->
  exists u v r, w = u +:+ v /\ match_lit flags_si w0 v = Some r.
Proof.
  induction w as [|c w IH]; simpl.
  - destruct (match_lit flags_si w0 "") as [r|] eqn:E; [| discriminate].
    intros _. now exists "", "", r.
  - destruct (match_lit flags_si w0 (String c w)) as [r|] eqn:E.
    + intros _. now exists "", (String c w), r.
    + intros H. destruct (IH H) as (u & v & r & -> & Hr).
      now exists (String c u), v, r.
Qed.

Lemma occurs_false_inside w a s b :
  occurs w (a +:+ s +:+ b) = false -> occurs w s = false.
Proof.
  intros H. destruct (occurs w s) eqn:E; [| reflexivity].
  apply occurs_split in E as (u & v & r & -> & Hr).
  rewrite <- H. symmetry.
  rewrite (str_app_assoc u v b), <- (str_app_assoc a u (v +:+ b)).
  apply occurs_suffix. rewrite (match_lit_extend _ _ _ _ b Hr). eauto.
Qed.

Lemma lstrip_split s : exists a, s = a +:+ lstrip s.
Proof.
  induction s as [|c s [a IH]]; simpl; [now exists "" |].
  destruct (is_space c); [| now exists ""].
  exists (String c a). simpl. now rewrite <- IH.
Qed.

Lemma rstrip_split s : exists b, s = rstrip s +:+ b.
Proof.
  induction s as [|c s [b IH]]; simpl; [now exists "" |].
  destruct (rstrip s) as [|d t] eqn:E.
  - destruct (is_space c).
    + exists (String c s). reflexivity.
    + exists b. simpl. f_equal. exact IH.
  - exists b. simpl. f_equal. exact IH.
Qed.

Lemma strip_split s : exists a b, s = a +:+ strip s +:+ b.
Proof.
  destruct (lstrip_split s) as [a Ha]. destruct (rstrip_split (lstrip s)) as [b Hb].
  exists a, b. unfold strip. now rewrite <- Hb.
Qed.

Lemma occurs_strip w s : occurs w s = false -> occurs w (strip s) = false.
Proof.
  destruct (strip_split s) as (a & b & E). intros H. rewrite E in H.
  now apply occurs_false_inside in H.
Qed.

Lemma plain_of_nogroup r : nogroup r = true -> plain_looks r = true.
Proof.
  induction r; simpl; intros H; try reflexivity; try discriminate; auto;
    apply andb_true_iff in H as [H1 H2]; apply andb_true_iff; auto.
Qed.

Ltac peel H :=
  match type of H with
  | rmatch ?fl (RSeq ?r1 ?r2) ?s ?c ?k = Some ?res =>
      change (rmatch fl r1 s c (fun s' c' => rmatch fl r2 s' c' k) = Some res) in H;
      apply rmatch_sound in H as (? & ? & _ & H); cbv beta in H
  end.

(** The last two parts of a reason pattern, [(.*?)(?=stop)]: the capture
    ends at the first position where [stop] matches. *)
Lemma lazy_capture_sound fl stop s cap res :
  nogroup stop = true ->
  rmatch fl (RSeq (RGroup (RStarLazy CAny)) (RLook stop)) s cap accept = Some res ->
  exists w s', s = w +:+ s' /\ res = (s', Some w) /\
    each_suffix (fun x => exists c, forall s2 c2, ~ matches fl stop x c s2 c2) w s'.
Proof.
  intros Hn H. cbn [rmatch] in H.
  apply star_lazy_sound in H as (w & s' & -> & _ & Hk & Hmin).
  exists w, s'. split; [reflexivity |]. split.
  - destruct (rmatch fl stop s' _ _) as [[s7 c7]|] eqn:E; [| discriminate].
    apply rmatch_sound in E as (s4 & c4 & M & [= -> ->]).
    apply (nogroup_cap _ _ _ _ _ _ Hn) in M. subst c7.
    rewrite consumed_app in Hk. unfold accept in Hk. congruence.
  - revert Hmin. apply each_suffix_impl. intros x Hx.
    exists (Some (consumed (w +:+ s') x)). intros s2 c2 M.
    pose proof (rmatch_complete fl stop x _ s2 c2
                  (fun s'0 cap' => Some (s'0, cap')) (plain_of_nogroup _ Hn) M
                  (ltac:(eauto))) as [[s3 c3] E].
    rewrite E in Hx. discriminate.
Qed.

Lemma reason_pattern_capture label stop t s' cap :
  nogroup stop = true ->
  match_at flags_si (reason_pattern label stop) t = Some (s', cap) ->
  exists w, cap = Some w /\
    each_suffix (fun x => exists c, forall s2 c2, ~ matches flags_si stop x c s2 c2)
      w s'.
Proof.
  intros Hn H. unfold match_at, reason_pattern in H.
  do 5 peel H.
  apply (lazy_capture_sound _ _ _ _ _ Hn) in H as (w & s6 & _ & [= -> ->] & Hmin).
  eauto.
Qed.

(** A capture that stops before [stop] holds no word with which [stop] can
    begin. *)
Lemma capture_free (stop : regex) (word w s' : string) :
  word <> "" ->
  (forall x r c, match_lit flags_si word x = Some r ->
                 exists s2 c2, matches flags_si stop x c s2 c2) ->
  each_suffix (fun x => exists c, forall s2 c2, ~ matches flags_si stop x c s2 c2)
    w s' ->
  occurs word w = false.
Proof.
  intros Hw Hstop Hmin. destruct (occurs word w) eqn:E; [| reflexivity].
  apply occurs_split in E as (u & v & r & -> & Hr).
  assert (Hv : v <> "").
  { intros ->. destruct word; [congruence | discriminate]. }
  destruct (each_suffix_at _ _ _ _ _ Hmin eq_refl Hv) as [c Hc].
  destruct (Hstop (v +:+ s') (r +:+ s') c (match_lit_extend _ _ _ _ _ Hr))
    as (s2 & c2 & M).
  now destruct (Hc s2 c2).
Qed.

Lemma stop_authenticity_words x r c :
  match_lit flags_si "SENSITIVITY" x = Some r \/
  match_lit flags_si "HARMONY" x = Some r ->
  exists s2 c2, matches flags_si stop_authenticity x c s2 c2.
Proof.
  intros H. exists r, c. unfold stop_authenticity. cbn [matches].
  exists x, c. split; [now exists "" |].
  destruct H as [H|H]; [left | right; left]; auto.
Qed.

(** C10 *)
(** C10: for every text, an authenticity reason returned by
    [parse_evaluation] of the Ollama and GPT-4o-mini scripts holds no
    occurrence, in any case, of "SENSITIVITY" or of "HARMONY": the lazy
    capture ends at the first position where the lookahead matches, so a
    reason that mentions one of the two words is cut there. *)
Theorem reason_stops_at_label (text : string) (d : gmap string pyval) (r : string) :
  Ollama.parse_evaluation text = Ok d \/ Gpt4oMini.parse_evaluation text = Ok d ->
  d !! "authenticity_reason" = Some (PStr r) ->
  occurs "SENSITIVITY" r = false /\ occurs "HARMONY" r = false.
Proof.
  change Gpt4oMini.parse_evaluation with Ollama.parse_evaluation.
  intros Hd Hr. assert (Hp : Ollama.parse_evaluation text = Ok d) by tauto.
  clear Hd. rewrite parse_evaluation_eq in Hp. injection Hp as <-.
  rewrite (parse_fields_lookup _ (reason_pattern "AUTHENTICITY:" stop_authenticity))
    in Hr by (simpl; auto).
  unfold parse_field in Hr.
  destruct (re_search flags_si _ text) as [m|] eqn:E; [| discriminate].
  cbn -[strip] in Hr. injection Hr as <-.
  apply re_search_at in E as (a & t & s' & cap & _ & M & ->).
  apply reason_pattern_capture in M as (w & -> & Hmin); [| reflexivity].
  cbn [group1 default from_option id].
  split; apply occurs_strip; apply (capture_free stop_authenticity _ _ s');
    try discriminate; try assumption;
    intros x r c Hx; apply (stop_authenticity_words x r c); auto.
Qed.

Lemma reason_stops_at_label_witness :
  exists d,
    Ollama.parse_evaluation "AUTHENTICITY: 4
Reason: Keeps the dish, with some sensitivity to the diet.
SENSITIVITY: 3
Reason: Fair." = Ok d /\
    d !! "authenticity_reason" = Some (PStr "Keeps the dish, with some") /\
    occurs "SENSITIVITY" "Keeps the dish, with some" = false /\
    occurs "HARMONY" "Keeps the dish, with some" = false.
Proof.
  set (text := "AUTHENTICITY: 4
Reason: Keeps the dish, with some sensitivity to the diet.
SENSITIVITY: 3
Reason: Fair.").
  exists (parse_fields Ollama.patterns text).
  split; [apply parse_evaluation_eq |]. split; [reflexivity |].
  apply (reason_stops_at_label text (parse_fields Ollama.patterns text));
    [left; apply parse_evaluation_eq | reflexivity].
Defined.

(** ** Texts with one labelled criterion *)

Lemma any_all s : str_forall (cmatch flags_si CAny) s = true.
Proof. induction s as [|a s IH]; simpl; auto. Qed.

Lemma matches_suffix fl r : forall s cap s' cap',
  matches fl r s cap s' cap' -> exists w, s = w +:+ s'.
Proof.
  induction r as [w|c|c|c|c|r1 IH1 r2 IH2|r1 IH1 r2 IH2|r1 IH1|r1 IH1|r1 IH1|];
    intros s cap s' cap'; simpl.
  - intros [H _]. revert s H. induction w as [|c w IH]; intros s; simpl.
    + intros [= ->]. now exists "".
    + destruct s as [|a s]; [discriminate |].
      destruct (chr_eq fl c a); [| discriminate].
      intros H. destruct (IH _ H) as [x ->]. now exists (String a x).
  - intros (a & -> & _). now exists (String a "").
  - intros (w & -> & _). eauto.
  - intros (w & -> & _). eauto.
  - intros (a & w & -> & _). now exists (String a w).
  - intros (s1 & c1 & M1 & M2).
    destruct (IH1 _ _ _ _ M1) as [w1 ->]. destruct (IH2 _ _ _ _ M2) as [w2 ->].
    exists (w1 +:+ w2). now rewrite str_app_assoc.
  - intros [M|M]; eauto.
  - intros [M|[-> _]]; [eauto | now exists ""].
  - intros (c0 & M & _). eauto.
  - intros [-> _]. now exists "".
  - intros (-> & _). now exists "".
Qed.

(** A stored score is a float as soon as its pattern matches. *)
Lemma score_field_float label key text :
  str_in "score" key = true ->
  is_Some (re_search flags_si (score_pattern label) text) ->
  exists f, parse_field (score_pattern label) key text = PFloat f.
Proof.
  intros Hk [m Hm]. pose proof Hm as Hs.
  apply re_search_sound in Hs as (a & t & s' & cap & _ & M & ->).
  apply score_pattern_capture in M as (tok & -> & Ht).
  destruct (number_token_clean tok Ht) as (_ & _ & f & _ & H4).
  exists f. unfold parse_field. rewrite Hm, Hk. cbn -[coerce_score strip]. exact H4.
Qed.

Lemma reason_field_str p key text :
  str_in "score" key = false ->
  is_Some (re_search flags_si p text) ->
  exists r, parse_field p key text = PStr r.
Proof.
  intros Hk [m Hm]. unfold parse_field. rewrite Hm, Hk. eauto.
Qed.

Lemma gemini_field_str p text :
  is_Some (re_search flags_si p text) -> exists r, gemini_field p text = PStr r.
Proof. intros [m Hm]. unfold gemini_field. rewrite Hm. eauto. Qed.

Lemma one_criterion_score label pre sp a mid post :
  str_forall is_space sp = true -> is_digit a = true ->
  is_Some (re_search flags_si (score_pattern label)
             (one_criterion label pre sp a mid post)) /\
  is_Some (re_search flags_si (gemini_score_pattern label)
             (one_criterion label pre sp a mid post)).
Proof.
  intros Hsp Ha. unfold one_criterion. split.
  - apply (re_search_complete _ _ pre _ (mid +:+ "Reason:" +:+ post)
             (Some (String a ""))); [reflexivity |].
    unfold score_pattern, number. cbn [matches].
    exists (":" +:+ sp +:+ String a mid +:+ "Reason:" +:+ post), None.
    split; [split; [apply match_lit_self | reflexivity] |].
    exists (sp +:+ String a mid +:+ "Reason:" +:+ post), None.
    split; [left; split; reflexivity |].
    exists (String a mid +:+ "Reason:" +:+ post), None.
    split; [exists sp; auto |].
    exists (String a mid +:+ "Reason:" +:+ post), None.
    split; [right; auto |].
    exists (String a mid +:+ "Reason:" +:+ post), None.
    split; [now exists "" |].
    exists None. split.
    + exists (mid +:+ "Reason:" +:+ post), None. split; [| right; auto].
      exists a, "". auto.
    + f_equal. symmetry. apply (consumed_app (String a "")).
  - apply (re_search_complete _ _ pre _ (mid +:+ "Reason:" +:+ post)
             (Some (String a ""))); [reflexivity |].
    unfold gemini_score_pattern. cbn [matches].
    exists (":" +:+ sp +:+ String a mid +:+ "Reason:" +:+ post), None.
    split; [split; [apply match_lit_self | reflexivity] |].
    exists (sp +:+ String a mid +:+ "Reason:" +:+ post), None.
    split; [left; split; reflexivity |].
    exists (String a mid +:+ "Reason:" +:+ post), None.
    split; [exists sp; auto |].
    exists None. split.
    + exists a, "". auto.
    + f_equal. symmetry. apply (consumed_app (String a "")).
Qed.

Lemma stop_at_end stop :
  stop = stop_authenticity \/ stop = stop_sensitivity \/ stop = REnd ->
  forall c, matches flags_si stop "" c "" c.
Proof.
  intros [->|[->| ->]] c; cbn [matches].
  - exists "", c. split; [now exists "" | right; right; now repeat split].
  - exists "", c. split; [now exists "" | right; now repeat split].
  - now repeat split.
Qed.

Lemma one_criterion_reason label stop pre sp a mid post :
  stop = stop_authenticity \/ stop = stop_sensitivity \/ stop = REnd ->
  is_Some (re_search flags_si (reason_pattern (label +:+ ":") stop)
             (one_criterion label pre sp a mid post)).
Proof.
  intros Hstop. unfold one_criterion.
  assert (Hl : plain_looks (reason_pattern (label +:+ ":") stop) = true)
    by (destruct Hstop as [->|[->| ->]]; reflexivity).
  rewrite <- (str_app_assoc label ":").
  apply (re_search_complete _ _ pre _ "" (Some post) Hl).
  unfold reason_pattern. cbn [matches].
  exists (sp +:+ String a mid +:+ "Reason:" +:+ post), None.
  split; [split; [apply match_lit_self | reflexivity] |].
  exists ("Reason:" +:+ post), None.
  split; [exists (sp +:+ String a mid); split;
            [now rewrite !str_app_assoc | split; [apply any_all | reflexivity]] |].
  exists (":" +:+ post), None. split; [left; split; reflexivity |].
  exists post, None. split; [split; reflexivity |].
  exists post, None. split; [now exists "" |].
  exists "", (Some post). split.
  - exists None. split.
    + exists post. split; [now rewrite str_app_nil_r | split; [apply any_all | reflexivity]].
    + f_equal. symmetry. rewrite <- (str_app_nil_r post) at 1. apply consumed_app.
  - split; [reflexivity |]. exists "". now apply stop_at_end.
Qed.

Lemma one_criterion_last pre sp a mid post :
  is_Some (re_search flags_si (gemini_last_pattern "HARMONY")
             (one_criterion "HARMONY" pre sp a mid post)).
Proof.
  unfold one_criterion.
  apply (re_search_complete _ _ pre _ "" (Some post)); [reflexivity |].
  unfold gemini_last_pattern. cbn [matches].
  exists (":" +:+ sp +:+ String a mid +:+ "Reason:" +:+ post), None.
  split; [split; reflexivity |].
  exists ("Reason:" +:+ post), None.
  split; [exists (":" +:+ sp +:+ String a mid); split;
            [now rewrite !str_app_assoc | split; [apply any_all | reflexivity]] |].
  exists (":" +:+ post), None. split; [split; reflexivity |].
  exists post, None. split; [split; reflexivity |].
  exists post, None. split; [now exists "" |].
  exists None. split.
  - exists post. split; [now rewrite str_app_nil_r | split; [apply any_all | reflexivity]].
  - f_equal. symmetry. rewrite <- (str_app_nil_r post) at 1. apply consumed_app.
Qed.

(** A Gemini reason before the last needs the next label in the text. *)
Lemma gemini_reason_needs_next label next text :
  occurs next text = false ->
  re_search flags_si (gemini_reason_pattern label next) text = None.
Proof.
  intros H. apply re_search_none. intros a t s' cap -> M.
  unfold gemini_reason_pattern in M. cbn [matches] in M.
  destruct M as (s1 & c1 & [M1 _] & s2 & c2 & (w2 & E2 & _) & s3 & c3 & [M3 _] &
                 s4 & c4 & [M4 _] & s5 & c5 & (w5 & E5 & _) &
                 s6 & c6 & (c0 & (w6 & E6 & _) & _) & _ & s7 &
                 s8 & c8 & (w8 & E8 & _) & M9 & _).
  destruct (matches_suffix flags_si (RLit label) t None s1 None) as [x1 ->];
    [split; auto |].
  destruct (matches_suffix flags_si (RLit "Reason") s2 None s3 None) as [x3 E3];
    [split; auto |].
  destruct (matches_suffix flags_si (RLit ":") s3 None s4 None) as [x4 E4];
    [split; auto |].
  subst s1 s2 s3 s4 s5 s6.
  assert (E : a +:+ x1 +:+ w2 +:+ x3 +:+ x4 +:+ w5 +:+ w6 +:+ w8 +:+ s8 =
              (a +:+ x1 +:+ w2 +:+ x3 +:+ x4 +:+ w5 +:+ w6 +:+ w8) +:+ s8)
    by now rewrite !str_app_assoc.
  rewrite E in H. apply occurs_none in H. congruence.
Qed.

(** C6 *)
(** C6 (amended): graceful degradation. (1) On a text where none of the
    three labels occurs, both parsers return six nulls. (2) On any text, the
    two fields of a criterion whose label does not occur are null in both
    parsers, so with one labelled criterion the other four fields are null.
    (3) On a text with a labelled criterion (label, colon, white space, a
    rating that starts with a digit, later "Reason:"), the Ollama and
    GPT-4o-mini parser returns a float score and a string reason for it; the
    Gemini parser returns the score, and the reason for HARMONY. (4) The
    Gemini reason of AUTHENTICITY (of SENSITIVITY) is null on every text
    where SENSITIVITY (HARMONY) does not occur: its pattern requires the
    next label. *)
Theorem graceful_degradation :
  (forall text, label_free text ->
     Ollama.parse_evaluation text = Ok all_null /\
     Gpt4oMini.parse_evaluation text = Ok all_null /\
     Gemini.parse_evaluation text = Ok all_null) /\
  (forall text label ks kr, In (label, ks, kr) labelled ->
     occurs label text = false ->
     exists d g, Ollama.parse_evaluation text = Ok d /\
                 Gpt4oMini.parse_evaluation text = Ok d /\
                 Gemini.parse_evaluation text = Ok g /\
                 d !! ks = Some PNone /\ d !! kr = Some PNone /\
                 g !! ks = Some PNone /\ g !! kr = Some PNone) /\
  (forall label ks kr pre sp a mid post, In (label, ks, kr) labelled ->
     str_forall is_space sp = true -> is_digit a = true ->
     exists d g f r c,
       Ollama.parse_evaluation (one_criterion label pre sp a mid post) = Ok d /\
       Gpt4oMini.parse_evaluation (one_criterion label pre sp a mid post) = Ok d /\
       Gemini.parse_evaluation (one_criterion label pre sp a mid post) = Ok g /\
       d !! ks = Some (PFloat f) /\ d !! kr = Some (PStr r) /\
       g !! ks = Some (PStr c) /\
       (label = "HARMONY" -> exists r', g !! kr = Some (PStr r'))) /\
  (forall text,
     exists g, Gemini.parse_evaluation text = Ok g /\
       (occurs "SENSITIVITY" text = false -> g !! "authenticity_reason" = Some PNone) /\
       (occurs "HARMONY" text = false -> g !! "sensitivity_reason" = Some PNone)).
Proof.
  change Gpt4oMini.parse_evaluation with Ollama.parse_evaluation.
  split; [| split; [| split]].
  - intros text Hf. rewrite parse_evaluation_eq, gemini_parse_evaluation_eq.
    now destruct (parse_label_free text Hf) as [-> ->].
  - intros text label ks kr Hin Ho.
    exists (parse_fields Ollama.patterns text), (gemini_fields Gemini.patterns text).
    rewrite parse_evaluation_eq, gemini_parse_evaluation_eq.
    do 3 (split; [reflexivity |]).
    destruct Hin as [[= <- <- <-]|[[= <- <- <-]|[[= <- <- <-]|[]]]].
    + rewrite (parse_fields_lookup _ (score_pattern "AUTHENTICITY")),
        (parse_fields_lookup _ (reason_pattern "AUTHENTICITY:" stop_authenticity)),
        (gemini_fields_lookup _ (gemini_score_pattern "AUTHENTICITY")),
        (gemini_fields_lookup _ (gemini_reason_pattern "AUTHENTICITY" "SENSITIVITY"))
        by (simpl; auto 7).
      rewrite !parse_field_none, !gemini_field_none;
        auto using score_pattern_label, gemini_score_pattern_label,
          gemini_reason_pattern_label.
      now apply (reason_pattern_label "AUTHENTICITY" ":").
    + rewrite (parse_fields_lookup _ (score_pattern "SENSITIVITY")),
        (parse_fields_lookup _ (reason_pattern "SENSITIVITY:" stop_sensitivity)),
        (gemini_fields_lookup _ (gemini_score_pattern "SENSITIVITY")),
        (gemini_fields_lookup _ (gemini_reason_pattern "SENSITIVITY" "HARMONY"))
        by (simpl; auto 7).
      rewrite !parse_field_none, !gemini_field_none;
        auto using score_pattern_label, gemini_score_pattern_label,
          gemini_reason_pattern_label.
      now apply (reason_pattern_label "SENSITIVITY" ":").
    + rewrite (parse_fields_lookup _ (score_pattern "HARMONY")),
        (parse_fields_lookup _ (reason_pattern "HARMONY:" REnd)),
        (gemini_fields_lookup _ (gemini_score_pattern "HARMONY")),
        (gemini_fields_lookup _ (gemini_last_pattern "HARMONY"))
        by (simpl; auto 7).
      rewrite !parse_field_none, !gemini_field_none;
        auto using score_pattern_label, gemini_score_pattern_label,
          gemini_last_pattern_label.
      now apply (reason_pattern_label "HARMONY" ":").
  - intros label ks kr pre sp a mid post Hin Hsp Ha.
    set (text := one_criterion label pre sp a mid post).
    destruct (one_criterion_score label pre sp a mid post Hsp Ha) as [S1 S2].
    fold text in S1, S2.
    rewrite parse_evaluation_eq, gemini_parse_evaluation_eq.
    destruct Hin as [[= <- <- <-]|[[= <- <- <-]|[[= <- <- <-]|[]]]].
    + destruct (score_field_float _ "authenticity_score" _ eq_refl S1) as [f Hf].
      destruct (reason_field_str (reason_pattern "AUTHENTICITY:" stop_authenticity)
                  "authenticity_reason" text eq_refl
                  (one_criterion_reason "AUTHENTICITY" stop_authenticity
                     pre sp a mid post (or_introl eq_refl))) as [r Hr].
      destruct (gemini_field_str _ _ S2) as [c Hc].
      exists (parse_fields Ollama.patterns text), (gemini_fields Gemini.patterns text),
        f, r, c.
      do 3 (split; [reflexivity |]).
      rewrite (parse_fields_lookup _ (score_pattern "AUTHENTICITY")),
        (parse_fields_lookup _ (reason_pattern "AUTHENTICITY:" stop_authenticity)),
        (gemini_fields_lookup _ (gemini_score_pattern "AUTHENTICITY"))
        by (simpl; auto 7).
      rewrite Hf, Hr, Hc. repeat split. discriminate.
    + destruct (score_field_float _ "sensitivity_score" _ eq_refl S1) as [f Hf].
      destruct (reason_field_str (reason_pattern "SENSITIVITY:" stop_sensitivity)
                  "sensitivity_reason" text eq_refl
                  (one_criterion_reason "SENSITIVITY" stop_sensitivity
                     pre sp a mid post (or_intror (or_introl eq_refl)))) as [r Hr].
      destruct (gemini_field_str _ _ S2) as [c Hc].
      exists (parse_fields Ollama.patterns text), (gemini_fields Gemini.patterns text),
        f, r, c.
      do 3 (split; [reflexivity |]).
      rewrite (parse_fields_lookup _ (score_pattern "SENSITIVITY")),
        (parse_fields_lookup _ (reason_pattern "SENSITIVITY:" stop_sensitivity)),
        (gemini_fields_lookup _ (gemini_score_pattern "SENSITIVITY"))
        by (simpl; auto 7).
      rewrite Hf, Hr, Hc. repeat split. discriminate.
    + destruct (score_field_float _ "harmony_score" _ eq_refl S1) as [f Hf].
      destruct (reason_field_str (reason_pattern "HARMONY:" REnd)
                  "harmony_reason" text eq_refl
                  (one_criterion_reason "HARMONY" REnd
                     pre sp a mid post (or_intror (or_intror eq_refl)))) as [r Hr].
      destruct (gemini_field_str _ _ S2) as [c Hc].
      destruct (gemini_field_str _ _ (one_criterion_last pre sp a mid post)) as [r' Hr'].
      exists (parse_fields Ollama.patterns text), (gemini_fields Gemini.patterns text),
        f, r, c.
      do 3 (split; [reflexivity |]).
      rewrite (parse_fields_lookup _ (score_pattern "HARMONY")),
        (parse_fields_lookup _ (reason_pattern "HARMONY:" REnd)),
        (gemini_fields_lookup _ (gemini_score_pattern "HARMONY")),
        (gemini_fields_lookup _ (gemini_last_pattern "HARMONY"))
        by (simpl; auto 7).
      fold text in Hr'. rewrite Hf, Hr, Hc, Hr'. repeat split. eauto.
  - intros text. exists (gemini_fields Gemini.patterns text).
    rewrite gemini_parse_evaluation_eq. split; [reflexivity |].
    rewrite (gemini_fields_lookup _ (gemini_reason_pattern "AUTHENTICITY" "SENSITIVITY")),
      (gemini_fields_lookup _ (gemini_reason_pattern "SENSITIVITY" "HARMONY"))
      by (simpl; auto 7).
    split; intros H; f_equal; apply gemini_field_none;
      now apply gemini_reason_needs_next.
Qed.

Lemma graceful_degradation_witness :
  exists d f r,
    Ollama.parse_evaluation "AUTHENTICITY: 5
Reason: Spot on." = Ok d /\
    d !! "authenticity_score" = Some (PFloat f) /\
    d !! "authenticity_reason" = Some (PStr r) /\
    d !! "sensitivity_score" = Some PNone /\ d !! "harmony_reason" = Some PNone.
Proof.
  destruct (proj1 (proj2 (proj2 graceful_degradation))
              "AUTHENTICITY" "authenticity_score" "authenticity_reason"
              "" " " "5"%char nl " Spot on.")
    as (d & g & f & r & c & Hd & _ & _ & H1 & H2 & _); [simpl; auto | reflexivity ..|].
  exists d, f, r. split; [exact Hd |]. split; [exact H1 |]. split; [exact H2 |].
  change (one_criterion "AUTHENTICITY" "" " " "5" nl " Spot on.")
    with "AUTHENTICITY: 5
Reason: Spot on." in Hd.
  rewrite parse_evaluation_eq in Hd. injection Hd as <-. split; reflexivity.
Defined.

(** With AUTHENTICITY as the one labelled criterion, the Gemini parser
    returns its score and a null reason. *)
Lemma gemini_one_criterion_counterexample :
  one_criterion "AUTHENTICITY" "" " " "5" nl " Spot on." = "AUTHENTICITY: 5
Reason: Spot on." /\
  exists g, Gemini.parse_evaluation "AUTHENTICITY: 5
Reason: Spot on." = Ok g /\
            g !! "authenticity_score" = Some (PStr "5") /\
            g !! "authenticity_reason" = Some PNone.
Proof.
  split; [reflexivity |].
  exists (gemini_fields Gemini.patterns "AUTHENTICITY: 5
Reason: Spot on.").
  split; [apply gemini_parse_evaluation_eq |]. split; reflexivity.
Qed.

(** ** Which match the backtracking order picks *)

Ltac fwd :=
  cbv beta;
  match goal with
  | |- rmatch ?fl (RSeq ?r1 ?r2) ?s ?c ?k = Some ?res =>
      change (rmatch fl r1 s c (fun s' c' => rmatch fl r2 s' c' k) = Some res)
  end.

Lemma rmatch_lit_self fl w s cap k : rmatch fl (RLit w) (w +:+ s) cap k = k s cap.
Proof. cbn [rmatch]. now rewrite match_lit_self. Qed.

Lemma rmatch_lit_fail fl w s cap k :
  match_lit fl w s = None -> rmatch fl (RLit w) s cap k = None.
Proof. cbn [rmatch]. now intros ->. Qed.

Lemma rmatch_opt_take fl w s cap k res :
  k s cap = Some res -> rmatch fl (ROpt (RLit w)) (w +:+ s) cap k = Some res.
Proof. intros H. cbn [rmatch]. now rewrite match_lit_self, H. Qed.

Lemma rmatch_opt_skip fl r s cap k :
  rmatch fl r s cap k = None -> rmatch fl (ROpt r) s cap k = k s cap.
Proof. intros H. cbn [rmatch]. now rewrite H. Qed.

Lemma rmatch_star_max fl c w s cap k res :
  str_forall (cmatch fl c) w = true -> stops (cmatch fl c) s ->
  k s cap = Some res -> rmatch fl (RStar c) (w +:+ s) cap k = Some res.
Proof. intros Hw Hs Hk. cbn [rmatch]. now apply star_greedy_max. Qed.

Lemma rmatch_star_none fl c s cap k res :
  stops (cmatch fl c) s -> k s cap = Some res ->
  rmatch fl (RStar c) s cap k = Some res.
Proof. intros Hs Hk. now apply (rmatch_star_max fl c "" s). Qed.

Lemma rmatch_plus_max fl c a w s cap k res :
  cmatch fl c a = true -> str_forall (cmatch fl c) w = true ->
  stops (cmatch fl c) s -> k s cap = Some res ->
  rmatch fl (RPlus c) (String a (w +:+ s)) cap k = Some res.
Proof. intros Ha Hw Hs Hk. cbn [rmatch]. rewrite Ha. now apply star_greedy_max. Qed.

Lemma rmatch_lazy_skip fl a b cap k :
  DOTALL fl = true -> each_suffix (fun t => k t cap = None) a b ->
  rmatch fl (RStarLazy CAny) (a +:+ b) cap k = rmatch fl (RStarLazy CAny) b cap k.
Proof.
  intros Hd H. cbn [rmatch]. apply star_lazy_skip; [| assumption].
  clear H. induction a as [|c a IH]; [reflexivity |].
  cbn [str_forall]. rewrite IH. cbn [cmatch]. now rewrite Hd.
Qed.

Lemma rmatch_lazy_here fl c s cap k res :
  k s cap = Some res -> rmatch fl (RStarLazy c) s cap k = Some res.
Proof. intros H. cbn [rmatch]. now apply star_lazy_here. Qed.

Lemma digit_not_mark a :
  is_digit a = true ->
  chr_eq flags_si "*" a = false /\ chr_eq flags_si "#" a = false /\
  is_space a = false /\ chr_eq flags_si "." a = false.
Proof. ascii_cases a. Qed.

Lemma stops_no_dot fl s :
  stops (fun a => is_digit a || Ascii.eqb a dot) s -> match_lit fl "." s = None.
Proof.
  destruct s as [|c s]; simpl; [reflexivity |]. intros H.
  destruct (chr_eq fl "." c) eqn:E; [| reflexivity].
  apply (chr_eq_dot fl c) in E. subst c. discriminate.
Qed.

Lemma stops_weaken (p q : ascii -> bool) s :
  (forall a, q a = true -> p a = true) -> stops p s -> stops q s.
Proof.
  intros H. destruct s as [|a s]; simpl; [auto |].
  intros Hp. destruct (q a) eqn:E; [| reflexivity]. apply H in E. congruence.
Qed.

Lemma number_token_shape tok :
  number_token tok = true ->
  (exists a w, tok = String a w /\ is_digit a = true /\ str_forall is_digit w = true) \/
  (exists a w a2 w2, tok = String a w +:+ String dot (String a2 w2) /\
     is_digit a = true /\ str_forall is_digit w = true /\
     is_digit a2 = true /\ str_forall is_digit w2 = true).
Proof.
  unfold number_token. pose proof (split_dot_spec tok) as Hs.
  destruct (split_dot tok) as [i [f|]]; intros H.
  - apply andb_true_iff in H as [H Hf2]. apply andb_true_iff in H as [H Hf].
    apply andb_true_iff in H as [Hi Hi2]. subst tok. right.
    destruct i as [|a w]; [discriminate |]. destruct f as [|a2 w2]; [discriminate |].
    simpl in Hi, Hf. apply andb_true_iff in Hi as [? ?].
    apply andb_true_iff in Hf as [? ?]. exists a, w, a2, w2. auto.
  - apply andb_true_iff in H as [Hi Hi2]. subst tok. left.
    destruct i as [|a w]; [discriminate |].
    simpl in Hi. apply andb_true_iff in Hi as [? ?]. exists a, w. auto.
Qed.

(** [\d+(?:\.\d+)?] takes the whole token when no digit or dot follows. *)
Lemma rmatch_number fl tok rest cap k res :
  number_token tok = true ->
  stops (fun a => is_digit a || Ascii.eqb a dot) rest ->
  k rest cap = Some res ->
  rmatch fl number (tok +:+ rest) cap k = Some res.
Proof.
  intros Ht Hr Hk.
  assert (Hd : stops (cmatch fl CDigit) rest).
  { revert Hr. apply stops_weaken. intros a Ha. simpl in Ha. now rewrite Ha. }
  unfold number.
  destruct (number_token_shape tok Ht)
    as [(a & w & -> & Ha & Hw)|(a & w & a2 & w2 & -> & Ha & Hw & Ha2 & Hw2)].
  - fwd. apply (rmatch_plus_max fl CDigit a w rest); auto. cbv beta.
    rewrite rmatch_opt_skip; [assumption |].
    cbn [rmatch]. now rewrite stops_no_dot.
  - rewrite str_app_assoc. fwd.
    apply (rmatch_plus_max fl CDigit a w (String dot (String a2 w2) +:+ rest)); auto.
    { reflexivity. }
    cbv beta. cbn [rmatch].
    change (String dot (String a2 w2) +:+ rest)
      with ("." +:+ String a2 (w2 +:+ rest)).
    rewrite match_lit_self. cbn [cmatch]. rewrite Ha2.
    now rewrite (star_greedy_max is_digit w2 rest _ res Hw2 Hd Hk).
Qed.

Lemma number_token_starts tok :
  number_token tok = true -> starts_with is_digit tok = true.
Proof.
  intros H. destruct (number_token_shape tok H)
    as [(a & w & -> & Ha & _)|(a & w & a2 & w2 & -> & Ha & _)]; exact Ha.
Qed.

Lemma starts_app p a b : starts_with p a = true -> starts_with p (a +:+ b) = starts_with p a.
Proof. destruct a; [discriminate | reflexivity]. Qed.

Lemma starts_stops (p q : ascii -> bool) s :
  starts_with p s = true -> (forall a, p a = true -> q a = false) -> stops q s.
Proof. destruct s as [|a s]; simpl; [discriminate | auto]. Qed.

(** The score pattern at its label: the capture is the rating. *)
Lemma score_probe_here label sp tok rest :
  blank sp -> number_token tok = true ->
  stops (fun a => is_digit a || Ascii.eqb a dot) rest ->
  match_at flags_si (score_pattern label) (label +:+ ":" +:+ sp +:+ tok +:+ rest)
  = Some (rest, Some tok).
Proof.
  intros Hsp Ht Hr. unfold match_at, score_pattern.
  pose proof (number_token_starts tok Ht) as Hs.
  assert (Hd : exists a t, tok +:+ rest = String a t /\ is_digit a = true).
  { destruct tok as [|a t]; [discriminate |]. exists a, (t +:+ rest). auto. }
  destruct Hd as (a & t & Et & Ha).
  destruct (digit_not_mark a Ha) as (M1 & M2 & M3 & _).
  assert (Hstop : stops (cmatch flags_si CSpace) (tok +:+ rest))
    by (rewrite Et; exact M3).
  fwd. rewrite rmatch_lit_self. fwd. apply rmatch_opt_take. fwd.
  apply rmatch_star_max; [exact Hsp | exact Hstop |]. cbv beta.
  fwd. rewrite rmatch_opt_skip.
  2:{ rewrite Et. cbn [rmatch match_lit]. now rewrite M1, M2. }
  fwd. apply rmatch_star_none; [exact Hstop |]. cbv beta.
  cbn [rmatch]. apply rmatch_number; [assumption | assumption |].
  unfold accept. now rewrite consumed_app.
Qed.

(** The same for the Gemini score pattern, whose rating is digits only. *)
Lemma gemini_score_probe_here label sp a w rest :
  blank sp -> is_digit a = true -> str_forall is_digit w = true ->
  stops is_digit rest ->
  match_at flags_si (gemini_score_pattern label)
    (label +:+ ":" +:+ sp +:+ String a w +:+ rest)
  = Some (rest, Some (String a w)).
Proof.
  intros Hsp Ha Hw Hr. unfold match_at, gemini_score_pattern.
  destruct (digit_not_mark a Ha) as (_ & _ & M3 & _).
  fwd. rewrite rmatch_lit_self. fwd. apply rmatch_opt_take. fwd.
  apply rmatch_star_max; [exact Hsp | exact M3 |]. cbv beta.
  cbn [rmatch cmatch String.append]. rewrite Ha.
  rewrite (star_greedy_max is_digit w rest _ (rest, Some (String a w)) Hw Hr);
    [reflexivity |].
  unfold accept. do 3 f_equal. exact (consumed_app (String a w) rest).
Qed.

(** A search skips a prefix inside which the opening label does not start. *)
Lemma re_search_blocked lbl w x rest P t :
  lbl = w +:+ x -> starts_first w P t ->
  re_search flags_si (RSeq (RLit lbl) rest) (P +:+ t) =
  re_search flags_si (RSeq (RLit lbl) rest) t.
Proof.
  intros -> Hb. apply re_search_skip. revert Hb. apply each_suffix_impl.
  intros s Hs. unfold match_at. cbn [rmatch]. now rewrite match_lit_app, Hs.
Qed.

(** ** Suffixes, separators and the words that end a reason *)

Lemma str_app_eq_app (a b c d : string) :
  a +:+ b = c +:+ d ->
  (exists e, a = c +:+ e /\ d = e +:+ b) \/ (exists e, c = a +:+ e /\ b = e +:+ d).
Proof.
  revert c. induction a as [|x a IH]; intros c H.
  - right. exists c. auto.
  - destruct c as [|y c].
    + left. exists (String x a). auto.
    + simpl in H. injection H as -> H.
      destruct (IH c H) as [(e & -> & ->)|(e & -> & ->)]; [left | right]; now exists e.
Qed.

Lemma each_suffix_intro (P : string -> Prop) a b :
  (forall u v, a = u +:+ v -> v <> "" -> P (v +:+ b)) -> each_suffix P a b.
Proof.
  induction a as [|c a IH]; intros H; simpl; [exact I |]. split.
  - apply (H "" (String c a)); [reflexivity | discriminate].
  - apply IH. intros u v -> Hv. now apply (H (String c u) v).
Qed.

Lemma each_suffix_app_l (P : string -> Prop) a1 a2 b :
  each_suffix P (a1 +:+ a2) b -> each_suffix P a1 (a2 +:+ b).
Proof.
  induction a1 as [|c a1 IH]; simpl; [auto |].
  intros [H1 H2]. split; [| auto]. now rewrite <- str_app_assoc.
Qed.

Lemma ends_with_app p u v : v <> "" -> ends_with p (u +:+ v) = ends_with p v.
Proof.
  intros Hv. induction u as [|c u IH]; [reflexivity |].
  cbn [String.append ends_with]. rewrite IH.
  destruct (u +:+ v) eqn:E; [| reflexivity].
  destruct u; [simpl in E; congruence | discriminate].
Qed.

Lemma ends_with_all p v : v <> "" -> str_forall p v = true -> ends_with p v = true.
Proof.
  induction v as [|c v IH]; [congruence |]. intros _ H.
  simpl in H. apply andb_true_iff in H as [Hc Hv].
  destruct v as [|d v]; [exact Hc |]. apply IH; [discriminate | exact Hv].
Qed.

Lemma ends_with_impl (p q : ascii -> bool) s :
  (forall a, p a = true -> q a = true) -> ends_with p s = true -> ends_with q s = true.
Proof.
  intros H. induction s as [|c s IH]; [discriminate |].
  destruct s as [|d s]; [apply H | exact IH].
Qed.

Lemma ends_with_not (p : ascii -> bool) s :
  ends_with (fun a => negb (p a)) s = true -> ends_with p s = false.
Proof.
  induction s as [|c s IH]; [reflexivity |].
  destruct s as [|d s]; [apply negb_true_iff | exact IH].
Qed.

Lemma newline_space a : is_newline a = true -> is_space a = true.
Proof. unfold is_newline. intros H. apply Ascii.eqb_eq in H. now subst. Qed.

Lemma newline_chr a : chr_eq flags_si newline a = is_newline a.
Proof. ascii_cases a. Qed.

Lemma newlines_cmatch w :
  str_forall (cmatch flags_si (CChar newline)) w = str_forall is_newline w.
Proof.
  induction w as [|c w IH]; [reflexivity |].
  change (chr_eq flags_si newline c && str_forall (cmatch flags_si (CChar newline)) w
          = is_newline c && str_forall is_newline w).
  now rewrite newline_chr, IH.
Qed.

(** A reason followed by white space never ends in a newline once the
    final newlines of the white space are set apart. *)
Lemma sep_split sep :
  blank sep ->
  exists sepa nls, sep = sepa +:+ nls /\ blank sepa /\
    str_forall is_newline nls = true /\ ends_with is_newline sepa = false.
Proof.
  unfold blank. induction sep as [|a t IH]; intros H.
  - now exists "", "".
  - simpl in H. apply andb_true_iff in H as [Ha Ht].
    destruct (IH Ht) as (ta & tn & -> & Hta & Htn & He).
    destruct ta as [|b ta].
    + destruct (is_newline a) eqn:En.
      * exists "", (String a tn). repeat split; auto. simpl. now rewrite En.
      * exists (String a ""), tn. repeat split; auto. simpl. now rewrite Ha.
    + exists (String a (String b ta)), tn. repeat split; auto.
      simpl. simpl in Hta. now rewrite Ha.
Qed.

Lemma tidy_body r sepa :
  tidy r -> ends_with is_newline sepa = false ->
  ends_with is_newline (r +:+ sepa) = false.
Proof.
  intros [_ Hr] Hs. destruct sepa as [|c sepa].
  - rewrite str_app_nil_r. apply ends_with_not.
    revert Hr. apply ends_with_impl. intros a Ha. unfold not_space in Ha.
    apply negb_true_iff in Ha. apply negb_true_iff.
    destruct (is_newline a) eqn:E; [| reflexivity].
    apply newline_space in E. congruence.
  - rewrite ends_with_app by discriminate. exact Hs.
Qed.

(** ** The lookaheads of the reason patterns *)

Lemma stop_authenticity_here x c s2 c2 :
  matches flags_si stop_authenticity x c s2 c2 ->
  stop_here ["SENSITIVITY"; "HARMONY"] true x.
Proof.
  unfold stop_authenticity. cbn [matches].
  intros (y & c1 & (w & -> & Hw & _) & M).
  rewrite newlines_cmatch in Hw. exists w, y. do 2 (split; [auto |]).
  destruct M as [[M _]|[[M _]|(_ & _ & M)]].
  - left. exists "SENSITIVITY", s2. simpl. auto.
  - left. exists "HARMONY", s2. simpl. auto.
  - right. auto.
Qed.

Lemma stop_sensitivity_here x c s2 c2 :
  matches flags_si stop_sensitivity x c s2 c2 -> stop_here ["HARMONY"] true x.
Proof.
  unfold stop_sensitivity. cbn [matches].
  intros (y & c1 & (w & -> & Hw & _) & M).
  rewrite newlines_cmatch in Hw. exists w, y. do 2 (split; [auto |]).
  destruct M as [[M _]|(_ & _ & M)].
  - left. exists "HARMONY", s2. simpl. auto.
  - right. auto.
Qed.

Lemma stop_next_here next x c s2 c2 :
  matches flags_si (RSeq (RStar (CChar newline)) (RLit next)) x c s2 c2 ->
  stop_here [next] false x.
Proof.
  cbn [matches]. intros (y & c1 & (w & -> & Hw & _) & M & _).
  rewrite newlines_cmatch in Hw. exists w, y. do 2 (split; [auto |]).
  left. exists next, s2. simpl. auto.
Qed.

(** At the label that follows the newlines, each lookahead succeeds. *)
Lemma stop_authenticity_at nls t c :
  str_forall is_newline nls = true ->
  exists s2 c2, matches flags_si stop_authenticity (nls +:+ "SENSITIVITY" +:+ t) c s2 c2.
Proof.
  intros H. exists t, c. unfold stop_authenticity. cbn [matches].
  exists ("SENSITIVITY" +:+ t), c. split.
  - exists nls. rewrite newlines_cmatch. auto.
  - left. now rewrite match_lit_self.
Qed.

Lemma stop_sensitivity_at nls t c :
  str_forall is_newline nls = true ->
  exists s2 c2, matches flags_si stop_sensitivity (nls +:+ "HARMONY" +:+ t) c s2 c2.
Proof.
  intros H. exists t, c. unfold stop_sensitivity. cbn [matches].
  exists ("HARMONY" +:+ t), c. split.
  - exists nls. rewrite newlines_cmatch. auto.
  - left. now rewrite match_lit_self.
Qed.

Lemma stop_next_at next nls t c :
  str_forall is_newline nls = true ->
  exists s2 c2, matches flags_si (RSeq (RStar (CChar newline)) (RLit next))
                  (nls +:+ next +:+ t) c s2 c2.
Proof.
  intros H. exists t, c. cbn [matches].
  exists (next +:+ t), c. split.
  - exists nls. rewrite newlines_cmatch. auto.
  - now rewrite match_lit_self.
Qed.

(** Inside a body that does not end in a newline and in which none of the
    words can start, the lookahead fails everywhere. *)
Lemma body_no_stop words ends body rest :
  (forall word, In word words ->
     each_suffix (fun s => match_lit flags_si word s = None) body rest) ->
  ends_with is_newline body = false ->
  each_suffix (fun x => ~ stop_here words ends x) body rest.
Proof.
  intros Hb He. apply each_suffix_intro. intros u v -> Hv (w & y & E & Hw & Hy).
  assert (Hnl : forall u' v', u +:+ v = u' +:+ v' -> v' <> "" ->
                  str_forall is_newline v' = true -> False).
  { intros u' v' E' Hv' Hn. rewrite E', ends_with_app in He by assumption.
    rewrite ends_with_all in He; [discriminate | assumption | assumption]. }
  apply str_app_eq_app in E as [(e & -> & ->)|(e & -> & ->)].
  - destruct e as [|a e].
    + rewrite str_app_nil_r in Hv. apply (Hnl u (w +:+ "")); auto;
        now rewrite str_app_nil_r.
    + assert (E2 : u +:+ w +:+ String a e = (u +:+ w) +:+ String a e)
        by now rewrite str_app_assoc.
      destruct Hy as [(word & r & Hin & Hm)|[_ Hy]].
      * pose proof (each_suffix_at _ _ _ _ _ (Hb word Hin) E2
                      (ltac:(discriminate))) as Hn.
        cbv beta in Hn. congruence.
      * simpl in Hy. destruct (e +:+ rest) eqn:Ee; [| discriminate].
        destruct e; [| discriminate].
        apply (Hnl (u +:+ w) (String a "")); [exact E2 | discriminate |].
        simpl. unfold is_newline. now rewrite Hy.
  - rewrite str_forall_app in Hw. apply andb_true_iff in Hw as [Hw _].
    now apply (Hnl u v).
Qed.

(** The last two parts of a reason pattern, [(.*?)(?=stop)], capture
    [body] when [stop] matches after it and nowhere inside it. *)
Lemma lazy_capture_here stop body rest cap :
  nogroup stop = true ->
  each_suffix (fun x => forall c s2 c2, ~ matches flags_si stop x c s2 c2) body rest ->
  (forall c, exists s2 c2, matches flags_si stop rest c s2 c2) ->
  rmatch flags_si (RSeq (RGroup (RStarLazy CAny)) (RLook stop)) (body +:+ rest) cap accept
  = Some (rest, Some body).
Proof.
  intros Hn Hmin Hrest. cbn [rmatch].
  rewrite star_lazy_skip; [| apply any_all |].
  - apply star_lazy_here. rewrite consumed_app.
    destruct (Hrest (Some body)) as (s2 & c2 & M).
    destruct (rmatch_complete flags_si stop rest (Some body) s2 c2
                (fun s'0 cap' => Some (s'0, cap')) (plain_of_nogroup _ Hn) M
                (ltac:(eauto))) as [[s3 c3] E].
    rewrite E. pose proof E as E'.
    apply rmatch_sound in E' as (s4 & c4 & M4 & [= -> ->]).
    apply (nogroup_cap _ _ _ _ _ _ Hn) in M4. now subst c3.
  - revert Hmin. apply each_suffix_impl. intros x Hx.
    destruct (rmatch flags_si stop x _ _) as [[s3 c3]|] eqn:E; [| reflexivity].
    apply rmatch_sound in E as (s4 & c4 & M4 & _). now destruct (Hx _ _ _ M4).
Qed.

(** ** Where a label cannot start *)

Lemma blocked_app w a1 a2 : blocked w a1 -> blocked w a2 -> blocked w (a1 +:+ a2).
Proof. intros H1 H2 b. apply each_suffix_app; auto. Qed.

Lemma blocked_nil w : blocked w "".
Proof. intros b. exact I. Qed.

Lemma blocked_no_letter w a :
  starts_with is_letter w = true -> no_letter a -> blocked w a.
Proof.
  intros Hw Ha b. apply (each_suffix_chars _ (fun c => negb (is_letter c))); [| exact Ha].
  intros c t Hc. destruct w as [|x w]; [discriminate |]. simpl in Hw. simpl.
  destruct (chr_eq flags_si x c) eqn:E; [| reflexivity].
  apply (chr_eq_letter _ _ _ Hw) in E. rewrite E in Hc. discriminate.
Qed.

Lemma blank_no_letter s : blank s -> no_letter s.
Proof.
  apply str_forall_impl. intros a Ha. apply negb_true_iff.
  destruct (is_letter a) eqn:E; [| reflexivity].
  apply letter_not_space in E. congruence.
Qed.

Lemma number_no_letter tok : number_token tok = true -> no_letter tok.
Proof.
  intros H. destruct (number_token_chars tok H) as [_ Hc]. revert Hc.
  apply str_forall_impl. intros a Ha. apply negb_true_iff.
  destruct (is_letter a) eqn:E; [| reflexivity].
  pose proof (letter_not_digit a E) as Hd. rewrite Hd in Ha. simpl in Ha.
  apply Ascii.eqb_eq in Ha. subst a. discriminate.
Qed.

Lemma no_letter_app a b : no_letter a -> no_letter b -> no_letter (a +:+ b).
Proof. unfold no_letter. intros Ha Hb. now rewrite str_forall_app, Ha, Hb. Qed.

(** A word of letters that matches across the end of [v] into white space
    matches inside [v]. *)
Lemma match_lit_delim w : forall v t x,
  str_forall is_letter w = true -> starts_with is_space t = true ->
  match_lit flags_si w (v +:+ t) = Some x -> exists y, match_lit flags_si w v = Some y.
Proof.
  induction w as [|c w IH]; intros v t x Hw Ht; simpl; [eauto |].
  simpl in Hw. apply andb_true_iff in Hw as [Hc Hw].
  destruct v as [|a v]; simpl.
  - destruct t as [|s t]; [discriminate |]. simpl in Ht.
    destruct (chr_eq flags_si c s) eqn:E; [| discriminate].
    apply (chr_eq_letter _ _ _ Hc) in E. apply letter_not_space in E. congruence.
  - destruct (chr_eq flags_si c a); [| discriminate]. now apply IH.
Qed.

(** A reason that does not mention [w], followed by white space. *)
Lemma blocked_free w r sep :
  starts_with is_letter w = true -> str_forall is_letter w = true ->
  occurs w r = false -> blank sep -> sep <> "" -> blocked w (r +:+ sep).
Proof.
  intros Hw1 Hw Ho Hs Hne b. apply each_suffix_app.
  - apply each_suffix_intro. intros u v -> Hv.
    destruct (match_lit flags_si w (v +:+ sep +:+ b)) as [x|] eqn:E; [| reflexivity].
    apply match_lit_delim in E as [y Hy]; [| assumption |].
    + rewrite occurs_suffix in Ho; [discriminate | eauto].
    + destruct sep as [|s sep]; [congruence |]. simpl in Hs. simpl.
      now apply andb_true_iff in Hs as [-> _].
  - now apply blocked_no_letter, blank_no_letter.
Qed.

(** ** What [strip] leaves of a tidy reason *)

Lemma rstrip_blank ws : blank ws -> rstrip ws = "".
Proof.
  unfold blank. induction ws as [|a ws IH]; [reflexivity |]. simpl.
  intros H. apply andb_true_iff in H as [Ha Hw]. now rewrite (IH Hw), Ha.
Qed.

Lemma rstrip_tidy r ws :
  ends_with not_space r = true -> blank ws -> rstrip (r +:+ ws) = r.
Proof.
  intros Hr Hw. induction r as [|a r IH]; [discriminate |].
  destruct r as [|b r].
  - simpl in Hr. cbn [String.append rstrip]. rewrite (rstrip_blank ws Hw).
    unfold not_space in Hr. apply negb_true_iff in Hr. now rewrite Hr.
  - change (String a (String b r) +:+ ws) with (String a (String b r +:+ ws)).
    cbn [rstrip]. rewrite (IH Hr). reflexivity.
Qed.

Lemma strip_tidy r ws : tidy r -> blank ws -> strip (r +:+ ws) = r.
Proof.
  intros [Hs He] Hw. unfold strip. rewrite lstrip_id.
  - now apply rstrip_tidy.
  - destruct r as [|a r]; [discriminate |]. simpl in Hs. simpl.
    unfold not_space in Hs. now apply negb_true_iff in Hs.
Qed.

Lemma tidy_stops r t : tidy r -> stops is_space (r +:+ t).
Proof.
  intros [Hs _]. destruct r as [|a r]; [discriminate |]. simpl in Hs. simpl.
  unfold not_space in Hs. now apply negb_true_iff in Hs.
Qed.

(** ** A reason pattern at its label *)

Section Chain.
Variable intro : regex.
Hypothesis intro_skip : forall c t cap k,
  is_letter c = false -> rmatch flags_si intro (String c t) cap k = None.
Hypothesis intro_here : forall Y cap k res,
  k Y cap = Some res -> rmatch flags_si intro ("Reason" +:+ Y) cap k = Some res.

(** The lazy [.*?] after the label skips what holds no letter and stops at
    the first "Reason:". *)
Lemma chain_here lbl tl skip e X out :
  no_letter skip -> blank e -> stops is_space X ->
  rmatch flags_si tl X None accept = Some out ->
  match_at flags_si
    (RLit lbl ;; RStarLazy CAny ;; intro ;; RLit ":" ;; RStar CSpace ;; tl)%re
    (lbl +:+ skip +:+ "Reason:" +:+ e +:+ X) = Some out.
Proof.
  intros Hs He HX Htl. unfold match_at.
  fwd. rewrite rmatch_lit_self. fwd.
  rewrite rmatch_lazy_skip; [| reflexivity |].
  - apply rmatch_lazy_here. fwd.
    change ("Reason:" +:+ e +:+ X) with ("Reason" +:+ ":" +:+ e +:+ X).
    apply intro_here. fwd. rewrite rmatch_lit_self. fwd.
    now apply rmatch_star_max.
  - apply (each_suffix_chars _ (fun c => negb (is_letter c))); [| exact Hs].
    intros c t Hc. apply negb_true_iff in Hc. cbn [rmatch]. now apply intro_skip.
Qed.

Lemma chain_found lbl w x tl P skip e X s' cap :
  lbl = w +:+ x ->
  starts_first w P (lbl +:+ skip +:+ "Reason:" +:+ e +:+ X) ->
  no_letter skip -> blank e -> stops is_space X ->
  rmatch flags_si tl X None accept = Some (s', cap) ->
  exists m,
    re_search flags_si
      (RLit lbl ;; RStarLazy CAny ;; intro ;; RLit ":" ;; RStar CSpace ;; tl)%re
      (P +:+ lbl +:+ skip +:+ "Reason:" +:+ e +:+ X) = Some m /\
    group1 m = cap.
Proof.
  intros Hl Hb Hs He HX Htl.
  rewrite (re_search_blocked lbl w x _ P _ Hl Hb).
  rewrite (re_search_here _ _ _ s' cap); [eauto |].
  now apply chain_here.
Qed.
End Chain.

Lemma no_letter_intro c :
  is_letter c = false ->
  chr_eq flags_si "R" c = false /\ chr_eq flags_si "E" c = false.
Proof. ascii_cases c. Qed.

Lemma ollama_intro_skip c t cap k :
  is_letter c = false ->
  rmatch flags_si (RAlt (RLit "Reason") (RLit "Explanation")) (String c t) cap k = None.
Proof.
  intros Hc. destruct (no_letter_intro c Hc) as [H1 H2].
  cbn [rmatch match_lit]. now rewrite H1, H2.
Qed.

Lemma ollama_intro_here Y cap k res :
  k Y cap = Some res ->
  rmatch flags_si (RAlt (RLit "Reason") (RLit "Explanation")) ("Reason" +:+ Y) cap k
  = Some res.
Proof. intros H. cbn [rmatch]. now rewrite match_lit_self, H. Qed.

Lemma gemini_intro_skip c t cap k :
  is_letter c = false -> rmatch flags_si (RLit "Reason") (String c t) cap k = None.
Proof.
  intros Hc. destruct (no_letter_intro c Hc) as [H1 _].
  cbn [rmatch match_lit]. now rewrite H1.
Qed.

Lemma gemini_intro_here Y cap k res :
  k Y cap = Some res -> rmatch flags_si (RLit "Reason") ("Reason" +:+ Y) cap k = Some res.
Proof. intros H. now rewrite rmatch_lit_self. Qed.

(** ** What the capture of a reason is *)

(** Before the next label: the reason and the white space after it, up to
    the final newlines. *)
Lemma tail_mid stop words ends r sep T :
  nogroup stop = true ->
  (forall x c s2 c2, matches flags_si stop x c s2 c2 -> stop_here words ends x) ->
  (forall nls c, str_forall is_newline nls = true ->
     exists s2 c2, matches flags_si stop (nls +:+ T) c s2 c2) ->
  (forall word, In word words -> starts_first word (r +:+ sep) T) ->
  tidy r -> blank sep ->
  exists body rest,
    r +:+ sep +:+ T = body +:+ rest /\ strip body = r /\
    rmatch flags_si (RSeq (RGroup (RStarLazy CAny)) (RLook stop)) (body +:+ rest)
      None accept = Some (rest, Some body).
Proof.
  intros Hn Hstop Hat Hb Hr Hs.
  destruct (sep_split sep Hs) as (sepa & nls & -> & Ha & Hnl & He).
  exists (r +:+ sepa), (nls +:+ T). split; [now rewrite !str_app_assoc |].
  split; [now apply strip_tidy |].
  apply lazy_capture_here; [assumption | | auto].
  apply (each_suffix_impl (fun x => ~ stop_here words ends x)).
  - intros x Hx c s2 c2 M. apply Hx. eauto.
  - apply body_no_stop; [| now apply tidy_body].
    intros word Hin. apply each_suffix_app_l.
    rewrite str_app_assoc. exact (Hb word Hin).
Qed.

Lemma ends_with_split p s :
  ends_with p s = true -> exists t a, s = t +:+ String a "" /\ p a = true.
Proof.
  induction s as [|c s IH]; [discriminate |]. destruct s as [|d s].
  - intros H. now exists "", c.
  - intros H. destruct (IH H) as (t & a & E & Ha).
    exists (String c t), a. simpl. now rewrite <- E.
Qed.

(** Before the end of the text: the reason and the white space after it,
    but not a final newline. *)
Lemma tail_end r trail :
  tidy r -> blank trail ->
  exists body rest,
    r +:+ trail = body +:+ rest /\ strip body = r /\
    rmatch flags_si (RSeq (RGroup (RStarLazy CAny)) (RLook REnd)) (body +:+ rest)
      None accept = Some (rest, Some body).
Proof.
  intros Hr Ht. destruct (ends_with is_newline trail) eqn:E.
  - apply ends_with_split in E as (t & a & -> & Ha).
    unfold blank in Ht. rewrite str_forall_app in Ht.
    apply andb_true_iff in Ht as [Ht _].
    exists (r +:+ t), (String a ""). split; [now rewrite str_app_assoc |].
    split; [now apply strip_tidy |].
    apply lazy_capture_here; [reflexivity | |].
    + apply each_suffix_intro. intros u v _ Hv c s2 c2 (_ & _ & M).
      destruct v as [|x v]; [congruence |]. simpl in M.
      destruct v; discriminate.
    + intros c. exists (String a ""), c. cbn [matches]. auto.
  - exists (r +:+ trail), "". split; [now rewrite str_app_nil_r |].
    split; [now apply strip_tidy |].
    apply lazy_capture_here; [reflexivity | |].
    + pose proof (tidy_body r trail Hr E) as Hb.
      apply each_suffix_intro. intros u v Eb Hv c s2 c2 (_ & _ & M).
      rewrite str_app_nil_r in M. destruct v as [|x v]; [congruence |].
      simpl in M. destruct v; [| discriminate].
      rewrite Eb, ends_with_app in Hb by discriminate. simpl in Hb.
      unfold is_newline in Hb. congruence.
    + intros c. exists "", c. cbn [matches]. auto.
Qed.

(** The greedy last group of the Gemini HARMONY pattern takes the rest of
    the text. *)
Lemma tail_all X :
  rmatch flags_si (RGroup (RStar CAny)) X None accept = Some ("", Some X).
Proof.
  cbn [rmatch].
  pose proof (star_greedy_max (cmatch flags_si CAny) X ""
                (fun s' => accept s' (Some (consumed X s'))) ("", Some X)
                (any_all X) I) as H.
  rewrite str_app_nil_r in H. apply H. unfold accept. do 3 f_equal.
  rewrite <- (str_app_nil_r X) at 1. apply consumed_app.
Qed.

(** ** A criterion of the documented format inside a text *)

Lemma space_not_number a :
  is_space a = true -> is_digit a || Ascii.eqb a dot = false.
Proof. ascii_cases a. Qed.

Lemma stops_after_rating h t :
  blank h -> stops (fun a => is_digit a || Ascii.eqb a dot) (h +:+ "Reason:" +:+ t).
Proof.
  destruct h as [|a h]; [reflexivity |]. unfold blank. simpl.
  intros H. apply andb_true_iff in H as [Ha _]. now apply space_not_number.
Qed.

Lemma criterion_app label b t1 t2 :
  criterion label b t1 +:+ t2 = criterion label b (t1 +:+ t2).
Proof. unfold criterion. now rewrite !str_app_assoc. Qed.

Lemma response_eq lead b1 sep1 b2 sep2 b3 trail :
  response lead b1 sep1 b2 sep2 b3 trail =
  lead +:+ criterion "AUTHENTICITY" b1
    (sep1 +:+ criterion "SENSITIVITY" b2 (sep2 +:+ criterion "HARMONY" b3 trail)).
Proof. unfold response, block_text, criterion. now rewrite !str_app_assoc. Qed.

Lemma score_found label key P b t :
  starts_first label P (criterion label b t) -> block_ok b ->
  str_in "score" key = true ->
  parse_field (score_pattern label) key (P +:+ criterion label b t)
  = coerce_score (rating b).
Proof.
  intros Hb (Hg & Hn & Hh & _) Hk.
  assert (E : re_search flags_si (score_pattern label) (P +:+ criterion label b t)
              = Some (Match (consumed (criterion label b t)
                               (gap_rating b +:+ "Reason:" +:+ gap_reason b +:+
                                reason b +:+ t))
                        (Some (rating b)))).
  { unfold score_pattern.
    rewrite (re_search_blocked label label "" _ P _
               (eq_sym (str_app_nil_r label)) Hb).
    apply re_search_here. apply score_probe_here; auto.
    now apply stops_after_rating. }
  unfold parse_field. rewrite E, Hk. cbn [group1 default id].
  now destruct (number_token_clean _ Hn) as (-> & _).
Qed.

Lemma integer_part_whole tok :
  str_forall is_digit tok = true -> integer_part tok = tok.
Proof. intros H. unfold integer_part. now rewrite split_dot_digits. Qed.

(** The Gemini score pattern captures the digits before the decimal point. *)
Lemma gemini_score_found label P b t :
  starts_first label P (criterion label b t) -> block_ok b ->
  gemini_field (gemini_score_pattern label) (P +:+ criterion label b t)
  = PStr (integer_part (rating b)).
Proof.
  intros Hb (Hg & Hn & Hh & _).
  assert (E : exists a w rest,
            criterion label b t = label +:+ ":" +:+ gap_label b +:+ String a w +:+ rest /\
            is_digit a = true /\ str_forall is_digit w = true /\
            stops is_digit rest /\ integer_part (rating b) = String a w).
  { unfold criterion.
    destruct (number_token_shape _ Hn)
      as [(a & w & Er & Ha & Hw)|(a & w & a2 & w2 & Er & Ha & Hw & Ha2 & Hw2)];
      rewrite Er.
    - exists a, w, (gap_rating b +:+ "Reason:" +:+ gap_reason b +:+ reason b +:+ t).
      split; [reflexivity |]. do 2 (split; [assumption |]). split.
      + generalize (stops_after_rating (gap_rating b)
                      (gap_reason b +:+ reason b +:+ t) Hh).
        apply stops_weaken. now intros x ->.
      + apply integer_part_whole. simpl. now rewrite Ha, Hw.
    - exists a, w, (String dot (String a2 w2) +:+ gap_rating b +:+ "Reason:" +:+
                    gap_reason b +:+ reason b +:+ t).
      split; [now rewrite !str_app_assoc |]. do 2 (split; [assumption |]).
      split; [reflexivity |].
      unfold integer_part. rewrite split_dot_app; [reflexivity |].
      simpl. now rewrite Ha, Hw. }
  destruct E as (a & w & rest & Ec & Ha & Hw & Hr & Ei).
  unfold gemini_field, gemini_score_pattern.
  rewrite (re_search_blocked label label "" _ P _ (eq_sym (str_app_nil_r label)) Hb).
  rewrite Ec, Ei.
  rewrite (re_search_here _ _ _ rest (Some (String a w)))
    by now apply gemini_score_probe_here.
  cbn [group1 default id]. f_equal.
  now destruct (number_token_clean _ (number_token_int a w Ha Hw)) as (-> & _).
Qed.

Lemma skip_no_letter b :
  block_ok b -> no_letter (gap_label b +:+ rating b +:+ gap_rating b).
Proof.
  intros (Hg & Hn & Hh & _).
  auto using no_letter_app, blank_no_letter, number_no_letter.
Qed.

Lemma criterion_ollama label b t :
  criterion label b t =
  (label +:+ ":") +:+ (gap_label b +:+ rating b +:+ gap_rating b) +:+
  "Reason:" +:+ gap_reason b +:+ reason b +:+ t.
Proof. unfold criterion. now rewrite !str_app_assoc. Qed.

Lemma criterion_gemini label b t :
  criterion label b t =
  label +:+ (":" +:+ gap_label b +:+ rating b +:+ gap_rating b) +:+
  "Reason:" +:+ gap_reason b +:+ reason b +:+ t.
Proof. unfold criterion. now rewrite !str_app_assoc. Qed.

(** The Ollama reason of a criterion that is followed by another one. *)
Lemma reason_found_mid label stop words ends key P b sep T :
  nogroup stop = true ->
  (forall x c s2 c2, matches flags_si stop x c s2 c2 -> stop_here words ends x) ->
  (forall nls c, str_forall is_newline nls = true ->
     exists s2 c2, matches flags_si stop (nls +:+ T) c s2 c2) ->
  (forall word, In word words -> starts_first word (reason b +:+ sep) T) ->
  starts_first label P (criterion label b (sep +:+ T)) ->
  block_ok b -> blank sep -> str_in "score" key = false ->
  parse_field (reason_pattern (label +:+ ":") stop) key
    (P +:+ criterion label b (sep +:+ T)) = PStr (reason b).
Proof.
  intros Hn Hstop Hat Hw Hb Hok Hs Hk.
  pose proof (skip_no_letter b Hok) as Hskip.
  destruct Hok as (_ & _ & _ & He & Hr).
  destruct (tail_mid stop words ends (reason b) sep T Hn Hstop Hat Hw Hr Hs)
    as (body & rest & E & Hstrip & Hm).
  rewrite criterion_ollama, E in Hb.
  destruct (chain_found _ ollama_intro_skip ollama_intro_here
              (label +:+ ":") label ":"
              (RSeq (RGroup (RStarLazy CAny)) (RLook stop))
              P _ (gap_reason b) (body +:+ rest)
              rest (Some body) eq_refl Hb Hskip He) as (m & Hf & Hg); [| exact Hm |].
  { rewrite <- E. now apply tidy_stops. }
  unfold parse_field, reason_pattern. rewrite criterion_ollama, E, Hf, Hk, Hg.
  cbn [default id]. now rewrite Hstrip.
Qed.

(** The Ollama reason of the last criterion. *)
Lemma reason_found_end label key P b trail :
  starts_first label P (criterion label b trail) ->
  block_ok b -> blank trail -> str_in "score" key = false ->
  parse_field (reason_pattern (label +:+ ":") REnd) key
    (P +:+ criterion label b trail) = PStr (reason b).
Proof.
  intros Hb Hok Hs Hk.
  pose proof (skip_no_letter b Hok) as Hskip.
  destruct Hok as (_ & _ & _ & He & Hr).
  destruct (tail_end (reason b) trail Hr Hs) as (body & rest & E & Hstrip & Hm).
  rewrite criterion_ollama, E in Hb.
  destruct (chain_found _ ollama_intro_skip ollama_intro_here
              (label +:+ ":") label ":"
              (RSeq (RGroup (RStarLazy CAny)) (RLook REnd))
              P _ (gap_reason b) (body +:+ rest)
              rest (Some body) eq_refl Hb Hskip He) as (m & Hf & Hg); [| exact Hm |].
  { rewrite <- E. now apply tidy_stops. }
  unfold parse_field, reason_pattern. rewrite criterion_ollama, E, Hf, Hk, Hg.
  cbn [default id]. now rewrite Hstrip.
Qed.

(** The Gemini reason of a criterion that is followed by the label [next]. *)
Lemma gemini_reason_found_mid label next P b sep t :
  starts_first next (reason b +:+ sep) (next +:+ t) ->
  starts_first label P (criterion label b (sep +:+ next +:+ t)) ->
  block_ok b -> blank sep ->
  gemini_field (gemini_reason_pattern label next)
    (P +:+ criterion label b (sep +:+ next +:+ t)) = PStr (reason b).
Proof.
  intros Hw Hb Hok Hs.
  assert (Hskip : no_letter (":" +:+ gap_label b +:+ rating b +:+ gap_rating b)).
  { apply (no_letter_app ":"); [reflexivity | now apply skip_no_letter]. }
  destruct Hok as (_ & _ & _ & He & Hr).
  destruct (tail_mid (RSeq (RStar (CChar newline)) (RLit next)) [next] false
              (reason b) sep (next +:+ t) eq_refl (stop_next_here next)
              (fun nls c H => stop_next_at next nls t c H))
    as (body & rest & E & Hstrip & Hm); auto.
  { intros word [<-|[]]. exact Hw. }
  rewrite criterion_gemini, E in Hb.
  destruct (chain_found _ gemini_intro_skip gemini_intro_here
              label label ""
              (RSeq (RGroup (RStarLazy CAny))
                 (RLook (RSeq (RStar (CChar newline)) (RLit next))))
              P _ (gap_reason b) (body +:+ rest)
              rest (Some body) (eq_sym (str_app_nil_r label)) Hb Hskip He)
    as (m & Hf & Hg); [| exact Hm |].
  { rewrite <- E. now apply tidy_stops. }
  unfold gemini_field, gemini_reason_pattern.
  rewrite criterion_gemini, E, Hf, Hg. cbn [default id]. now rewrite Hstrip.
Qed.

(** The Gemini reason of the last criterion. *)
Lemma gemini_reason_found_end label P b trail :
  starts_first label P (criterion label b trail) -> block_ok b -> blank trail ->
  gemini_field (gemini_last_pattern label) (P +:+ criterion label b trail)
  = PStr (reason b).
Proof.
  intros Hb Hok Hs.
  assert (Hskip : no_letter (":" +:+ gap_label b +:+ rating b +:+ gap_rating b)).
  { apply (no_letter_app ":"); [reflexivity | now apply skip_no_letter]. }
  destruct Hok as (_ & _ & _ & He & Hr).
  rewrite criterion_gemini in Hb.
  destruct (chain_found _ gemini_intro_skip gemini_intro_here
              label label "" _ P _ (gap_reason b) (reason b +:+ trail)
              "" (Some (reason b +:+ trail)) (eq_sym (str_app_nil_r label))
              Hb Hskip He (tidy_stops _ _ Hr) (tail_all _))
    as (m & Hf & Hg).
  unfold gemini_field, gemini_last_pattern.
  rewrite criterion_gemini, Hf, Hg. cbn [default id]. now rewrite strip_tidy.
Qed.

(** A word that matches across the end of [v] into [t] has an end that is
    the start of [t]. *)
Lemma match_lit_straddle w : forall v t,
  match_lit flags_si w v = None -> tails_miss w t ->
  match_lit flags_si w (v +:+ t) = None.
Proof.
  induction w as [|c w IH]; intros v t Hv Ht; [discriminate |].
  destruct Ht as [H0 Ht]. destruct v as [|a v]; [exact H0 |].
  cbn [String.append match_lit] in *.
  destruct (chr_eq flags_si c a); [now apply IH | reflexivity].
Qed.

(** A reason that does not mention the word [String c w], followed by
    white space, or by nothing, and then by a text that no end of the word
    opens. *)
Lemma reason_free c w r sep t :
  is_letter c = true -> str_forall is_letter w = true ->
  occurs (String c w) r = false -> blank sep -> tails_miss w t ->
  starts_first (String c w) (r +:+ sep) t.
Proof.
  intros Hc Hw Ho Hs Ht. destruct sep as [|s sep].
  - rewrite str_app_nil_r. apply each_suffix_intro. intros u v -> Hv.
    pose proof (occurs_none _ _ _ Ho) as Hn.
    destruct v as [|a v]; [congruence |].
    cbn [String.append match_lit] in *.
    destruct (chr_eq flags_si c a); [now apply match_lit_straddle | reflexivity].
  - apply (blocked_free (String c w) r (String s sep));
      [exact Hc | cbn [str_forall]; now rewrite Hc | exact Ho | exact Hs | discriminate].
Qed.

(** No later label starts inside a criterion whose reason does not mention
    it, when no end of the label opens the text after the criterion. *)
Lemma criterion_blocked c w label b sep t :
  is_letter c = true -> str_forall is_letter w = true ->
  blocked (String c w) label -> blocked (String c w) "Reason:" ->
  block_ok b -> occurs (String c w) (reason b) = false -> blank sep ->
  tails_miss w t ->
  starts_first (String c w) (criterion label b sep) t.
Proof.
  intros Hc Hw Hl Hr (Hg & Hn & Hh & He & _) Ho Hs Ht. unfold criterion, starts_first.
  assert (B : forall a, no_letter a -> blocked (String c w) a)
    by (intros a Ha; now apply blocked_no_letter).
  do 7 (apply each_suffix_app;
        [solve [apply Hl | apply Hr | apply (B ":"); reflexivity
               | apply B; auto using blank_no_letter, number_no_letter] |]).
  now apply reason_free.
Qed.

(** ** The documented format is parsed back *)

Lemma number_coerced tok :
  number_token tok = true ->
  exists f, py_float tok = Some f /\ coerce_score tok = PFloat f.
Proof.
  intros H. destruct (number_token_clean tok H) as (E & _ & f & Hf & Hc).
  rewrite E in Hc. eauto.
Qed.

Lemma blocked_lead w lead : starts_with is_letter w = true -> blank lead -> blocked w lead.
Proof. intros Hw Hl. now apply blocked_no_letter, blank_no_letter. Qed.

(** C2 *)
(** C2 (amended): for every response in the documented format (the three
    criteria in order, each with a numeric rating and a "Reason:" line, with
    white space, or nothing, around the parts and between the criteria) in
    which no reason mentions the label of a later criterion,
    [parse_evaluation] of the Ollama and GPT-4o-mini scripts returns the
    three ratings as floats and the three reasons as they are. The Gemini
    script returns the three reasons as they are and, of each rating, the
    digits before its decimal point as a string: the rating itself when it
    is written with digits only. *)
Theorem documented_response_recovered (lead : string) (b1 : block) (sep1 : string)
    (b2 : block) (sep2 : string) (b3 : block) (trail : string) :
  documented lead b1 sep1 b2 sep2 b3 trail -> reasons_clear b1 b2 ->
  exists f1 f2 f3,
    py_float (rating b1) = Some f1 /\ py_float (rating b2) = Some f2 /\
    py_float (rating b3) = Some f3 /\
    Ollama.parse_evaluation (response lead b1 sep1 b2 sep2 b3 trail)
    = Ok (expected (PFloat f1) (PStr (reason b1)) (PFloat f2) (PStr (reason b2))
            (PFloat f3) (PStr (reason b3))) /\
    Gpt4oMini.parse_evaluation (response lead b1 sep1 b2 sep2 b3 trail)
    = Ok (expected (PFloat f1) (PStr (reason b1)) (PFloat f2) (PStr (reason b2))
            (PFloat f3) (PStr (reason b3))) /\
    Gemini.parse_evaluation (response lead b1 sep1 b2 sep2 b3 trail)
    = Ok (expected (PStr (integer_part (rating b1))) (PStr (reason b1))
            (PStr (integer_part (rating b2))) (PStr (reason b2))
            (PStr (integer_part (rating b3))) (PStr (reason b3))) /\
    (whole b1 -> whole b2 -> whole b3 ->
     Gemini.parse_evaluation (response lead b1 sep1 b2 sep2 b3 trail)
     = Ok (expected (PStr (rating b1)) (PStr (reason b1))
             (PStr (rating b2)) (PStr (reason b2))
             (PStr (rating b3)) (PStr (reason b3)))).
Proof.
  intros (Hl & H1 & Hs1 & H2 & Hs2 & H3 & Ht) (C1 & C2 & C3).
  change Gpt4oMini.parse_evaluation with Ollama.parse_evaluation.
  destruct (number_coerced (rating b1) (proj1 (proj2 H1))) as (f1 & Hf1 & Hc1).
  destruct (number_coerced (rating b2) (proj1 (proj2 H2))) as (f2 & Hf2 & Hc2).
  destruct (number_coerced (rating b3) (proj1 (proj2 H3))) as (f3 & Hf3 & Hc3).
  exists f1, f2, f3. do 3 (split; [assumption |]).
  set (T3 := criterion "HARMONY" b3 trail).
  set (T2 := criterion "SENSITIVITY" b2 (sep2 +:+ T3)).
  set (P2 := lead +:+ criterion "AUTHENTICITY" b1 sep1).
  set (P3 := P2 +:+ criterion "SENSITIVITY" b2 sep2).
  remember (response lead b1 sep1 b2 sep2 b3 trail) as text eqn:Et.
  assert (E1 : text = lead +:+ criterion "AUTHENTICITY" b1 (sep1 +:+ T2))
    by (subst text; apply response_eq).
  assert (E2 : text = P2 +:+ T2).
  { rewrite E1. unfold P2. now rewrite str_app_assoc, criterion_app. }
  assert (E3 : text = P3 +:+ T3).
  { rewrite E2. unfold P3, T2. now rewrite str_app_assoc, criterion_app. }
  clear Et.
  assert (M2 : forall x, tails_miss "ENSITIVITY" (criterion "SENSITIVITY" b2 x) /\
                         tails_miss "ARMONY" (criterion "SENSITIVITY" b2 x)).
  { intros x. unfold criterion. simpl. repeat split; reflexivity. }
  assert (M3 : tails_miss "ARMONY" T3).
  { unfold T3, criterion. simpl. repeat split; reflexivity. }
  assert (BA : forall t, starts_first "AUTHENTICITY" lead t)
    by (intros t; now apply blocked_lead).
  assert (BS : starts_first "SENSITIVITY" P2 T2).
  { apply each_suffix_app; [now apply blocked_lead |].
    apply criterion_blocked; auto; try apply M2;
      intro b; simpl; repeat split; reflexivity. }
  assert (BH : starts_first "HARMONY" P3 T3).
  { apply each_suffix_app; [apply each_suffix_app; [now apply blocked_lead |] |].
    - rewrite criterion_app.
      apply criterion_blocked; auto; try apply M2;
        intro b; simpl; repeat split; reflexivity.
    - apply criterion_blocked; auto; intro b; simpl; repeat split; reflexivity. }
  assert (W1 : forall word, In word ["SENSITIVITY"; "HARMONY"] ->
                 starts_first word (reason b1 +:+ sep1) T2).
  { intros word [<-|[<-|[]]]; apply reason_free; auto; apply M2. }
  assert (W2 : forall word, In word ["HARMONY"] ->
                 starts_first word (reason b2 +:+ sep2) T3).
  { intros word [<-|[]]. now apply reason_free. }
  assert (O : Ollama.parse_evaluation text
              = Ok (expected (PFloat f1) (PStr (reason b1)) (PFloat f2)
                      (PStr (reason b2)) (PFloat f3) (PStr (reason b3)))).
  { assert (F1 : parse_field (score_pattern "AUTHENTICITY") "authenticity_score" text
                 = PFloat f1).
    { rewrite E1, <- Hc1. now apply score_found. }
    assert (F2 : parse_field (reason_pattern "AUTHENTICITY:" stop_authenticity)
                   "authenticity_reason" text = PStr (reason b1)).
    { rewrite E1.
      apply (reason_found_mid "AUTHENTICITY" stop_authenticity
               ["SENSITIVITY"; "HARMONY"] true); auto.
      - exact stop_authenticity_here.
      - intros nls c H. exact (stop_authenticity_at nls _ c H). }
    assert (F3 : parse_field (score_pattern "SENSITIVITY") "sensitivity_score" text
                 = PFloat f2).
    { rewrite E2, <- Hc2. now apply score_found. }
    assert (F4 : parse_field (reason_pattern "SENSITIVITY:" stop_sensitivity)
                   "sensitivity_reason" text = PStr (reason b2)).
    { rewrite E2.
      apply (reason_found_mid "SENSITIVITY" stop_sensitivity ["HARMONY"] true); auto.
      - exact stop_sensitivity_here.
      - intros nls c H. exact (stop_sensitivity_at nls _ c H). }
    assert (F5 : parse_field (score_pattern "HARMONY") "harmony_score" text
                 = PFloat f3).
    { rewrite E3, <- Hc3. now apply score_found. }
    assert (F6 : parse_field (reason_pattern "HARMONY:" REnd) "harmony_reason" text
                 = PStr (reason b3)).
    { rewrite E3. now apply (reason_found_end "HARMONY"). }
    rewrite parse_evaluation_eq, ollama_patterns_eq. f_equal.
    unfold parse_fields, expected. cbn [fold_left].
    now rewrite F1, F2, F3, F4, F5, F6. }
  split; [exact O |]. split; [exact O |].
  assert (G : Gemini.parse_evaluation text
              = Ok (expected (PStr (integer_part (rating b1))) (PStr (reason b1))
                      (PStr (integer_part (rating b2))) (PStr (reason b2))
                      (PStr (integer_part (rating b3))) (PStr (reason b3)))).
  { assert (G1 : gemini_field (gemini_score_pattern "AUTHENTICITY") text
                 = PStr (integer_part (rating b1))).
    { rewrite E1. now apply gemini_score_found. }
    assert (G2 : gemini_field (gemini_reason_pattern "AUTHENTICITY" "SENSITIVITY") text
                 = PStr (reason b1)).
    { rewrite E1. apply (gemini_reason_found_mid "AUTHENTICITY" "SENSITIVITY"); auto.
      apply W1. simpl. auto. }
    assert (G3 : gemini_field (gemini_score_pattern "SENSITIVITY") text
                 = PStr (integer_part (rating b2))).
    { rewrite E2. now apply gemini_score_found. }
    assert (G4 : gemini_field (gemini_reason_pattern "SENSITIVITY" "HARMONY") text
                 = PStr (reason b2)).
    { rewrite E2. apply (gemini_reason_found_mid "SENSITIVITY" "HARMONY"); auto.
      apply W2. simpl. auto. }
    assert (G5 : gemini_field (gemini_score_pattern "HARMONY") text
                 = PStr (integer_part (rating b3))).
    { rewrite E3. now apply gemini_score_found. }
    assert (G6 : gemini_field (gemini_last_pattern "HARMONY") text = PStr (reason b3)).
    { rewrite E3. now apply gemini_reason_found_end. }
    rewrite gemini_parse_evaluation_eq, gemini_patterns_eq. f_equal.
    unfold gemini_fields, expected. cbn [fold_left].
    now rewrite G1, G2, G3, G4, G5, G6. }
  split; [exact G |]. intros D1 D2 D3. rewrite G.
  now rewrite !integer_part_whole.
Qed.

Lemma documented_response_recovered_witness :
  (Ollama.parse_evaluation "AUTHENTICITY: 5
Reason: Spot on.
SENSITIVITY: 2
Reason: Ignores dietary rule.
HARMONY: 3
Reason: Mixed result."
   = Ok (expected (PFloat (float_of_Z 5)) (PStr "Spot on.")
           (PFloat (float_of_Z 2)) (PStr "Ignores dietary rule.")
           (PFloat (float_of_Z 3)) (PStr "Mixed result.")) /\
   Gemini.parse_evaluation "AUTHENTICITY: 5
Reason: Spot on.
SENSITIVITY: 2
Reason: Ignores dietary rule.
HARMONY: 3
Reason: Mixed result."
   = Ok (expected (PStr "5") (PStr "Spot on.") (PStr "2")
           (PStr "Ignores dietary rule.") (PStr "3") (PStr "Mixed result."))) /\
  (Ollama.parse_evaluation
     "AUTHENTICITY:4.5Reason:Good.SENSITIVITY:2Reason:Fine.HARMONY:3Reason:Fair."
   = Ok (expected (PFloat (float_of_decimal 45 1)) (PStr "Good.")
           (PFloat (float_of_Z 2)) (PStr "Fine.")
           (PFloat (float_of_Z 3)) (PStr "Fair.")) /\
   Gemini.parse_evaluation
     "AUTHENTICITY:4.5Reason:Good.SENSITIVITY:2Reason:Fine.HARMONY:3Reason:Fair."
   = Ok (expected (PStr "4") (PStr "Good.") (PStr "2") (PStr "Fine.")
           (PStr "3") (PStr "Fair."))).
Proof.
  split.
  - destruct (documented_response_recovered ""
                (Block " " "5" nl " " "Spot on.") nl
                (Block " " "2" nl " " "Ignores dietary rule.") nl
                (Block " " "3" nl " " "Mixed result.") "")
      as (f1 & f2 & f3 & Hf1 & Hf2 & Hf3 & HO & _ & _ & HG).
    + unfold documented, block_ok, blank, tidy. repeat split; reflexivity.
    + repeat split; reflexivity.
    + vm_compute in Hf1, Hf2, Hf3.
      injection Hf1 as <-. injection Hf2 as <-. injection Hf3 as <-.
      split; [exact HO |]. apply HG; reflexivity.
  - destruct (documented_response_recovered ""
                (Block "" "4.5" "" "" "Good.") ""
                (Block "" "2" "" "" "Fine.") ""
                (Block "" "3" "" "" "Fair.") "")
      as (f1 & f2 & f3 & Hf1 & Hf2 & Hf3 & HO & _ & HG & _).
    + unfold documented, block_ok, blank, tidy. repeat split; reflexivity.
    + repeat split; reflexivity.
    + vm_compute in Hf1, Hf2, Hf3.
      injection Hf1 as <-. injection Hf2 as <-. injection Hf3 as <-.
      split; [exact HO | exact HG].
Defined.

(** A response in the documented format whose first reason mentions a later
    label is not parsed back: the reason is cut before the word. And the
    Gemini parser keeps only the digits before the decimal point of a
    rating. *)
Lemma reason_mentions_label_counterexample :
  documented "" (Block " " "4.5" nl " " "Great harmony of flavors.") nl
    (Block " " "2" nl " " "Fine.") nl (Block " " "3" nl " " "Good.") "" /\
  response "" (Block " " "4.5" nl " " "Great harmony of flavors.") nl
    (Block " " "2" nl " " "Fine.") nl (Block " " "3" nl " " "Good.") ""
  = "AUTHENTICITY: 4.5
Reason: Great harmony of flavors.
SENSITIVITY: 2
Reason: Fine.
HARMONY: 3
Reason: Good." /\
  exists d g,
    Ollama.parse_evaluation "AUTHENTICITY: 4.5
Reason: Great harmony of flavors.
SENSITIVITY: 2
Reason: Fine.
HARMONY: 3
Reason: Good." = Ok d /\
    d !! "authenticity_reason" = Some (PStr "Great") /\
    Gemini.parse_evaluation "AUTHENTICITY: 4.5
Reason: Great harmony of flavors.
SENSITIVITY: 2
Reason: Fine.
HARMONY: 3
Reason: Good." = Ok g /\
    g !! "authenticity_score" = Some (PStr "4").
Proof.
  split.
  { unfold documented, block_ok, blank, tidy.
    repeat split; try reflexivity; discriminate. }
  split; [reflexivity |].
  eexists _, _. split; [apply parse_evaluation_eq |]. split; [reflexivity |].
  split; [apply gemini_parse_evaluation_eq | reflexivity].
Qed.

(** ** The first numeric token of a reason *)

(** [\d+(?:\.\d+)?] takes the whole token, whatever follows it. *)
Lemma rmatch_token fl tok rest cap k res :
  number_token tok = true -> token_ends tok rest -> k rest cap = Some res ->
  rmatch fl number (tok +:+ rest) cap k = Some res.
Proof.
  intros Ht [Hd He] Hk.
  assert (Hd' : stops (cmatch fl CDigit) rest) by exact Hd.
  unfold number.
  destruct (number_token_shape tok Ht)
    as [(a & w & -> & Ha & Hw)|(a & w & a2 & w2 & -> & Ha & Hw & Ha2 & Hw2)].
  - fwd. apply (rmatch_plus_max fl CDigit a w rest); auto. cbv beta.
    rewrite rmatch_opt_skip; [assumption |].
    cbn [rmatch]. destruct rest as [|c rest]; [reflexivity |].
    cbn [match_lit]. destruct (chr_eq fl "." c) eqn:E; [| reflexivity].
    apply (chr_eq_dot fl c) in E. subst c.
    destruct rest as [|a' t]; [reflexivity |]. cbn [cmatch].
    rewrite (He (ltac:(simpl; now rewrite Ha, Hw)) a' t eq_refl). reflexivity.
  - rewrite str_app_assoc. fwd.
    apply (rmatch_plus_max fl CDigit a w (String dot (String a2 w2) +:+ rest)); auto.
    { reflexivity. }
    cbv beta. cbn [rmatch].
    change (String dot (String a2 w2) +:+ rest)
      with ("." +:+ String a2 (w2 +:+ rest)).
    rewrite match_lit_self. cbn [cmatch]. rewrite Ha2.
    now rewrite (star_greedy_max is_digit w2 rest _ res Hw2 Hd Hk).
Qed.

Lemma number_skip fl a t : is_digit a = false -> match_at fl number (String a t) = None.
Proof. intros H. unfold match_at, number. cbn [rmatch cmatch]. now rewrite H. Qed.

Lemma re_search_first text tok :
  first_number text tok ->
  exists m, re_search no_flags number text = Some m /\ group0 m = tok.
Proof.
  intros (pre & post & -> & Hp & Ht & He).
  rewrite re_search_skip.
  - rewrite (re_search_here _ _ _ post None).
    + eexists. split; [reflexivity |]. apply consumed_cancel.
    + unfold match_at. now apply rmatch_token.
  - apply (each_suffix_chars _ (fun a => negb (is_digit a))); [| exact Hp].
    intros c t Hc. apply number_skip. now apply negb_true_iff.
Qed.

Lemma re_search_no_digit text :
  no_digit text -> re_search no_flags number text = None.
Proof.
  unfold no_digit. induction text as [|a t IH]; [reflexivity |].
  cbn [str_forall]. intros H. apply andb_true_iff in H as [Ha Ht].
  apply negb_true_iff in Ha. cbn [re_search]. now rewrite (number_skip _ a t Ha), IH.
Qed.

Lemma repaired_first text tok :
  first_number text tok ->
  exists f, py_float tok = Some f /\
            repaired (PStr text) = if float_between 1 f 5 then PFloat f else PNone.
Proof.
  intros H. pose proof H as (pre & post & _ & _ & Ht & _).
  destruct (re_search_first text tok H) as (m & E & Hm).
  destruct (number_token_float tok Ht) as [f Hf].
  exists f. split; [exact Hf |]. unfold repaired. now rewrite E, Hm, Hf.
Qed.

Lemma repaired_no_digit text : no_digit text -> repaired (PStr text) = PNone.
Proof. intros H. unfold repaired. now rewrite re_search_no_digit. Qed.

Lemma span_exists (p : ascii -> bool) s :
  exists w r, s = w +:+ r /\ str_forall p w = true /\ stops p r.
Proof.
  induction s as [|a s (w & r & -> & Hw & Hr)].
  - now exists "", "".
  - destruct (p a) eqn:E.
    + exists (String a w), r. cbn [str_forall]. now rewrite E.
    + now exists "", (String a (w +:+ r)).
Qed.

(** Every text has no digit or has a first numeric token. *)
Lemma first_number_total text :
  no_digit text \/ exists tok, first_number text tok.
Proof.
  destruct (span_exists (fun a => negb (is_digit a)) text) as (pre & r & -> & Hp & Hr).
  destruct r as [|a r].
  { left. now rewrite str_app_nil_r. }
  right. cbn [stops] in Hr. apply negb_false_iff in Hr.
  destruct (span_exists is_digit r) as (w & r1 & -> & Hw & Hr1).
  assert (Hint : number_token (String a w) = true) by now apply number_token_int.
  assert (Hall : str_forall is_digit (String a w) = true)
    by (cbn [str_forall]; now rewrite Hr, Hw).
  assert (Plain : (forall a' t, r1 = String dot (String a' t) -> is_digit a' = false) ->
                  first_number (pre +:+ String a (w +:+ r1)) (String a w)).
  { intros Hn. exists pre, r1. repeat split; auto. }
  destruct r1 as [|c [|a2 r2]];
    [exists (String a w); apply Plain; discriminate
    |exists (String a w); apply Plain; discriminate |].
  destruct (Ascii.eqb c dot) eqn:Ec.
  2:{ exists (String a w). apply Plain. intros a' t [= -> _ _].
      now rewrite Ascii.eqb_refl in Ec. }
  apply Ascii.eqb_eq in Ec. subst c.
  destruct (is_digit a2) eqn:E2.
  2:{ exists (String a w). apply Plain. now intros a' t [= <- _]. }
  destruct (span_exists is_digit r2) as (w2 & post & -> & Hw2 & Hpost).
  exists (String a w +:+ String dot (String a2 w2)), pre, post.
  split; [| split; [exact Hp | split; [now apply number_token_dec |]]].
  - f_equal. now rewrite !str_app_assoc.
  - split; [exact Hpost |]. intros H. exfalso.
    rewrite str_forall_app in H. apply andb_true_iff in H as [_ H].
    cbn [str_forall] in H. discriminate.
Qed.

(** C4 *)
(** C4 (amended): the validator's repair. For a record of the parser's shape
    and a criterion whose score is null or outside [1,5] (below 1 or above
    5), [validate_and_fix_scores] returns without raising, leaves the reason
    as it was and leaves a score that is null or within [1,5]. The score is
    taken from the first numeric token of the reason, which is the first run
    of digits together with a decimal part that follows at once: when the
    value of the token lies in [1,5] it becomes the score, otherwise the
    score is null; it is null too when the reason holds no digit (the empty
    reason included) or is absent. Every reason is in one of these cases. A
    sign or a dot in front of the digits is no part of the token. *)
Theorem validate_repairs (d : gmap string pyval) (ks kr : string)
    (score reason : pyval) :
  parsed_record d -> In (ks, kr) criteria ->
  d !! ks = Some score -> d !! kr = Some reason ->
  null_or_outside score = true ->
  exists d', Ollama.validate_and_fix_scores d = Ok d' /\
             Gpt4oMini.validate_and_fix_scores d = Ok d' /\
             d' !! kr = Some reason /\
             (exists v, d' !! ks = Some v /\ valid_score v) /\
             (forall text tok, reason = PStr text -> first_number text tok ->
                exists f, py_float tok = Some f /\
                  d' !! ks = Some (if float_between 1 f 5 then PFloat f else PNone)) /\
             (forall text, reason = PStr text -> no_digit text ->
                d' !! ks = Some PNone) /\
             (reason = PNone -> d' !! ks = Some PNone) /\
             (reason = PNone \/
              exists text, reason = PStr text /\
                (no_digit text \/ exists tok, first_number text tok)).
Proof.
  intros Hd Hin Hs Hr Hbad. exists (validated d).
  change Gpt4oMini.validate_and_fix_scores with Ollama.validate_and_fix_scores.
  rewrite (validate_wf d Hd).
  destruct (validated_lookup d ks kr Hin) as [H1 H2].
  assert (E : validated d !! ks = Some (repaired reason)).
  { rewrite H1. unfold fixed_score. now rewrite Hs, Hr, Hbad. }
  do 2 (split; [reflexivity |]). split; [now rewrite H2 |].
  split; [exists (repaired reason); split; [exact E | apply repaired_valid] |].
  split; [| split; [| split]].
  - intros text tok -> Hf. destruct (repaired_first text tok Hf) as (f & Hp & Hv).
    exists f. split; [exact Hp |]. now rewrite E, Hv.
  - intros text -> Hn. now rewrite E, repaired_no_digit.
  - intros ->. exact E.
  - destruct (Hd ks kr Hin) as (s0 & r0 & _ & _ & Hr0 & [->|[text ->]]);
      rewrite Hr in Hr0; injection Hr0 as ->; [now left | right].
    exists text. split; [reflexivity | apply first_number_total].
Qed.

Lemma p4_record_parsed score reason : is_score score -> parsed_record (p4_record score reason).
Proof.
  intros Hs ks kr [[= <- <-]|[[= <- <-]|[[= <- <-]|[]]]]; unfold p4_record;
    do 2 eexists;
    (split; [map_lookup; reflexivity |]);
    (split; [first [exact Hs | now left] |]);
    (split; [map_lookup; reflexivity |]);
    first [now left | right; eauto].
Qed.

Lemma validate_repairs_witness :
  exists d', Ollama.validate_and_fix_scores
               (p4_record PNone "I'd give this a 3 for authenticity") = Ok d' /\
             d' !! "authenticity_score" = Some (PFloat (float_of_Z 3)).
Proof.
  destruct (validate_repairs
              (p4_record PNone "I'd give this a 3 for authenticity")
              "authenticity_score" "authenticity_reason" PNone
              (PStr "I'd give this a 3 for authenticity"))
    as (d' & H1 & _ & _ & _ & H2 & _).
  - apply p4_record_parsed. now left.
  - simpl. auto.
  - reflexivity.
  - reflexivity.
  - reflexivity.
  - exists d'. split; [exact H1 |].
    destruct (H2 "I'd give this a 3 for authenticity" "3" eq_refl) as (f & Hf & ->).
    + exists "I'd give this a ", " for authenticity".
      repeat split; try reflexivity; discriminate.
    + vm_compute in Hf. injection Hf as <-. reflexivity.
Defined.

(** A score of 7 with a reason that holds no number in [1,5] is not always
    nulled: the sign of "-3" and the dot of ".5" are no part of the numeric
    token, so the validator repairs the score to 3 and to 5. *)
Lemma signed_number_counterexample :
  (exists d', Ollama.validate_and_fix_scores
                (p4_record (PFloat (float_of_Z 7)) "Off by -3 points") = Ok d' /\
              d' !! "authenticity_score" = Some (PFloat (float_of_Z 3))) /\
  (exists d', Ollama.validate_and_fix_scores
                (p4_record (PFloat (float_of_Z 7)) "Only a .5 chance this is authentic")
              = Ok d' /\
              d' !! "authenticity_score" = Some (PFloat (float_of_Z 5))).
Proof.
  assert (H7 : is_score (PFloat (float_of_Z 7)))
    by (right; eexists; split; [reflexivity | discriminate]).
  split; eexists; (split; [apply validate_wf, p4_record_parsed, H7 |]);
    (rewrite (proj1 (validated_lookup _ "authenticity_score" "authenticity_reason"
                       (or_introl eq_refl))));
    unfold fixed_score, p4_record; map_lookup; reflexivity.
Qed.

(** ** The key file *)

Lemma lstrip_blank s : blank s -> lstrip s = "".
Proof.
  unfold blank. induction s as [|a s IH]; [reflexivity |]. cbn [str_forall lstrip].
  intros H. apply andb_true_iff in H as [-> H]. auto.
Qed.

Lemma strip_blank s : blank s -> strip s = "".
Proof. intros H. unfold strip. now rewrite lstrip_blank. Qed.

Lemma lstrip_cases s : blank s \/ starts_with not_space (lstrip s) = true.
Proof.
  unfold blank. induction s as [|a s IH]; [now left |]. cbn [str_forall lstrip].
  destruct (is_space a) eqn:E; [exact IH |].
  right. cbn [starts_with]. unfold not_space. now rewrite E.
Qed.

Lemma strip_empty s : strip s = "" -> blank s.
Proof.
  unfold strip. destruct (lstrip_cases s) as [H|H]; [auto |].
  destruct (lstrip s) as [|a t]; [discriminate |]. cbn [starts_with] in H.
  unfold not_space in H. apply negb_true_iff in H. cbn [rstrip]. rewrite H.
  destruct (rstrip t); discriminate.
Qed.

Lemma read_key_ready assign_first api_key_path key configured :
  key_read key -> (read_key assign_first api_key_path key configured).1 = Ready tt.
Proof.
  intros (text & -> & H). unfold read_key.
  destruct (strip text) as [|a t] eqn:E; [| reflexivity].
  exfalso. now apply H, strip_empty.
Qed.

Lemma read_key_fails assign_first api_key_path key configured :
  ~ key_read key ->
  exists e, (read_key assign_first api_key_path key configured).1 = Fails e.
Proof.
  intros H. unfold read_key. destruct key as [text|[c m]].
  - destruct (strip text) as [|a t] eqn:E; [cbn; eauto |].
    exfalso. apply H. exists text. split; [reflexivity |].
    intros Hb. apply strip_blank in Hb. congruence.
  - destruct c; cbn; eauto.
Qed.

Lemma gemini_main_ready key configured llm rows :
  key_read key ->
  GeminiIO.main key configured llm rows
  = save_after (Gemini.evaluate_recipes llm rows) GeminiIO.save_to_csv.
Proof.
  intros H. unfold GeminiIO.main, GeminiIO.init.
  pose proof (read_key_ready false "../API_KEY/API_KEY_gemini.txt" key configured H) as E.
  destruct (read_key _ _ _ _) as [[[]|e] k]; [reflexivity | discriminate].
Qed.

Lemma gemini_main_fails key configured llm rows :
  ~ key_read key -> exists e, GeminiIO.main key configured llm rows = InitRaised e.
Proof.
  intros H. unfold GeminiIO.main, GeminiIO.init.
  destruct (read_key_fails false "../API_KEY/API_KEY_gemini.txt" key configured H)
    as [e E].
  destruct (read_key _ _ _ _) as [[[]|e'] k]; [discriminate | eauto].
Qed.

Lemma gpt_main_ready api_key_path key api_key llm rows :
  key_read key ->
  Gpt4oMiniIO.main api_key_path key api_key llm rows
  = save_after (Gpt4oMini.evaluate_recipes llm rows) Gpt4oMiniIO.save_to_csv.
Proof.
  intros H. unfold Gpt4oMiniIO.main, Gpt4oMiniIO.init.
  pose proof (read_key_ready true api_key_path key api_key H) as E.
  destruct (read_key _ _ _ _) as [[[]|e] k]; [reflexivity | discriminate].
Qed.

Lemma gpt_main_fails api_key_path key api_key llm rows :
  ~ key_read key ->
  exists e, Gpt4oMiniIO.main api_key_path key api_key llm rows = InitRaised e.
Proof.
  intros H. unfold Gpt4oMiniIO.main, Gpt4oMiniIO.init.
  destruct (read_key_fails true api_key_path key api_key H) as [e E].
  destruct (read_key _ _ _ _) as [[[]|e'] k]; [discriminate | eauto].
Qed.


(** * Beyond the claims *)

(** ** The parser returns six keys *)

Lemma gemini_field_shape p text : is_reason (gemini_field p text).
Proof.
  unfold gemini_field. destruct (re_search flags_si p text); [right; eauto | now left].
Qed.

(** X1 *)
(** X1: [parse_evaluation] of the three scripts returns for every text,
    never raising (a capture group that took no part in a match does not
    occur). The result has exactly the six keys; in the Ollama and
    GPT-4o-mini scripts a score is null or a float that is not NaN and a
    reason is null or a string, in the Gemini script every value is null or
    a string. *)
Theorem parse_evaluation_total (text : string) :
  exists d g,
    Ollama.parse_evaluation text = Ok d /\
    Gpt4oMini.parse_evaluation text = Ok d /\
    Gemini.parse_evaluation text = Ok g /\
    dom d = six_keys /\ dom g = six_keys /\
    parsed_record d /\
    (forall key v, g !! key = Some v -> is_reason v).
Proof.
  exists (parse_fields Ollama.patterns text), (gemini_fields Gemini.patterns text).
  change Gpt4oMini.parse_evaluation with Ollama.parse_evaluation.
  split; [apply parse_evaluation_eq |]. split; [apply parse_evaluation_eq |].
  split; [apply gemini_parse_evaluation_eq |].
  split; [| split; [| split; [apply parse_fields_parsed |]]].
  - unfold parse_fields, Ollama.patterns, six_keys. cbn [fold_left list_to_set].
    rewrite !dom_insert_L, dom_empty_L. set_solver.
  - unfold gemini_fields, Gemini.patterns, six_keys. cbn [fold_left list_to_set].
    rewrite !dom_insert_L, dom_empty_L. set_solver.
  - unfold gemini_fields, Gemini.patterns. cbn [fold_left]. intros key v H.
    repeat (apply lookup_insert_Some in H as [[_ <-]|[_ H]];
            [apply gemini_field_shape |]).
    now rewrite lookup_empty in H.
Qed.

(** ** What the validator leaves alone *)

Lemma fix_score_dom ks d d1 : Ollama.fix_score d ks = Ok d1 -> dom d1 = dom d.
Proof.
  rewrite fix_score_plan. unfold fix_plan, getitem.
  destruct (d !! ks) as [score|] eqn:E; [| discriminate]. cbn [bind].
  destruct (none_or_outside score 1 5) as [[|]|]; cbn [bind]; try discriminate.
  - destruct (match d !! str_replace "score" "reason" ks with
              | Some v => Ok v | None => Raise (KeyError (str_replace "score" "reason" ks))
              end) as [text|]; cbn [bind]; [| discriminate].
    destruct (truthy text).
    + destruct (re_search_val no_flags number text); cbn [bind]; [| discriminate].
      intros [= <-]. apply dom_insert_lookup_L. rewrite E. eauto.
    + intros [= <-]. apply dom_insert_lookup_L. rewrite E. eauto.
  - now intros [= <-].
Qed.

(** X2 *)
(** X2: whatever dictionary it is given, when [validate_and_fix_scores]
    returns, the result has the keys of the argument and every entry other
    than the three scores is as it was: reasons and any other key are never
    changed, added or removed. The GPT-4o-mini validator is the same
    function. *)
Theorem validate_changes_scores_only (d d' : gmap string pyval) :
  Ollama.validate_and_fix_scores d = Ok d' ->
  Gpt4oMini.validate_and_fix_scores d = Ok d' /\
  dom d' = dom d /\
  forall key, ~ In key Ollama.score_keys -> d' !! key = d !! key.
Proof.
  change Gpt4oMini.validate_and_fix_scores with Ollama.validate_and_fix_scores.
  intros H. split; [exact H |]. revert H.
  unfold Ollama.validate_and_fix_scores, Ollama.score_keys. cbn [for_each].
  destruct (Ollama.fix_score d "authenticity_score") as [d1|] eqn:E1;
    cbn [bind]; [| discriminate].
  destruct (Ollama.fix_score d1 "sensitivity_score") as [d2|] eqn:E2;
    cbn [bind]; [| discriminate].
  destruct (Ollama.fix_score d2 "harmony_score") as [d3|] eqn:E3;
    cbn [bind]; [| discriminate].
  intros [= <-]. split.
  - rewrite (fix_score_dom _ _ _ E3), (fix_score_dom _ _ _ E2).
    apply (fix_score_dom _ _ _ E1).
  - intros key Hk.
    rewrite (fix_score_frame _ _ _ key E3), (fix_score_frame _ _ _ key E2),
      (fix_score_frame _ _ _ key E1); [reflexivity | ..];
      intros ->; apply Hk; simpl; auto.
Qed.

Lemma validate_changes_scores_only_witness :
  dom (validated (p4_record PNone "a 3 of 5")) = dom (p4_record PNone "a 3 of 5") /\
  validated (p4_record PNone "a 3 of 5") !! "authenticity_reason"
  = Some (PStr "a 3 of 5").
Proof.
  destruct (validate_changes_scores_only (p4_record PNone "a 3 of 5")
              (validated (p4_record PNone "a 3 of 5"))) as (_ & Hd & Hk).
  - apply validate_wf, p4_record_parsed. now left.
  - split; [exact Hd |]. rewrite Hk; [reflexivity |].
    simpl. intros [H|[H|[H|[]]]]; discriminate.
Defined.

Lemma fix_score_settled d ks f :
  d !! ks = Some (PFloat f) -> float_between 1 f 5 = true ->
  Ollama.fix_score d ks = Ok d.
Proof.
  intros Hs Hf. unfold Ollama.fix_score, getitem. rewrite Hs. cbn [bind].
  now rewrite (float_between_settled f Hf).
Qed.

(** X3 *)
(** X3: a dictionary whose three scores are floats within [1,5] is returned
    as it is, without any exception: the reasons are not read, so they may
    be missing or hold any value. *)
Theorem validate_keeps_valid (d : gmap string pyval) :
  (forall ks, In ks Ollama.score_keys ->
     exists f, d !! ks = Some (PFloat f) /\ float_between 1 f 5 = true) ->
  Ollama.validate_and_fix_scores d = Ok d /\
  Gpt4oMini.validate_and_fix_scores d = Ok d.
Proof.
  change Gpt4oMini.validate_and_fix_scores with Ollama.validate_and_fix_scores.
  intros H. assert (E : Ollama.validate_and_fix_scores d = Ok d); [| now split].
  unfold Ollama.validate_and_fix_scores, Ollama.score_keys. cbn [for_each].
  destruct (H "authenticity_score") as (f1 & H1 & F1); [simpl; auto |].
  destruct (H "sensitivity_score") as (f2 & H2 & F2); [simpl; auto |].
  destruct (H "harmony_score") as (f3 & H3 & F3); [simpl; auto |].
  rewrite (fix_score_settled d _ f1 H1 F1). cbn [bind].
  rewrite (fix_score_settled d _ f2 H2 F2). cbn [bind].
  now rewrite (fix_score_settled d _ f3 H3 F3).
Qed.

Lemma validate_keeps_valid_witness :
  Ollama.validate_and_fix_scores
    (<["authenticity_score" := PFloat (float_of_Z 5)]>
     (<["sensitivity_score" := PFloat (float_of_Z 1)]>
     (<["harmony_score" := PFloat (float_of_Z 3)]> ∅)))
  = Ok (<["authenticity_score" := PFloat (float_of_Z 5)]>
        (<["sensitivity_score" := PFloat (float_of_Z 1)]>
        (<["harmony_score" := PFloat (float_of_Z 3)]> ∅))).
Proof.
  apply validate_keeps_valid.
  intros ks [<-|[<-|[<-|[]]]]; eexists; (split; [now map_lookup | reflexivity]).
Defined.

(** ** What the validator rejects *)

Lemma fix_score_rejects d ks :
  d !! ks = None \/ (exists s, d !! ks = Some (PStr s)) ->
  Ollama.fix_score d ks
  = Raise (match d !! ks with None => KeyError ks | Some _ => TypeError end).
Proof.
  unfold Ollama.fix_score, getitem. intros [->|[s ->]]; reflexivity.
Qed.

(** X4 *)
(** X4: [validate_and_fix_scores] never returns on a dictionary that lacks
    one of the three score keys or holds a string under one of them: it
    raises. When the key is the first one, ['authenticity_score'], the
    exception is [KeyError] for the missing key and [TypeError] for the
    string, which [score < 1] cannot compare with a number. *)
Theorem validate_rejects (d : gmap string pyval) (ks : string) :
  In ks Ollama.score_keys ->
  d !! ks = None \/ (exists s, d !! ks = Some (PStr s)) ->
  (exists e, Ollama.validate_and_fix_scores d = Raise e /\
             Gpt4oMini.validate_and_fix_scores d = Raise e) /\
  (ks = "authenticity_score" ->
   Ollama.validate_and_fix_scores d
   = Raise (match d !! ks with None => KeyError ks | Some _ => TypeError end)).
Proof.
  change Gpt4oMini.validate_and_fix_scores with Ollama.validate_and_fix_scores.
  intros Hin Hbad.
  assert (Hlast : forall d0, d0 !! ks = d !! ks ->
            exists e, Ollama.fix_score d0 ks = Raise e).
  { intros d0 E. rewrite fix_score_rejects by (now rewrite E). eauto. }
  unfold Ollama.validate_and_fix_scores, Ollama.score_keys. cbn [for_each].
  split.
  - destruct Hin as [<-|[<-|[<-|[]]]].
    + destruct (Hlast d eq_refl) as [e ->]. cbn [bind]. eauto.
    + destruct (Ollama.fix_score d "authenticity_score") as [d1|e] eqn:E1;
        cbn [bind]; [| eauto].
      destruct (Hlast d1) as [e ->]; [| cbn [bind]; eauto].
      now apply (fix_score_frame _ _ _ _ E1).
    + destruct (Ollama.fix_score d "authenticity_score") as [d1|e] eqn:E1;
        cbn [bind]; [| eauto].
      destruct (Ollama.fix_score d1 "sensitivity_score") as [d2|e] eqn:E2;
        cbn [bind]; [| eauto].
      destruct (Hlast d2) as [e ->]; [| cbn [bind]; eauto].
      rewrite (fix_score_frame _ _ _ _ E2), (fix_score_frame _ _ _ _ E1);
        [reflexivity | discriminate | discriminate].
  - intros ->. now rewrite (fix_score_rejects d _ Hbad).
Qed.

Lemma validate_rejects_witness :
  Ollama.validate_and_fix_scores (<["authenticity_score" := PStr "5"]> all_null)
  = Raise TypeError.
Proof.
  destruct (validate_rejects (<["authenticity_score" := PStr "5"]> all_null)
              "authenticity_score") as [_ H]; [simpl; auto | |].
  - right. exists "5". now map_lookup.
  - rewrite (H eq_refl). now map_lookup.
Defined.

(** ** Loops *)

Lemma for_each_app {A S : Type} (l1 l2 : list A) (body : S -> A -> py S) (s : S) :
  for_each (l1 ++ l2) body s = let* s1 := for_each l1 body s in for_each l2 body s1.
Proof.
  revert s. induction l1 as [|x l1 IH]; intros s; cbn [app for_each bind]; [reflexivity |].
  destruct (body s x) as [s'|e]; cbn [bind]; [apply IH | reflexivity].
Qed.

Lemma for_each_ext {A S : Type} (l : list A) (b1 b2 : S -> A -> py S) (s : S) :
  (forall s x, In x l -> b1 s x = b2 s x) -> for_each l b1 s = for_each l b2 s.
Proof.
  revert s. induction l as [|x l IH]; intros s H; cbn [for_each]; [reflexivity |].
  rewrite (H s x (or_introl eq_refl)).
  destruct (b2 s x) as [s'|e]; cbn [bind]; [| reflexivity].
  apply IH. intros s0 y Hy. apply H. now right.
Qed.

Lemma for_each_map {A B S : Type} (g : A -> B) (l : list A) (body : S -> B -> py S)
    (s : S) :
  for_each (map g l) body s = for_each l (fun s x => body s (g x)) s.
Proof.
  revert s. induction l as [|x l IH]; intros s; cbn [map for_each]; [reflexivity |].
  destruct (body s (g x)) as [s'|e]; cbn [bind]; [apply IH | reflexivity].
Qed.

Lemma for_each_flat_map {A B S : Type} (h : A -> list B) (l : list A)
    (body : S -> B -> py S) (s : S) :
  for_each (flat_map h l) body s = for_each l (fun s x => for_each (h x) body s) s.
Proof.
  revert s. induction l as [|x l IH]; intros s; cbn [flat_map for_each]; [reflexivity |].
  rewrite for_each_app.
  destruct (for_each (h x) body s) as [s'|e]; cbn [bind]; [apply IH | reflexivity].
Qed.

(** The index of [enumerate] is used for logging only. *)
Lemma for_each_enumerate1 {A S : Type} (l : list A) (body' : S -> nat * A -> py S)
    (body : S -> A -> py S) (s : S) :
  (forall s i x, body' s (i, x) = body s x) ->
  for_each (enumerate1 l) body' s = for_each l body s.
Proof.
  intros H. unfold enumerate1. generalize 1. revert s.
  induction l as [|x l IH]; intros s k; cbn [length seq combine for_each]; [reflexivity |].
  rewrite H. destruct (body s x) as [s'|e]; cbn [bind]; [apply IH | reflexivity].
Qed.

(** A loop whose body makes one call and appends one record. *)
Lemma for_each_emit {A : Type} (f : nat -> A -> gmap string pyval) (l : list A)
    (body : run -> A -> py run) (st : run) :
  (forall st x, In x l ->
     body st x = Ok (Run (results st ++ [f (calls st) x]) (S (calls st)))) ->
  for_each l body st
  = Ok (Run (results st ++ imap (fun i x => f (calls st + i) x) l)
          (calls st + length l)).
Proof.
  revert st f. induction l as [|x l IH]; intros st f H; cbn [for_each length].
  - cbn [imap]. rewrite app_nil_r, Nat.add_0_r. now destruct st.
  - rewrite (H st x (or_introl eq_refl)). cbn [bind].
    rewrite (IH _ f) by (intros; apply H; now right).
    cbn [results calls imap]. rewrite <- app_assoc. cbn [app].
    rewrite Nat.add_0_r. do 2 f_equal; [| lia].
    do 2 f_equal. apply imap_ext. intros i y _. cbn. f_equal. lia.
Qed.

Lemma lookup_entry {V : Type} (dflt : V) (d : gmap string V) key :
  is_Some (d !! key) -> d !! key = Some (entry dflt d key).
Proof. unfold entry. now intros [v ->]. Qed.

Lemma has_columns_entry row :
  has_columns row ->
  row !! "original_dish" = Some (column row "original_dish") /\
  row !! "variation" = Some (column row "variation") /\
  row !! "generated_recipe" = Some (column row "generated_recipe").
Proof.
  intros (Ha & Hb & Hc). unfold column. repeat split; now apply lookup_entry.
Qed.

(** ** The order of the records *)

(** The loop over the rows of the Ollama script, from any state. *)
Lemma ollama_loop (self : Ollama.RecipeEvaluator) (llm : collaborator)
    (rows : list (gmap string cell)) (st : run) :
  Forall has_columns rows ->
  for_each rows
    (fun st row =>
       let* _ := getitem row "original_dish" in
       let* _ := getitem row "variation" in
       for_each (Ollama.model_names self) (fun st model_name =>
         for_each iterations (Ollama.evaluate_once llm row model_name) st) st) st
  = Ok (Run (results st ++
             imap (fun i '(row, model_name, iteration) =>
                     ollama_record row model_name iteration
                       (Ollama.evaluate_recipe llm (calls st + i) model_name
                          (column row "original_dish") (column row "variation")
                          (column row "generated_recipe") iteration))
               (triples rows (Ollama.model_names self)))
          (calls st + length (triples rows (Ollama.model_names self)))).
Proof.
  intros Hrows. rewrite List.Forall_forall in Hrows. unfold triples.
  set (emit := fun (st : run) (t : gmap string cell * string * nat) =>
                 let '(row, model_name, iteration) := t in
                 Ollama.evaluate_once llm row model_name st iteration).
  rewrite (for_each_ext rows _
             (fun st row => for_each
                (flat_map (fun model_name =>
                   map (fun iteration => (row, model_name, iteration)) iterations)
                   (Ollama.model_names self)) emit st)).
  2:{ intros st0 row Hin.
      destruct (has_columns_entry row (Hrows row Hin)) as (H1 & H2 & _).
      rewrite (getitem_some _ _ _ H1), (getitem_some _ _ _ H2). cbn [bind].
      rewrite for_each_flat_map. apply for_each_ext. intros st' model_name _.
      now rewrite for_each_map. }
  rewrite <- (for_each_flat_map
                (fun row => flat_map (fun model_name =>
                   map (fun iteration => (row, model_name, iteration)) iterations)
                   (Ollama.model_names self)) rows emit).
  apply (for_each_emit
           (fun n '(row, model_name, iteration) =>
              ollama_record row model_name iteration
                (Ollama.evaluate_recipe llm n model_name (column row "original_dish")
                   (column row "variation") (column row "generated_recipe")
                   iteration))).
  intros st0 [[row model_name] iteration] Hin. unfold emit.
  apply in_flat_map in Hin as (row' & Hrow & Hin).
  apply in_flat_map in Hin as (m & _ & Hin).
  apply in_map_iff in Hin as (it & [= <- <- <-] & _).
  destruct (has_columns_entry row' (Hrows row' Hrow)) as (H1 & H2 & H3).
  now apply ollama_evaluate_once.
Qed.

Lemma ollama_rows_loop (self : Ollama.RecipeEvaluator) (llm : collaborator)
    (rows : list (gmap string cell)) :
  Ollama.evaluate_recipes self llm rows =
  let* st := for_each rows
    (fun st row =>
       let* _ := getitem row "original_dish" in
       let* _ := getitem row "variation" in
       for_each (Ollama.model_names self) (fun st model_name =>
         for_each iterations (Ollama.evaluate_once llm row model_name) st) st)
    (Run [] 0) in
  Ok (results st).
Proof.
  unfold Ollama.evaluate_recipes.
  now rewrite (for_each_enumerate1 rows _
                 (fun st row =>
                    let* _ := getitem row "original_dish" in
                    let* _ := getitem row "variation" in
                    for_each (Ollama.model_names self) (fun st model_name =>
                      for_each iterations (Ollama.evaluate_once llm row model_name) st)
                      st)) by reflexivity.
Qed.

(** X5 *)
(** X5: for rows that have the three columns, the Ollama [evaluate_recipes]
    returns the records in the order of its loops: row by row, for each row
    model by model, for each model the iterations 1 to 5. The record at
    position n (from 0) is built from the answer to the collaborator's n-th
    call, which is made for that record's row and model. *)
Theorem ollama_results_in_order (self : Ollama.RecipeEvaluator) (llm : collaborator)
    (rows : list (gmap string cell)) :
  Forall has_columns rows ->
  Ollama.evaluate_recipes self llm rows
  = Ok (ollama_results llm (Ollama.model_names self) rows).
Proof.
  intros Hrows. rewrite ollama_rows_loop, (ollama_loop self llm rows _ Hrows).
  reflexivity.
Qed.

Lemma ollama_results_in_order_witness :
  exists r1 r2,
    Ollama.evaluate_recipes {| Ollama.model_names := ["a"; "b"] |} llm_down [row0]
    = Ok (r1 ++ r2)%list /\
    length r1 = 5 /\ length r2 = 5 /\
    Forall (fun r => r !! "evaluator_model" = Some (PStr "a")) r1 /\
    Forall (fun r => r !! "evaluator_model" = Some (PStr "b")) r2.
Proof.
  eexists _, _. split.
  - rewrite (ollama_results_in_order {| Ollama.model_names := ["a"; "b"] |}
               llm_down [row0]) by (repeat constructor; apply row0_columns).
    unfold ollama_results, triples, iterations.
    cbn [flat_map map seq app Ollama.model_names imap compose].
    exact (eq_refl (Ok ([_; _; _; _; _] ++ [_; _; _; _; _])%list)).
  - repeat split; repeat constructor.
Defined.

(** The loop over the rows of the Gemini script, from any state. *)
Lemma gemini_loop (llm : collaborator) (rows : list (gmap string cell)) (st : run) :
  Forall has_columns rows ->
  for_each rows (fun st row => for_each iterations (Gemini.evaluate_once llm row) st) st
  = Ok (Run (results st ++
             imap (fun i '(row, iteration) =>
                     gemini_record row iteration
                       (Gemini.evaluate_recipe llm (calls st + i)
                          (column row "original_dish") (column row "variation")
                          (column row "generated_recipe") iteration))
               (flat_map (fun row => map (fun iteration => (row, iteration)) iterations)
                  rows))
          (calls st + length (flat_map (fun row =>
                                map (fun iteration => (row, iteration)) iterations) rows))).
Proof.
  intros Hrows. rewrite List.Forall_forall in Hrows.
  set (emit := fun (st : run) (t : gmap string cell * nat) =>
                 let '(row, iteration) := t in Gemini.evaluate_once llm row st iteration).
  rewrite (for_each_ext rows _
             (fun st row => for_each
                (map (fun iteration => (row, iteration)) iterations) emit st)).
  2:{ intros st0 row _. now rewrite for_each_map. }
  rewrite <- (for_each_flat_map
                (fun row => map (fun iteration => (row, iteration)) iterations) rows emit).
  apply (for_each_emit
           (fun n '(row, iteration) =>
              gemini_record row iteration
                (Gemini.evaluate_recipe llm n (column row "original_dish")
                   (column row "variation") (column row "generated_recipe")
                   iteration))).
  intros st0 [row iteration] Hin. unfold emit.
  apply in_flat_map in Hin as (row' & Hrow & Hin).
  apply in_map_iff in Hin as (it & [= <- <-] & _).
  destruct (has_columns_entry row' (Hrows row' Hrow)) as (H1 & H2 & H3).
  now apply gemini_evaluate_once.
Qed.

Lemma gemini_rows_loop (llm : collaborator) (rows : list (gmap string cell)) :
  Gemini.evaluate_recipes llm rows =
  let* st := for_each rows
    (fun st row => for_each iterations (Gemini.evaluate_once llm row) st) (Run [] 0) in
  Ok (results st).
Proof.
  unfold Gemini.evaluate_recipes.
  now rewrite (for_each_enumerate1 rows _
                 (fun st row => for_each iterations (Gemini.evaluate_once llm row) st))
    by reflexivity.
Qed.

(** X6 *)
(** X6: for rows that have the three columns, the Gemini [evaluate_recipes]
    returns five records per row, row by row with the iterations 1 to 5 in
    order, and the record at position n is built from the answer to the
    collaborator's n-th call. *)
Theorem gemini_results_in_order (llm : collaborator) (rows : list (gmap string cell)) :
  Forall has_columns rows ->
  Gemini.evaluate_recipes llm rows = Ok (gemini_results llm rows).
Proof.
  intros Hrows. rewrite gemini_rows_loop, (gemini_loop llm rows _ Hrows). reflexivity.
Qed.

Lemma gemini_results_in_order_witness :
  exists res, Gemini.evaluate_recipes llm_down [row0] = Ok res /\
    (fun r => r !! "iteration") <$> res
    = [Some (PInt 1); Some (PInt 2); Some (PInt 3); Some (PInt 4); Some (PInt 5)].
Proof.
  eexists. split.
  - apply (gemini_results_in_order llm_down [row0]).
    repeat constructor; apply row0_columns.
  - reflexivity.
Defined.

(** The loop over the rows of the GPT-4o-mini script, from any state. *)
Lemma gpt_loop (llm : collaborator) (rows : list (gmap string cell)) (st : run) :
  Forall has_model rows ->
  for_each rows (fun st row => Gpt4oMini.evaluate_row llm st (0, row)) st
  = Ok (Run (results st ++
             imap (fun i row =>
                     gpt_record row
                       (Gpt4oMini.evaluate_recipe llm (calls st + i)
                          (column row "original_dish") (column row "variation")
                          (column row "generated_recipe"))) rows)
          (calls st + length rows)).
Proof.
  intros Hrows. rewrite List.Forall_forall in Hrows.
  apply (for_each_emit
           (fun n row =>
              gpt_record row
                (Gpt4oMini.evaluate_recipe llm n (column row "original_dish")
                   (column row "variation") (column row "generated_recipe")))).
  intros st0 row Hin. destruct (Hrows row Hin) as [Hc [md Hm]].
  destruct (has_columns_entry row Hc) as (H1 & H2 & H3).
  now apply (gpt_evaluate_row llm st0 0 row md).
Qed.

Lemma gpt_rows_loop (llm : collaborator) (rows : list (gmap string cell)) :
  Gpt4oMini.evaluate_recipes llm rows =
  let* st := for_each rows (fun st row => Gpt4oMini.evaluate_row llm st (0, row))
               (Run [] 0) in
  Ok (results st).
Proof.
  unfold Gpt4oMini.evaluate_recipes.
  now rewrite (for_each_enumerate1 rows _
                 (fun st row => Gpt4oMini.evaluate_row llm st (0, row)))
    by reflexivity.
Qed.

(** X7 *)
(** X7: for rows that have the three columns and [model], the GPT-4o-mini
    [evaluate_recipes] returns one record per row, in the order of the rows:
    the n-th record is the n-th row with the answer to the n-th call, and
    no [evaluator_model] or [iteration] column is added. When the call
    raises, the record holds "Error in evaluation: " with the message for
    the provider's own error class and "Unexpected error in evaluation: "
    with the message for any other exception. *)
Theorem gpt_results_in_order (llm : collaborator) (rows : list (gmap string cell)) :
  Forall has_model rows ->
  Gpt4oMini.evaluate_recipes llm rows = Ok (gpt_results llm rows) /\
  length (gpt_results llm rows) = length rows /\
  forall n row, rows !! n = Some row ->
    exists r, gpt_results llm rows !! n = Some r /\
      (row !! "evaluator_model" = None -> r !! "evaluator_model" = None) /\
      (row !! "iteration" = None -> r !! "iteration" = None) /\
      match llm n "gpt-4o-mini"
              (Gpt4oMini.prompt (column row "original_dish") (column row "variation")
                 (column row "generated_recipe")) with
      | Returned text => r !! "evaluation" = Some (PStr text)
      | Raised true e => r !! "evaluation" = Some (PStr ("Error in evaluation: " +:+ e))
      | Raised false e =>
          r !! "evaluation" = Some (PStr ("Unexpected error in evaluation: " +:+ e))
      end.
Proof.
  intros Hrows. split; [| split].
  - rewrite gpt_rows_loop, (gpt_loop llm rows _ Hrows). reflexivity.
  - unfold gpt_results. apply length_imap.
  - intros n row Hn. unfold gpt_results. rewrite list_lookup_imap, Hn. cbn.
    eexists. split; [reflexivity |]. unfold gpt_record. cbv zeta.
    split; [| split].
    + intros H. map_lookup. now rewrite lookup_fmap, H.
    + intros H. map_lookup. now rewrite lookup_fmap, H.
    + unfold Gpt4oMini.evaluate_recipe.
      destruct (llm n _ _) as [text|[|] e]; now map_lookup.
Qed.

Lemma row0_model : has_model row0.
Proof. split; [apply row0_columns |]. unfold row0. map_lookup. eauto. Qed.

Lemma gpt_results_in_order_witness :
  exists r, Gpt4oMini.evaluate_recipes llm_down [row0] = Ok [r] /\
    r !! "evaluation" = Some (PStr "Unexpected error in evaluation: rate limited").
Proof.
  destruct (gpt_results_in_order llm_down [row0]) as (E & _ & _).
  - repeat constructor; apply row0_model.
  - eexists. split; [exact E | reflexivity].
Defined.

(** ** A row that lacks a column *)

(** X8 *)
(** X8: when a row lacks one of the columns [original_dish], [variation],
    [generated_recipe] and the rows before it have them, [evaluate_recipes]
    raises [KeyError] for the first missing column of that row, and the
    records made for the rows before are not returned. This holds for the
    Ollama script with at least one evaluator model, for the Gemini script,
    and for the GPT-4o-mini script when the rows up to that one have a
    [model] column. *)
Theorem missing_column_raises (self : Ollama.RecipeEvaluator) (llm : collaborator)
    (good : list (gmap string cell)) (row : gmap string cell)
    (rest : list (gmap string cell)) (key : string) :
  Forall has_columns good -> first_missing row = Some key ->
  Ollama.model_names self <> [] ->
  Ollama.evaluate_recipes self llm (good ++ row :: rest) = Raise (KeyError key) /\
  Gemini.evaluate_recipes llm (good ++ row :: rest) = Raise (KeyError key) /\
  (Forall has_model good -> is_Some (row !! "model") ->
   Gpt4oMini.evaluate_recipes llm (good ++ row :: rest) = Raise (KeyError key)).
Proof.
  intros Hgood Hkey Hm. unfold first_missing in Hkey.
  split; [| split].
  - rewrite ollama_rows_loop, for_each_app, (ollama_loop self llm good _ Hgood).
    cbn [bind for_each]. unfold getitem at 1 2.
    destruct (row !! "original_dish") as [od|] eqn:E1;
      [| injection Hkey as <-; reflexivity].
    destruct (row !! "variation") as [v|] eqn:E2;
      [| injection Hkey as <-; reflexivity].
    destruct (row !! "generated_recipe") as [gr|] eqn:E3; [discriminate |].
    injection Hkey as <-. cbn [bind].
    destruct (Ollama.model_names self) as [|m ms]; [congruence |].
    unfold iterations. cbn [seq for_each].
    unfold Ollama.evaluate_once, getitem. now rewrite E1, E2, E3.
  - rewrite gemini_rows_loop, for_each_app, (gemini_loop llm good _ Hgood).
    cbn [bind for_each]. unfold iterations. cbn [seq for_each].
    unfold Gemini.evaluate_once at 1. unfold getitem.
    destruct (row !! "original_dish") as [od|] eqn:E1;
      [| injection Hkey as <-; reflexivity].
    destruct (row !! "variation") as [v|] eqn:E2;
      [| injection Hkey as <-; reflexivity].
    destruct (row !! "generated_recipe") as [gr|] eqn:E3; [discriminate |].
    injection Hkey as <-. reflexivity.
  - intros Hgm [md Hmd].
    rewrite gpt_rows_loop, for_each_app, (gpt_loop llm good _ Hgm).
    cbn [bind for_each]. unfold Gpt4oMini.evaluate_row at 1. unfold getitem.
    rewrite Hmd. cbn [bind].
    destruct (row !! "original_dish") as [od|] eqn:E1;
      [| injection Hkey as <-; reflexivity].
    destruct (row !! "variation") as [v|] eqn:E2;
      [| injection Hkey as <-; reflexivity].
    destruct (row !! "generated_recipe") as [gr|] eqn:E3; [discriminate |].
    injection Hkey as <-. reflexivity.
Qed.

Lemma missing_column_raises_witness :
  Ollama.evaluate_recipes Ollama.default llm_down
    [row0; <["original_dish" := Some "Pizza"]> ∅] = Raise (KeyError "variation").
Proof.
  destruct (missing_column_raises Ollama.default llm_down [row0]
              (<["original_dish" := Some "Pizza"]> ∅) [] "variation") as [H _].
  - repeat constructor; apply row0_columns.
  - reflexivity.
  - discriminate.
  - exact H.
Defined.

(** ** One record per triple *)

Lemma Forall2_imap_r {A B : Type} (P : A -> B -> Prop) (f : nat -> A -> B) (l : list A) :
  (forall i x, l !! i = Some x -> P x (f i x)) -> Forall2 P l (imap f l).
Proof.
  revert f. induction l as [|x l IH]; intros f H; cbn [imap]; constructor.
  - apply (H 0 x). reflexivity.
  - apply IH. intros i y Hy. apply (H (S i) y). exact Hy.
Qed.

Lemma triples_in rows models row model_name iteration :
  In (row, model_name, iteration) (triples rows models) <->
  In row rows /\ In model_name models /\ 1 <= iteration <= 5.
Proof.
  unfold triples. rewrite in_flat_map. split.
  - intros (row' & Hr & H). apply in_flat_map in H as (m & Hm & H).
    apply in_map_iff in H as (it & [= <- <- <-] & Hi).
    repeat split; auto; now apply iterations_range.
  - intros (Hr & Hm & Hi). exists row. split; [exact Hr |].
    apply in_flat_map. exists model_name. split; [exact Hm |].
    apply in_map_iff. exists iteration. split; [reflexivity |].
    unfold iterations. apply in_seq. lia.
Qed.

Lemma triples_single rows model_name :
  triples rows [model_name]
  = map (fun '(row, iteration) => (row, model_name, iteration))
      (flat_map (fun row => map (fun iteration => (row, iteration)) iterations) rows).
Proof.
  unfold triples. induction rows as [|row rows IH]; [reflexivity |].
  cbn [flat_map]. rewrite app_nil_r, map_app, map_map. f_equal. exact IH.
Qed.

Lemma ollama_record_carries row model_name iteration text :
  carries (row, model_name, iteration) (ollama_record row model_name iteration text).
Proof.
  unfold carries, ollama_record. cbv zeta.
  split; [now map_lookup |]. split; [now map_lookup |].
  split; [map_lookup; eauto |].
  intros column Hc. rewrite !lookup_insert_ne; [apply lookup_fmap | ..];
    intros <-; apply Hc; repeat constructor.
Qed.

Lemma gemini_record_carries row iteration text :
  carries (row, "gemini-1.5-flash", iteration) (gemini_record row iteration text).
Proof.
  unfold carries, gemini_record. cbv zeta.
  split; [now map_lookup |]. split; [now map_lookup |].
  split; [map_lookup; eauto |].
  intros column Hc. rewrite !lookup_insert_ne; [apply lookup_fmap | ..];
    intros <-; apply Hc; repeat constructor.
Qed.

(** C8 *)
(** C8: for R rows that have the three columns and M evaluator models, the
    Ollama [evaluate_recipes] returns exactly R * M * 5 records, whatever
    the collaborator answers or raises, one per (row, evaluator model,
    iteration) triple: the list of the triples holds every row with every
    model and every iteration 1..5, and the record at each position is the
    one made for the triple at that position, with the triple's model and
    iteration, an evaluation, and the row's own columns passed through.
    The Gemini [evaluate_recipes], with its single evaluator, returns
    R * 1 * 5 records in the same correspondence. *)
Theorem record_count (self : Ollama.RecipeEvaluator) (llm : collaborator)
    (rows : list (gmap string cell)) :
  Forall has_columns rows ->
  (forall models row model_name iteration,
     In (row, model_name, iteration) (triples rows models) <->
     In row rows /\ In model_name models /\ 1 <= iteration <= 5) /\
  (exists res, Ollama.evaluate_recipes self llm rows = Ok res /\
               length res = length rows * length (Ollama.model_names self) * 5 /\
               Forall2 carries (triples rows (Ollama.model_names self)) res /\
               Forall (tagged rows (Ollama.model_names self)) res) /\
  (exists res, Gemini.evaluate_recipes llm rows = Ok res /\
               length res = length rows * 1 * 5 /\
               Forall2 carries (triples rows ["gemini-1.5-flash"]) res /\
               Forall (tagged rows ["gemini-1.5-flash"]) res).
Proof.
  intros Hrows. split; [intros; apply triples_in |]. split.
  - destruct (ollama_run self llm rows (tagged rows (Ollama.model_names self)) Hrows)
      as (res & E & L & T).
    { intros. now apply ollama_record_tagged. }
    exists res. split; [exact E |]. split; [exact L |]. split; [| exact T].
    rewrite ollama_rows_loop, (ollama_loop self llm rows _ Hrows) in E.
    cbn [bind results app] in E. injection E as <-.
    apply Forall2_imap_r. intros i [[row m] it] _. apply ollama_record_carries.
  - destruct (gemini_run llm rows (tagged rows ["gemini-1.5-flash"]) Hrows)
      as (res & E & L & T).
    { intros. now apply gemini_record_tagged. }
    exists res. split; [exact E |]. split; [exact L |]. split; [| exact T].
    rewrite gemini_rows_loop, (gemini_loop llm rows _ Hrows) in E.
    cbn [bind results app] in E. injection E as <-.
    rewrite triples_single. apply Forall2_fmap_l, Forall2_imap_r.
    intros i [row it] _. apply gemini_record_carries.
Qed.

Lemma record_count_witness :
  (exists res,
     Ollama.evaluate_recipes {| Ollama.model_names := ["a"; "b"] |} llm_down [row0]
     = Ok res /\ length res = 10 /\
     Forall2 carries (triples [row0] ["a"; "b"]) res) /\
  (exists res, Gemini.evaluate_recipes llm_down [row0] = Ok res /\ length res = 5 /\
               Forall2 carries (triples [row0] ["gemini-1.5-flash"]) res).
Proof.
  destruct (record_count {| Ollama.model_names := ["a"; "b"] |} llm_down [row0])
    as (_ & (r1 & E1 & L1 & C1 & _) & (r2 & E2 & L2 & C2 & _)).
  - constructor; [apply row0_columns | constructor].
  - split; eauto.
Defined.

(** ** The generator: ingredients and instructions between braces *)

Lemma char_in_app x y c : char_in (x +:+ y) c = char_in x c || char_in y c.
Proof.
  induction x as [|a x IH]; [reflexivity |]. cbn [String.append char_in].
  rewrite IH. now rewrite orb_assoc.
Qed.

Lemma chr_eq_open a : chr_eq flags_si "{" a = true -> a = "{"%char.
Proof. ascii_cases a. Qed.

Lemma chr_eq_close a : chr_eq flags_si "}" a = true -> a = "}"%char.
Proof. ascii_cases a. Qed.

Lemma match_lit_open t s : match_lit flags_si "{" t = Some s -> t = String "{" s.
Proof.
  destruct t as [|a t]; [discriminate |]. cbn [match_lit].
  destruct (chr_eq flags_si "{" a) eqn:E; [| discriminate].
  apply chr_eq_open in E as ->. now intros [= ->].
Qed.

Lemma match_lit_close t s : match_lit flags_si "}" t = Some s -> t = String "}" s.
Proof.
  destruct t as [|a t]; [discriminate |]. cbn [match_lit].
  destruct (chr_eq flags_si "}" a) eqn:E; [| discriminate].
  apply chr_eq_close in E as ->. now intros [= ->].
Qed.

Lemma braces_needs label t s' cap :
  matches flags_si (Generator.braces label) t None s' cap ->
  char_in t "{" = true /\ char_in t "}" = true.
Proof.
  unfold Generator.braces.
  intros (s1 & c1 & M1 & s2 & c2 & M2 & s3 & c3 & M3 & s4 & c4 & M4 & M5).
  apply matches_suffix in M1 as [w1 ->]. apply matches_suffix in M2 as [w2 ->].
  destruct M3 as [M3 _]. apply match_lit_open in M3 as ->.
  apply matches_suffix in M4 as [w4 ->].
  destruct M5 as [M5 _]. apply match_lit_close in M5 as ->.
  rewrite !char_in_app. cbn [char_in]. rewrite !char_in_app. cbn [char_in].
  rewrite !Ascii.eqb_refl. split; repeat (rewrite ?orb_true_r; cbn [orb]); reflexivity.
Qed.

Lemma braces_none label result :
  char_in result "{" = false \/ char_in result "}" = false ->
  re_search flags_si (Generator.braces label) result = None.
Proof.
  intros H. apply re_search_none. intros a t s' cap -> M.
  apply braces_needs in M as [M1 M2]. rewrite !char_in_app in H.
  rewrite M1, M2, !orb_true_r in H. destruct H; discriminate.
Qed.

(** X9 *)
(** X9: from a response that holds no opening brace, or no closing brace,
    [extract_ingredients_instructions] returns two empty strings: the two
    patterns require the lists between braces, which the prompt of
    [generate_recipe] does not ask for. *)
Theorem extract_without_braces (result : string) :
  char_in result "{" = false \/ char_in result "}" = false ->
  Generator.extract_ingredients_instructions result = Ok ("", "").
Proof.
  intros H. unfold Generator.extract_ingredients_instructions.
  now rewrite !braces_none.
Qed.

Lemma extract_without_braces_witness :
  Generator.extract_ingredients_instructions "ingredients:
rice,
2 eggs

instructions:
1. Boil the rice.
2. Fry the eggs." = Ok ("", "").
Proof. apply extract_without_braces. left. reflexivity. Defined.

Lemma match_lit_same w : forall lbl s,
  same_letters w lbl = true -> match_lit flags_si w (lbl +:+ s) = Some s.
Proof.
  induction w as [|c w IH]; intros [|a lbl] s H; try discriminate; [reflexivity |].
  cbn [same_letters] in H. apply andb_true_iff in H as [Hc Hw].
  cbn [String.append match_lit]. rewrite Hc. now apply IH.
Qed.

Lemma no_char_forall s c :
  char_in s c = false -> str_forall (fun a => negb (Ascii.eqb a c)) s = true.
Proof.
  induction s as [|a s IH]; [reflexivity |]. cbn [char_in str_forall].
  intros H. apply orb_false_iff in H as [H1 H2].
  rewrite (IH H2), andb_true_r. apply negb_true_iff.
  now rewrite Ascii.eqb_sym.
Qed.

(** The pattern at its label: the capture runs to the first closing
    brace. *)
Lemma braces_here label lbl ws body post :
  same_letters label lbl = true -> blank ws -> char_in body "}" = false ->
  match_at flags_si (Generator.braces label)
    (lbl +:+ ws +:+ "{" +:+ body +:+ "}" +:+ post) = Some (post, Some body).
Proof.
  intros Hl Hw Hb. unfold match_at, Generator.braces.
  cbn [rmatch]. rewrite (match_lit_same label lbl _ Hl).
  apply star_greedy_max; [exact Hw | reflexivity |].
  rewrite match_lit_self.
  rewrite star_lazy_skip; [| apply any_all |].
  - apply star_lazy_here. rewrite match_lit_self. unfold accept.
    now rewrite (consumed_app body ("}" +:+ post)).
  - apply (each_suffix_chars _ (fun a => negb (Ascii.eqb a "}")));
      [| now apply no_char_forall].
    intros c t Hc. cbn [match_lit].
    destruct (chr_eq flags_si "}" c) eqn:E; [| reflexivity].
    apply chr_eq_close in E as ->. discriminate.
Qed.

Lemma braces_found label lbl pre ws body post :
  same_letters label lbl = true ->
  starts_first label pre (lbl +:+ ws +:+ "{" +:+ body +:+ "}" +:+ post) ->
  blank ws -> char_in body "}" = false ->
  exists m,
    re_search flags_si (Generator.braces label)
      (pre +:+ lbl +:+ ws +:+ "{" +:+ body +:+ "}" +:+ post) = Some m /\
    group1_strip m = Ok (strip body).
Proof.
  intros Hl Hf Hw Hb. rewrite re_search_skip.
  - rewrite (re_search_here _ _ _ _ _ (braces_here label lbl ws body post Hl Hw Hb)).
    eexists. split; reflexivity.
  - revert Hf. apply each_suffix_impl. intros s Hs.
    unfold match_at, Generator.braces. cbn [rmatch]. now rewrite Hs.
Qed.

Lemma braces_group label result m :
  re_search flags_si (Generator.braces label) result = Some m ->
  exists cap, group1_strip m = Ok (strip cap).
Proof.
  intros H. apply re_search_group in H as [cap Hc]; [| reflexivity].
  exists cap. unfold group1_strip. now rewrite Hc.
Qed.

Lemma extract_total result :
  Generator.extract_ingredients_instructions result = Ok (extracted result).
Proof.
  unfold extracted, Generator.extract_ingredients_instructions.
  destruct (re_search flags_si (Generator.braces "ingredients:") result) as [m1|] eqn:E1;
    [destruct (braces_group _ _ _ E1) as [c1 ->] |];
    (destruct (re_search flags_si (Generator.braces "instructions:") result)
       as [m2|] eqn:E2; [destruct (braces_group _ _ _ E2) as [c2 ->] |]);
    reflexivity.
Qed.

(** X10 *)
(** X10: when the first "ingredients:" of a response, in any case of its
    letters, is followed by white space and a list between braces,
    [extract_ingredients_instructions] returns as ingredients the lines of
    the text up to the first closing brace, each stripped of white space
    and of leading digits, dots, spaces, asterisks and hyphens, blank lines
    dropped, joined by ", "; the same holds for "instructions:", joined by
    newlines. *)
Theorem extract_braced (pre lbl ws body post : string) :
  blank ws -> char_in body "}" = false ->
  (same_letters "ingredients:" lbl = true ->
   starts_first "ingredients:" pre (lbl +:+ ws +:+ "{" +:+ body +:+ "}" +:+ post) ->
   exists instructions,
     Generator.extract_ingredients_instructions
       (pre +:+ lbl +:+ ws +:+ "{" +:+ body +:+ "}" +:+ post)
     = Ok (join ", " (Generator.clean_lines (strip body)), instructions)) /\
  (same_letters "instructions:" lbl = true ->
   starts_first "instructions:" pre (lbl +:+ ws +:+ "{" +:+ body +:+ "}" +:+ post) ->
   exists ingredients,
     Generator.extract_ingredients_instructions
       (pre +:+ lbl +:+ ws +:+ "{" +:+ body +:+ "}" +:+ post)
     = Ok (ingredients, join nl (Generator.clean_lines (strip body)))).
Proof.
  intros Hw Hb.
  set (text := pre +:+ lbl +:+ ws +:+ "{" +:+ body +:+ "}" +:+ post).
  pose proof (extract_total text) as Ht. split; intros Hl Hf.
  - destruct (braces_found _ lbl pre ws body post Hl Hf Hw Hb) as (m & Hm & Hg).
    fold text in Hm. unfold Generator.extract_ingredients_instructions in *.
    rewrite Hm, Hg in *. cbn [bind] in *.
    destruct (match re_search flags_si (Generator.braces "instructions:") text with
              | Some m0 => group1_strip m0 | None => Ok "" end) as [j|];
      cbn [bind] in *; [eauto | discriminate].
  - destruct (braces_found _ lbl pre ws body post Hl Hf Hw Hb) as (m & Hm & Hg).
    fold text in Hm. unfold Generator.extract_ingredients_instructions in *.
    rewrite Hm, Hg in *.
    destruct (match re_search flags_si (Generator.braces "ingredients:") text with
              | Some m0 => group1_strip m0 | None => Ok "" end) as [i|];
      cbn [bind] in *; [eauto | discriminate].
Qed.

Lemma extract_braced_witness :
  exists instructions,
    Generator.extract_ingredients_instructions "Here it is.
Ingredients: {
- rice
- 2 eggs
}" = Ok ("rice, eggs", instructions).
Proof.
  apply (proj1 (extract_braced ("Here it is." +:+ nl) "Ingredients:" " " "
- rice
- 2 eggs
" "" eq_refl eq_refl)); [reflexivity |].
  unfold starts_first. cbn. repeat split; reflexivity.
Defined.

(** ** What the extracted texts never hold *)

Lemma forall_no_char s c :
  str_forall (fun a => negb (Ascii.eqb a c)) s = true -> char_in s c = false.
Proof.
  induction s as [|a s IH]; [reflexivity |]. cbn [char_in str_forall].
  intros H. apply andb_true_iff in H as [H1 H2]. apply negb_true_iff in H1.
  now rewrite (IH H2), Ascii.eqb_sym, H1.
Qed.

Lemma lstrip_forall p s : str_forall p s = true -> str_forall p (lstrip s) = true.
Proof.
  induction s as [|a s IH]; [reflexivity |]. cbn [lstrip].
  destruct (is_space a); [| auto]. cbn [str_forall]. intros H.
  apply andb_true_iff in H as [_ H]. auto.
Qed.

Lemma rstrip_forall p s : str_forall p s = true -> str_forall p (rstrip s) = true.
Proof.
  induction s as [|a s IH]; [reflexivity |]. cbn [rstrip str_forall].
  intros H. apply andb_true_iff in H as [Ha Hs]. specialize (IH Hs).
  destruct (rstrip s) as [|b t].
  - destruct (is_space a); [reflexivity |]. cbn [str_forall]. now rewrite Ha.
  - cbn [str_forall] in *. now rewrite Ha, IH.
Qed.

Lemma strip_forall p s : str_forall p s = true -> str_forall p (strip s) = true.
Proof. intros H. unfold strip. now apply rstrip_forall, lstrip_forall. Qed.

Lemma lstrip_chars_forall p chars s :
  str_forall p s = true -> str_forall p (lstrip_chars chars s) = true.
Proof.
  induction s as [|a s IH]; [reflexivity |]. cbn [lstrip_chars].
  destruct (char_in chars a); [| auto]. cbn [str_forall]. intros H.
  apply andb_true_iff in H as [_ H]. auto.
Qed.

Lemma lstrip_chars_starts chars s :
  starts_with (char_in chars) (lstrip_chars chars s) = false.
Proof.
  induction s as [|a s IH]; [reflexivity |]. cbn [lstrip_chars].
  destruct (char_in chars a) eqn:E; [exact IH | exact E].
Qed.

Lemma split_on_no_sep sep s :
  Forall (fun line => str_forall (fun a => negb (Ascii.eqb a sep)) line = true)
    (split_on sep s).
Proof.
  induction s as [|a s IH]; cbn [split_on]; [repeat constructor |].
  destruct (Ascii.eqb a sep) eqn:E; [constructor; [reflexivity | exact IH] |].
  destruct (split_on sep s) as [|line lines]; [repeat constructor; cbn; now rewrite E |].
  inversion IH as [|? ? H1 H2]; subst. constructor; [| assumption].
  cbn [str_forall]. now rewrite E, H1.
Qed.

Lemma split_on_line sep x :
  str_forall (fun a => negb (Ascii.eqb a sep)) x = true -> split_on sep x = [x].
Proof.
  induction x as [|a x IH]; [reflexivity |]. cbn [str_forall split_on].
  intros H. apply andb_true_iff in H as [Ha Hx]. apply negb_true_iff in Ha.
  now rewrite Ha, (IH Hx).
Qed.

Lemma split_on_cons sep x y :
  str_forall (fun a => negb (Ascii.eqb a sep)) x = true ->
  split_on sep (x +:+ String sep y) = x :: split_on sep y.
Proof.
  induction x as [|a x IH]; cbn [String.append str_forall split_on].
  - now rewrite Ascii.eqb_refl.
  - intros H. apply andb_true_iff in H as [Ha Hx]. apply negb_true_iff in Ha.
    now rewrite Ha, (IH Hx).
Qed.

(** [split] undoes [join] on lines that hold no separator. *)
Lemma split_join sep l :
  l <> [] ->
  Forall (fun line => str_forall (fun a => negb (Ascii.eqb a sep)) line = true) l ->
  split_on sep (join (String sep "") l) = l.
Proof.
  intros Hne H. induction H as [|x l Hx Hl IH]; [congruence |].
  destruct l as [|y l].
  - cbn. now apply split_on_line.
  - change (join (String sep "") (x :: y :: l))
      with (x +:+ String sep (join (String sep "") (y :: l))).
    rewrite (split_on_cons sep x _ Hx), IH; [reflexivity | discriminate].
Qed.

Lemma join_forall p sep l :
  str_forall p sep = true -> Forall (fun x => str_forall p x = true) l ->
  str_forall p (join sep l) = true.
Proof.
  intros Hs H. induction H as [|x l Hx Hl IH]; [reflexivity |].
  destruct l as [|y l]; [exact Hx |].
  change (join sep (x :: y :: l)) with (x +:+ sep +:+ join sep (y :: l)).
  now rewrite !str_forall_app, Hx, Hs, IH.
Qed.

Lemma clean_lines_forall p text :
  Forall (fun line => str_forall p line = true) (split_on newline text) ->
  Forall (fun item => str_forall p item = true) (Generator.clean_lines text).
Proof.
  unfold Generator.clean_lines. intros H.
  apply List.Forall_forall. intros item Hin.
  apply in_map_iff in Hin as (line & <- & Hin).
  apply list_elem_of_In, list_elem_of_filter in Hin as [_ Hin].
  apply list_elem_of_In in Hin.
  rewrite List.Forall_forall in H.
  now apply lstrip_chars_forall, strip_forall, H.
Qed.

Lemma clean_lines_starts text :
  Forall (fun item => starts_with (char_in numbering) item = false)
    (Generator.clean_lines text).
Proof.
  unfold Generator.clean_lines. apply List.Forall_forall. intros item Hin.
  apply in_map_iff in Hin as (line & <- & _). apply lstrip_chars_starts.
Qed.

(** X11 *)
(** X11: whatever the response, the ingredients that
    [extract_ingredients_instructions] returns hold no line break, and no
    line of the instructions begins with a digit, a dot, a space, an
    asterisk or a hyphen: a quantity at the head of a line is removed with
    the numbering. *)
Theorem extract_never (result ingredients instructions : string) :
  Generator.extract_ingredients_instructions result = Ok (ingredients, instructions) ->
  char_in ingredients newline = false /\
  Forall (fun line => starts_with (char_in numbering) line = false)
    (split_on newline instructions).
Proof.
  unfold Generator.extract_ingredients_instructions.
  destruct (match re_search flags_si (Generator.braces "ingredients:") result with
            | Some m => group1_strip m | None => Ok "" end) as [i|];
    cbn [bind]; [| discriminate].
  destruct (match re_search flags_si (Generator.braces "instructions:") result with
            | Some m => group1_strip m | None => Ok "" end) as [j|];
    cbn [bind]; [| discriminate].
  intros [= <- <-]. split.
  - apply forall_no_char, join_forall; [reflexivity |].
    apply clean_lines_forall, split_on_no_sep.
  - destruct (Generator.clean_lines j) as [|x l] eqn:E; [repeat constructor |].
    change nl with (String newline ""). rewrite split_join; [| discriminate |].
    + rewrite <- E. apply clean_lines_starts.
    + rewrite <- E. apply clean_lines_forall, split_on_no_sep.
Qed.

Lemma extract_never_witness :
  Generator.extract_ingredients_instructions "ingredients: {2 eggs
200 g flour}" = Ok ("eggs, g flour", "") /\
  char_in "eggs, g flour" newline = false.
Proof.
  split; [reflexivity |].
  apply (extract_never "ingredients: {2 eggs
200 g flour}" "eggs, g flour" ""). reflexivity.
Defined.

(** ** The run of the generator *)

Lemma generate_one_row llm dish variation st self :
  Generator.generate_one llm dish (st, self) variation
  = Ok (Run (results st ++
             [generated_row (Generator.model_name self) (Generator.index self) dish
                variation (Generator.generate_recipe self llm (calls st) dish variation)])
          (S (calls st)),
        advanced self 1).
Proof.
  unfold Generator.generate_one. rewrite extract_total.
  destruct (extracted _) as [i j] eqn:E. cbn [bind].
  unfold generated_row, advanced. rewrite E. cbn [fst snd].
  now rewrite Nat.add_1_r.
Qed.

Lemma generator_loop llm (l : list (string * string)) : forall st self,
  for_each l (fun s '(dish, variation) => Generator.generate_one llm dish s variation)
    (st, self)
  = Ok (Run (results st ++
             imap (fun i '(dish, variation) =>
                     generated_row (Generator.model_name self)
                       (Generator.index self + i) dish variation
                       (Generator.generate_recipe self llm (calls st + i) dish variation))
               l)
          (calls st + length l),
        advanced self (length l)).
Proof.
  induction l as [|[dish variation] l IH]; intros st self; cbn [for_each length imap].
  - rewrite app_nil_r, Nat.add_0_r. unfold advanced. rewrite Nat.add_0_r.
    now destruct st, self.
  - rewrite generate_one_row. cbn [bind]. rewrite IH.
    cbn [results calls]. rewrite <- app_assoc. cbn [app].
    rewrite !Nat.add_0_r. f_equal. f_equal; [f_equal | unfold advanced; cbn; f_equal; lia].
    + do 2 f_equal. apply imap_ext. intros i [d v] _.
      unfold Generator.generate_recipe, advanced, compose.
      cbn [Generator.model_name Generator.index calls].
      replace (Generator.index self + 1 + i) with (Generator.index self + S i) by lia.
      replace (S (calls st) + i) with (calls st + S i) by lia. reflexivity.
    + lia.
Qed.

Lemma pairs_length self :
  length (pairs self)
  = length (Generator.dishes self) * length (Generator.variations self).
Proof.
  unfold pairs. induction (Generator.dishes self) as [|d ds IH]; [reflexivity |].
  cbn [flat_map length]. rewrite length_app, length_map, IH. lia.
Qed.

Lemma generate_recipes_in_order_aux (self : Generator.RecipeGenerator)
    (llm : collaborator) :
  Generator.generate_recipes self llm
  = Ok (generated self llm,
        advanced self (length (Generator.dishes self)
                       * length (Generator.variations self))) /\
  length (generated self llm)
  = length (Generator.dishes self) * length (Generator.variations self).
Proof.
  split.
  - unfold Generator.generate_recipes.
    rewrite (for_each_ext (Generator.dishes self) _
               (fun s dish => for_each
                  (map (fun variation => (dish, variation)) (Generator.variations self))
                  (fun s '(dish, variation) =>
                     Generator.generate_one llm dish s variation) s))
      by (intros; now rewrite for_each_map).
    rewrite <- (for_each_flat_map
                  (fun dish => map (fun variation => (dish, variation))
                                 (Generator.variations self))).
    fold (pairs self). rewrite generator_loop. cbn [bind results calls app].
    now rewrite pairs_length.
  - unfold generated. now rewrite length_imap, pairs_length.
Qed.

(** X12 *)
(** X12: [generate_recipes] returns one record per (dish, variation) pair,
    dish by dish and for each dish variation by variation, whatever the
    collaborator answers or raises. The record at position n is made from
    the answer to the n-th call, or from "Error: " and the message when the
    call raised, and is numbered [self.index + n]; afterwards [self.index]
    has grown by the number of records, so that a second run continues the
    numbering. *)
Theorem generate_recipes_in_order (self : Generator.RecipeGenerator)
    (llm : collaborator) :
  Generator.generate_recipes self llm
  = Ok (generated self llm,
        advanced self (length (Generator.dishes self)
                       * length (Generator.variations self))) /\
  length (generated self llm)
  = length (Generator.dishes self) * length (Generator.variations self) /\
  forall n dish variation, pairs self !! n = Some (dish, variation) ->
    exists r, generated self llm !! n = Some r /\
      r !! "index" = Some (PInt (Z.of_nat (Generator.index self + n))) /\
      r !! "original_dish" = Some (PStr dish) /\
      r !! "variation" = Some (PStr variation) /\
      match llm n (Generator.model_name self) (Generator.prompt dish variation) with
      | Returned text => r !! "generated_recipe" = Some (PStr text)
      | Raised _ e => r !! "generated_recipe" = Some (PStr ("Error: " +:+ e))
      end.
Proof.
  destruct (generate_recipes_in_order_aux self llm) as [E L].
  split; [exact E |]. split; [exact L |].
  intros n dish variation Hn. unfold generated.
  rewrite list_lookup_imap, Hn. cbn. eexists. split; [reflexivity |].
  unfold generated_row, Generator.generate_recipe.
  repeat split; try now map_lookup.
  destruct (llm n _ _); now map_lookup.
Qed.

Lemma generate_recipes_in_order_witness :
  exists res self',
    Generator.generate_recipes Generator.default llm_down = Ok (res, self') /\
    length res = 800 /\ Generator.index self' = 801.
Proof.
  destruct (generate_recipes_in_order Generator.default llm_down) as (E & L & _).
  eexists _, _. split; [exact E |]. split; [exact L | reflexivity].
Defined.

(** ** The output files *)

Lemma writerows_ok fieldnames results : forall lines,
  Forall (fun record => wrong_fields fieldnames record = ∅) results ->
  writerows fieldnames results lines
  = Written (lines ++ (dict_to_list fieldnames <$> results)).
Proof.
  induction results as [|r results IH]; intros lines H; cbn [writerows fmap list_fmap].
  - now rewrite app_nil_r.
  - inversion H as [|? ? Hr Hrest]; subst.
    rewrite decide_True by exact Hr. rewrite (IH _ Hrest), <- app_assoc. reflexivity.
Qed.

Lemma writerows_bad fieldnames results : forall lines,
  Exists (fun record => wrong_fields fieldnames record <> ∅) results ->
  exists n wrong,
    writerows fieldnames results lines
    = WriteError (lines ++ (dict_to_list fieldnames <$> take n results)) wrong /\
    n < length results /\ wrong <> ∅.
Proof.
  induction results as [|r results IH]; intros lines H; [inversion H |].
  cbn [writerows]. destruct (decide (wrong_fields fieldnames r = ∅)) as [Hr|Hr].
  - inversion H as [? ? Hbad|? ? Hrest]; subst; [contradiction |].
    destruct (IH (lines ++ [dict_to_list fieldnames r])%list Hrest) as (n & wrong & E & Hn & Hw).
    exists (S n), wrong. rewrite E, <- app_assoc. cbn [take fmap list_fmap length app].
    repeat split; [lia | assumption].
  - exists 0, (wrong_fields fieldnames r). cbn [take fmap list_fmap length].
    rewrite app_nil_r. repeat split; [lia | assumption].
Qed.

Lemma dict_to_list_line fieldnames record :
  line_of fieldnames record (dict_to_list fieldnames record).
Proof.
  unfold line_of, dict_to_list. induction fieldnames; cbn; constructor; auto.
Qed.

Lemma Forall_imap_intro {A B : Type} (P : B -> Prop) (f : nat -> A -> B) (l : list A) :
  (forall i x, l !! i = Some x -> P (f i x)) -> Forall P (imap f l).
Proof.
  intros H. apply Forall_lookup_2. intros i y Hy.
  rewrite list_lookup_imap in Hy. destruct (l !! i) as [x|] eqn:E; [| discriminate].
  injection Hy as <-. now apply H.
Qed.



(** ** The output files of the evaluators *)

Ltac field_in :=
  match goal with
  | Hn : ?x ∉ list_to_set _ |- _ =>
      exfalso; apply Hn; apply elem_of_list_to_set, list_elem_of_In; simpl; tauto
  end.

Ltac known_tac Hk :=
  match goal with
  | |- wrong_fields ?fieldnames ?record = ∅ =>
      apply elem_of_equiv_empty_L; intros x; unfold wrong_fields;
      rewrite elem_of_difference, elem_of_dom; cbv zeta; intros [Hx Hn];
      repeat (apply lookup_insert_is_Some in Hx as [<-|[_ Hx]]; [field_in |]);
      rewrite lookup_fmap, fmap_is_Some in Hx;
      apply Hn, elem_of_list_to_set, list_elem_of_In, Hk, Hx
  end.

Lemma ollama_record_known row model_name iteration text :
  known_columns OllamaIO.fieldnames row ->
  wrong_fields OllamaIO.fieldnames (ollama_record row model_name iteration text) = ∅.
Proof. intros Hk. unfold ollama_record. known_tac Hk. Qed.

Lemma gemini_record_known row iteration text :
  known_columns OllamaIO.fieldnames row ->
  wrong_fields GeminiIO.fieldnames (gemini_record row iteration text) = ∅.
Proof.
  intros Hk.
  assert (Hk' : known_columns GeminiIO.fieldnames row).
  { intros key Hs. specialize (Hk key Hs). simpl in *. tauto. }
  unfold gemini_record. known_tac Hk'.
Qed.

Lemma gpt_record_known row text :
  known_columns Gpt4oMiniIO.fieldnames row ->
  wrong_fields Gpt4oMiniIO.fieldnames (gpt_record row text) = ∅.
Proof. intros Hk. unfold gpt_record. known_tac Hk. Qed.

Lemma triples_length rows models :
  length (triples rows models) = length rows * length models * 5.
Proof.
  unfold triples. induction rows as [|row rows IH]; [reflexivity |].
  cbn [flat_map length]. rewrite length_app, IH.
  assert (E : forall l : list string,
            length (flat_map (fun model_name : string =>
                      map (fun iteration => (row, model_name, iteration)) iterations) l)
            = length l * 5).
  { induction l as [|m l IHl]; [reflexivity |].
    cbn [flat_map length]. rewrite length_app, IHl. reflexivity. }
  rewrite E. lia.
Qed.

Lemma rounds_length (rows : list (gmap string cell)) :
  length (flat_map (fun row => map (fun iteration : nat => (row, iteration)) iterations)
            rows) = length rows * 5.
Proof.
  induction rows as [|row rows IH]; [reflexivity |].
  cbn [flat_map length]. rewrite length_app, length_map, IH. reflexivity.
Qed.

Lemma saved_lines fieldnames (results : list (gmap string pyval)) :
  Forall (fun record => wrong_fields fieldnames record = ∅) results ->
  exists file,
    save_after (Ok results) (write_csv fieldnames) = Completed file /\
    length file = 1 + length results /\
    file !! 0 = Some (PStr <$> fieldnames) /\
    forall n record, results !! n = Some record ->
      exists line, file !! S n = Some line /\ line_of fieldnames record line.
Proof.
  intros H. exists ((PStr <$> fieldnames) :: (dict_to_list fieldnames <$> results)).
  split; [| split; [| split]].
  - unfold save_after, write_csv. now rewrite (writerows_ok _ _ _ H).
  - cbn [length]. now rewrite length_fmap.
  - reflexivity.
  - intros n record Hn. exists (dict_to_list fieldnames record). split.
    + change ((dict_to_list fieldnames <$> results) !! n
              = Some (dict_to_list fieldnames record)).
      now rewrite list_lookup_fmap, Hn.
    + apply dict_to_list_line.
Qed.

(** X14 *)
(** X14: when every row of the input has the three columns the scripts read
    and no column outside the sixteen field names of the output, [main] of
    the Ollama script ends with the file saved, and so does [main] of the
    Gemini script when its key file can be read and holds more than white
    space: a header and one line per record, in the order of the records
    (25 per row with the five Ollama models, 5 per row for Gemini). A line
    holds the record's value under each field name, and the empty string
    under a field name the record lacks. With any other key file [main] of
    the Gemini script ends in the exception of the constructor, whatever
    the rows are, and no file is written. *)
Theorem evaluator_main_saves (key : file_read) (configured : option string)
    (llm : collaborator) (rows : list (gmap string cell)) :
  Forall (fun row => has_columns row /\ known_columns OllamaIO.fieldnames row) rows ->
  (exists file,
     OllamaIO.main llm rows = Completed file /\
     length file = 1 + length rows * 25 /\
     file !! 0 = Some (PStr <$> OllamaIO.fieldnames) /\
     forall n record,
       ollama_results llm (Ollama.model_names Ollama.default) rows !! n = Some record ->
       exists line, file !! S n = Some line /\ line_of OllamaIO.fieldnames record line) /\
  (key_read key ->
   exists file,
     GeminiIO.main key configured llm rows = Completed file /\
     length file = 1 + length rows * 5 /\
     file !! 0 = Some (PStr <$> GeminiIO.fieldnames) /\
     forall n record, gemini_results llm rows !! n = Some record ->
       exists line, file !! S n = Some line /\ line_of GeminiIO.fieldnames record line) /\
  (~ key_read key ->
   exists e, GeminiIO.main key configured llm rows = InitRaised e).
Proof.
  intros H.
  assert (Hc : Forall has_columns rows) by (eapply Forall_impl; [exact H | now intros ? []]).
  assert (Hk : forall row, In row rows -> known_columns OllamaIO.fieldnames row).
  { rewrite List.Forall_forall in H. intros row Hin. now apply H. }
  split; [| split].
  - destruct (saved_lines OllamaIO.fieldnames
                (ollama_results llm (Ollama.model_names Ollama.default) rows))
      as (file & E & L & H0 & Hl).
    { apply Forall_imap_intro. intros i [[row m] it] Hi. apply ollama_record_known, Hk.
      apply list_elem_of_lookup_2, list_elem_of_In in Hi. unfold triples in Hi.
      apply in_flat_map in Hi as (row' & Hrow & Hi).
      apply in_flat_map in Hi as (m' & _ & Hi).
      apply in_map_iff in Hi as (it' & [= <- <- <-] & _). exact Hrow. }
    exists file. unfold OllamaIO.main, OllamaIO.save_to_csv.
    rewrite ollama_rows_loop, (ollama_loop _ llm rows _ Hc). cbn [bind results app].
    split; [exact E |]. split; [| split; assumption].
    rewrite L. unfold ollama_results. rewrite length_imap, triples_length.
    cbn [Ollama.default Ollama.model_names length]. lia.
  - intros Hkey.
    destruct (saved_lines GeminiIO.fieldnames (gemini_results llm rows))
      as (file & E & L & H0 & Hl).
    { apply Forall_imap_intro. intros i [row it] Hi. apply gemini_record_known, Hk.
      apply list_elem_of_lookup_2, list_elem_of_In in Hi.
      apply in_flat_map in Hi as (row' & Hrow & Hi).
      apply in_map_iff in Hi as (it' & [= <- <-] & _). exact Hrow. }
    exists file. rewrite (gemini_main_ready key configured llm rows Hkey).
    unfold GeminiIO.save_to_csv.
    rewrite gemini_rows_loop, (gemini_loop llm rows _ Hc). cbn [bind results app].
    split; [exact E |]. split; [| split; assumption].
    rewrite L. unfold gemini_results. now rewrite length_imap, rounds_length.
  - apply gemini_main_fails.
Qed.

Lemma row0_known : known_columns Gpt4oMiniIO.fieldnames row0.
Proof.
  intros key Hs. unfold row0 in Hs.
  repeat (apply lookup_insert_is_Some in Hs as [<-|[_ Hs]]; [simpl; tauto |]).
  rewrite lookup_empty in Hs. now destruct Hs.
Qed.

Lemma known_columns_more row :
  known_columns Gpt4oMiniIO.fieldnames row -> known_columns OllamaIO.fieldnames row.
Proof. intros H key Hs. specialize (H key Hs). simpl in *. tauto. Qed.

Lemma key_read_text : key_read (Content "key").
Proof. exists "key". split; [reflexivity | discriminate]. Qed.

Lemma evaluator_main_saves_witness :
  (exists file, OllamaIO.main llm_down [row0] = Completed file /\ length file = 26) /\
  (exists file, GeminiIO.main (Content "key") None llm_down [row0] = Completed file /\
                length file = 6).
Proof.
  destruct (evaluator_main_saves (Content "key") None llm_down [row0])
    as ((file & E & L & _) & H & _).
  - constructor; [| constructor].
    split; [apply row0_columns | apply known_columns_more, row0_known].
  - split; [exists file; split; [exact E | exact L] |].
    destruct (H key_read_text) as (file' & E' & L' & _).
    exists file'. split; [exact E' | exact L'].
Defined.

(** X15 *)
(** X15: when the key file can be read and holds more than white space, and
    every row of the input has the three columns and [model] and no column
    outside the fourteen field names of its output, [main] of the
    GPT-4o-mini script ends with the file saved: a header and one line per
    row, in the order of the rows, each with the record's value under each
    field name and the empty string where the record has none. With any
    other key file [main] ends in the exception of the constructor,
    whatever the rows are, and no file is written. *)
Theorem gpt_main_saves (api_key_path : string) (key : file_read)
    (api_key : option string) (llm : collaborator) (rows : list (gmap string cell)) :
  (key_read key ->
   Forall (fun row => has_model row /\ known_columns Gpt4oMiniIO.fieldnames row) rows ->
   exists file,
     Gpt4oMiniIO.main api_key_path key api_key llm rows = Completed file /\
     length file = 1 + length rows /\
     file !! 0 = Some (PStr <$> Gpt4oMiniIO.fieldnames) /\
     forall n record, gpt_results llm rows !! n = Some record ->
       exists line, file !! S n = Some line /\
                    line_of Gpt4oMiniIO.fieldnames record line) /\
  (~ key_read key ->
   exists e, Gpt4oMiniIO.main api_key_path key api_key llm rows = InitRaised e).
Proof.
  split; [| apply gpt_main_fails]. intros Hkey H.
  assert (Hc : Forall has_model rows) by (eapply Forall_impl; [exact H | now intros ? []]).
  destruct (saved_lines Gpt4oMiniIO.fieldnames (gpt_results llm rows))
    as (file & E & L & H0 & Hl).
  { apply Forall_imap_intro. intros i row Hi. apply gpt_record_known.
    rewrite List.Forall_forall in H.
    now apply H, list_elem_of_In, (list_elem_of_lookup_2 _ i). }
  exists file. rewrite (gpt_main_ready api_key_path key api_key llm rows Hkey).
  unfold Gpt4oMiniIO.save_to_csv.
  rewrite gpt_rows_loop, (gpt_loop llm rows _ Hc). cbn [bind results app].
  split; [exact E |]. split; [| split; assumption].
  rewrite L. unfold gpt_results. now rewrite length_imap.
Qed.

Lemma gpt_main_saves_witness :
  (exists file, Gpt4oMiniIO.main "API_KEY_openai.txt" (Content "key") None llm_down [row0]
                = Completed file /\ length file = 2) /\
  (exists e, Gpt4oMiniIO.main "API_KEY_openai.txt" (Content " ") None llm_down [row0]
             = InitRaised e).
Proof.
  split.
  - destruct (gpt_main_saves "API_KEY_openai.txt" (Content "key") None llm_down [row0])
      as [H _].
    destruct (H key_read_text) as (file & E & L & _).
    + constructor; [| constructor]. split; [apply row0_model | apply row0_known].
    + exists file. split; [exact E | exact L].
  - destruct (gpt_main_saves "API_KEY_openai.txt" (Content " ") None llm_down [row0])
      as [_ H].
    apply H. intros (text & [= <-] & Hb). now apply Hb.
Defined.

(** ** A column the output file does not know *)

Ltac unknown_tac :=
  match goal with
  | Hs : is_Some (?row !! ?key), Hn : ~ In ?key ?fieldnames
    |- wrong_fields ?fieldnames ?record <> ∅ =>
      intros Hw; apply (elem_of_equiv_empty_L (wrong_fields fieldnames record)) with key in Hw;
      apply Hw; unfold wrong_fields; rewrite elem_of_difference, elem_of_dom;
      cbv zeta; split;
      [ rewrite !lookup_insert_ne by (intros <-; apply Hn; simpl; tauto);
        now rewrite lookup_fmap, fmap_is_Some
      | now rewrite elem_of_list_to_set, list_elem_of_In ]
  end.

Lemma ollama_record_unknown row model_name iteration text :
  unknown_column OllamaIO.fieldnames row ->
  wrong_fields OllamaIO.fieldnames (ollama_record row model_name iteration text) <> ∅.
Proof. intros (key & Hs & Hn). unfold ollama_record. unknown_tac. Qed.

Lemma gemini_record_unknown row iteration text :
  unknown_column GeminiIO.fieldnames row ->
  wrong_fields GeminiIO.fieldnames (gemini_record row iteration text) <> ∅.
Proof. intros (key & Hs & Hn). unfold gemini_record. unknown_tac. Qed.

Lemma gpt_record_unknown row text :
  unknown_column Gpt4oMiniIO.fieldnames row ->
  wrong_fields Gpt4oMiniIO.fieldnames (gpt_record row text) <> ∅.
Proof. intros (key & Hs & Hn). unfold gpt_record. unknown_tac. Qed.

Lemma save_raises fieldnames (results : list (gmap string pyval)) :
  Exists (fun record => wrong_fields fieldnames record <> ∅) results ->
  exists file wrong,
    save_after (Ok results) (write_csv fieldnames) = SaveRaised file wrong /\
    wrong <> ∅ /\ length file <= length results.
Proof.
  intros H. unfold save_after, write_csv.
  destruct (writerows_bad fieldnames results [PStr <$> fieldnames] H)
    as (n & wrong & -> & Hn & Hw).
  eexists _, wrong. split; [reflexivity |]. split; [assumption |].
  cbn [app length]. rewrite length_fmap, length_take. lia.
Qed.

(** X16 *)
(** X16: a row of the input with a column that is no field name of the
    output makes [main] fail at the end (for the Gemini and the GPT-4o-mini
    script: once the constructor has read a key file that holds more than
    white space). [evaluate_recipes] first returns all its records, every
    collaborator call made; then [save_to_csv] raises [ValueError] naming
    the unknown fields, and the file is left with the header and the lines
    of the records before the first such row. For the GPT-4o-mini script
    [evaluator_model] and [iteration] are unknown columns, so it cannot take
    the output of the other two scripts as its input. *)
Theorem unknown_column_fails_save (api_key_path : string) (key : file_read)
    (configured : option string) (llm : collaborator)
    (rows : list (gmap string cell)) :
  Forall has_model rows ->
  (Exists (unknown_column OllamaIO.fieldnames) rows ->
   exists file wrong,
     Ollama.evaluate_recipes Ollama.default llm rows
     = Ok (ollama_results llm (Ollama.model_names Ollama.default) rows) /\
     OllamaIO.main llm rows = SaveRaised file wrong /\ wrong <> ∅ /\
     length file <= length rows * 25) /\
  (key_read key -> Exists (unknown_column GeminiIO.fieldnames) rows ->
   exists file wrong,
     Gemini.evaluate_recipes llm rows = Ok (gemini_results llm rows) /\
     GeminiIO.main key configured llm rows = SaveRaised file wrong /\ wrong <> ∅ /\
     length file <= length rows * 5) /\
  (key_read key -> Exists (unknown_column Gpt4oMiniIO.fieldnames) rows ->
   exists file wrong,
     Gpt4oMini.evaluate_recipes llm rows = Ok (gpt_results llm rows) /\
     Gpt4oMiniIO.main api_key_path key configured llm rows = SaveRaised file wrong /\
     wrong <> ∅ /\ length file <= length rows).
Proof.
  intros Hm.
  assert (Hc : Forall has_columns rows) by (eapply Forall_impl; [exact Hm | now intros ? []]).
  split; [| split]; [intros Hx | intros Hkey Hx | intros Hkey Hx];
    apply List.Exists_exists in Hx as (row & Hin & Hu).
  - destruct (save_raises OllamaIO.fieldnames
                (ollama_results llm (Ollama.model_names Ollama.default) rows))
      as (file & wrong & E & Hw & L).
    { apply List.Exists_exists.
      assert (Ht : In (row, "gemma2:2b", 1)
                     (triples rows (Ollama.model_names Ollama.default))).
      { unfold triples. apply in_flat_map. exists row. split; [exact Hin |].
        apply in_flat_map. exists "gemma2:2b". split; [simpl; auto |].
        apply in_map_iff. exists 1. split; [reflexivity | simpl; auto]. }
      apply list_elem_of_In, list_elem_of_lookup_1 in Ht as [i Hi].
      eexists. split.
      - apply list_elem_of_In, (list_elem_of_lookup_2 _ i).
        unfold ollama_results. rewrite list_lookup_imap, Hi. reflexivity.
      - cbn beta iota. now apply ollama_record_unknown. }
    exists file, wrong. unfold OllamaIO.main, OllamaIO.save_to_csv.
    rewrite ollama_rows_loop, (ollama_loop _ llm rows _ Hc). cbn [bind results app].
    split; [reflexivity |]. split; [exact E |]. split; [exact Hw |].
    etransitivity; [exact L |]. unfold ollama_results.
    rewrite length_imap, triples_length. cbn [Ollama.default Ollama.model_names length]. lia.
  - destruct (save_raises GeminiIO.fieldnames (gemini_results llm rows))
      as (file & wrong & E & Hw & L).
    { apply List.Exists_exists.
      assert (Ht : In (row, 1)
                     (flat_map (fun row => map (fun iteration => (row, iteration))
                                             iterations) rows)).
      { apply in_flat_map. exists row. split; [exact Hin |].
        apply in_map_iff. exists 1. split; [reflexivity | simpl; auto]. }
      apply list_elem_of_In, list_elem_of_lookup_1 in Ht as [i Hi].
      eexists. split.
      - apply list_elem_of_In, (list_elem_of_lookup_2 _ i).
        unfold gemini_results. rewrite list_lookup_imap, Hi. reflexivity.
      - cbn beta iota. now apply gemini_record_unknown. }
    exists file, wrong. rewrite (gemini_main_ready key configured llm rows Hkey).
    unfold GeminiIO.save_to_csv.
    rewrite gemini_rows_loop, (gemini_loop llm rows _ Hc). cbn [bind results app].
    split; [reflexivity |]. split; [exact E |]. split; [exact Hw |].
    etransitivity; [exact L |]. unfold gemini_results.
    now rewrite length_imap, rounds_length.
  - destruct (save_raises Gpt4oMiniIO.fieldnames (gpt_results llm rows))
      as (file & wrong & E & Hw & L).
    { apply List.Exists_exists.
      apply list_elem_of_In, list_elem_of_lookup_1 in Hin as [i Hi].
      eexists. split.
      - apply list_elem_of_In, (list_elem_of_lookup_2 _ i).
        unfold gpt_results. rewrite list_lookup_imap, Hi. reflexivity.
      - now apply gpt_record_unknown. }
    exists file, wrong.
    rewrite (gpt_main_ready api_key_path key configured llm rows Hkey).
    unfold Gpt4oMiniIO.save_to_csv.
    rewrite gpt_rows_loop, (gpt_loop llm rows _ Hm). cbn [bind results app].
    split; [reflexivity |]. split; [exact E |]. split; [exact Hw |].
    etransitivity; [exact L |]. unfold gpt_results. now rewrite length_imap.
Qed.

Lemma unknown_column_fails_save_witness :
  exists file wrong,
    Gpt4oMiniIO.main "API_KEY_openai.txt" (Content "key") None llm_down
      [<["iteration" := Some "1"]> row0] = SaveRaised file wrong /\
    wrong <> ∅.
Proof.
  destruct (unknown_column_fails_save "API_KEY_openai.txt" (Content "key") None llm_down
              [<["iteration" := Some "1"]> row0])
    as (_ & _ & H).
  - constructor; [| constructor].
    split; [repeat split |]; unfold row0; map_lookup; eauto.
  - destruct (H key_read_text) as (file & wrong & _ & E & Hw & _).
    + constructor. exists "iteration". split; [map_lookup; eauto |].
      simpl. intros H0. repeat (destruct H0 as [H0|H0]; [discriminate |]). exact H0.
    + exists file, wrong. split; [exact E | exact Hw].
Defined.

(** X17 *)
(** X17: a key file that holds only white space makes the constructors of
    the GPT-4o-mini and of the Gemini evaluator raise
    [Exception("Error reading API key: API key is empty")]: the
    [ValueError] raised for the empty key is caught by the last [except]
    clause and wrapped. In the GPT-4o-mini script the empty key has by then
    been assigned to [openai.api_key]; the Gemini script has configured
    nothing. The constructor of the generator does not test the key and
    returns with the empty key. On any other text of the file the
    evaluators return with the key stripped of white space, which is then
    not empty. *)
Theorem key_file (api_key_path text : string) (configured : option string) :
  (blank text ->
   Gpt4oMiniIO.init api_key_path (Content text) configured
   = (Fails (Raising Exception "Error reading API key: API key is empty"), Some "") /\
   GeminiIO.init (Content text) configured
   = (Fails (Raising Exception "Error reading API key: API key is empty"), configured) /\
   Generator.init (Content text) configured = (Ready Generator.default, Some "")) /\
  (~ blank text ->
   Gpt4oMiniIO.init api_key_path (Content text) configured
   = (Ready tt, Some (strip text)) /\
   GeminiIO.init (Content text) configured = (Ready tt, Some (strip text)) /\
   strip text <> "").
Proof.
  split; intros H.
  - unfold Gpt4oMiniIO.init, GeminiIO.init, Generator.init, read_key.
    now rewrite (strip_blank text H).
  - assert (Hs : strip text <> "") by (intros E; now apply H, strip_empty).
    unfold Gpt4oMiniIO.init, GeminiIO.init, read_key.
    destruct (strip text) as [|a t]; [congruence |]. repeat split. discriminate.
Qed.

Lemma key_file_witness :
  GeminiIO.init (Content " 
") None
  = (Fails (Raising Exception "Error reading API key: API key is empty"), None).
Proof.
  destruct (key_file "" " 
" None) as [H _]. now apply H.
Defined.

(** ** A list between braces comes back as its items *)

Lemma numbering_chars a :
  char_in numbering a = true ->
  Ascii.eqb a newline = false /\ Ascii.eqb a "}" = false.
Proof. ascii_cases a. Qed.

Lemma space_chars a :
  is_space a = true -> Ascii.eqb a "}" = false.
Proof. ascii_cases a. Qed.

Lemma lstrip_bullet b item t :
  starts_with not_space item = true ->
  lstrip (b +:+ item +:+ t) = lstrip b +:+ item +:+ t.
Proof.
  intros Hi. induction b as [|a b IH]; cbn [String.append lstrip].
  - destruct item as [|c item]; [discriminate |]. cbn [starts_with] in Hi.
    unfold not_space in Hi. apply negb_true_iff in Hi.
    cbn [String.append lstrip]. now rewrite Hi.
  - destruct (is_space a); [exact IH | reflexivity].
Qed.

Lemma lstrip_chars_bullet b item :
  str_forall (char_in numbering) b = true ->
  starts_with (char_in numbering) item = false -> item <> "" ->
  lstrip_chars numbering (b +:+ item) = item.
Proof.
  intros Hb Hi Hne. induction b as [|a b IH]; cbn [String.append].
  - destruct item as [|c item]; [congruence |]. cbn [starts_with] in Hi.
    cbn [lstrip_chars]. now rewrite Hi.
  - cbn [str_forall] in Hb. apply andb_true_iff in Hb as [Ha Hb].
    cbn [lstrip_chars]. rewrite Ha. auto.
Qed.

Lemma tidy_nonempty item : tidy item -> item <> "".
Proof. intros [H _] ->. discriminate. Qed.

Lemma rstrip_item x item :
  tidy item -> rstrip (x +:+ item) = x +:+ item.
Proof.
  intros Ht. rewrite <- (str_app_nil_r (x +:+ item)) at 1.
  apply rstrip_tidy; [| reflexivity].
  rewrite ends_with_app by now apply tidy_nonempty. apply Ht.
Qed.

(** One line: the numbering goes, the item stays. *)
Lemma clean_line b item :
  str_forall (char_in numbering) b = true -> plain item ->
  nonempty (strip (b +:+ item)) = true /\
  lstrip_chars numbering (strip (b +:+ item)) = item.
Proof.
  intros Hb (Ht & _ & Hs).
  assert (E : strip (b +:+ item) = lstrip b +:+ item).
  { unfold strip. rewrite <- (str_app_nil_r item) at 1.
    rewrite (lstrip_bullet b item "" (proj1 Ht)), str_app_nil_r.
    now apply rstrip_item. }
  rewrite E. split.
  - destruct (lstrip b); [| reflexivity].
    pose proof (tidy_nonempty item Ht). now destruct item.
  - apply lstrip_chars_bullet; [now apply lstrip_forall | exact Hs |].
    now apply tidy_nonempty.
Qed.

Lemma listed_line line :
  listed line ->
  str_forall (fun a => negb (Ascii.eqb a newline)) (line.1 +:+ line.2) = true /\
  char_in (line.1 +:+ line.2) "}" = false.
Proof.
  intros (Hb & (_ & Hn & _) & Hc). rewrite str_forall_app, char_in_app, Hc.
  rewrite (no_char_forall _ _ Hn), andb_true_r, orb_false_r. split.
  - revert Hb. apply str_forall_impl. intros a Ha.
    apply numbering_chars in Ha as [-> _]. reflexivity.
  - apply forall_no_char. revert Hb. apply str_forall_impl. intros a Ha.
    apply numbering_chars in Ha as [_ ->]. reflexivity.
Qed.

Lemma clean_lines_bulleted lines :
  Forall listed lines -> Generator.clean_lines (bulleted lines) = map snd lines.
Proof.
  intros H. unfold Generator.clean_lines, bulleted.
  destruct lines as [|l0 ls]; [reflexivity |].
  change nl with (String newline ""). rewrite split_join; [| discriminate |].
  - induction H as [|[b item] l Hl _ IH]; [reflexivity |].
    destruct Hl as (Hb & Hp & _). cbn [fst snd] in *.
    destruct (clean_line b item Hb Hp) as [E1 E2]. unfold numbering in E2.
    cbn [map]. rewrite filter_cons_True by exact E1.
    cbn [map]. now rewrite E2, IH.
  - apply List.Forall_forall. intros x Hx.
    apply in_map_iff in Hx as ([b item] & <- & Hx).
    rewrite List.Forall_forall in H. now apply (listed_line (b, item)), H.
Qed.

Lemma blank_no_close s : blank s -> char_in s "}" = false.
Proof.
  intros H. apply forall_no_char. revert H. apply str_forall_impl.
  intros a Ha. now rewrite (space_chars a Ha).
Qed.

Lemma bulleted_no_close lines : Forall listed lines -> char_in (bulleted lines) "}" = false.
Proof.
  intros H. apply forall_no_char. unfold bulleted. apply join_forall; [reflexivity |].
  apply List.Forall_forall. intros x Hx.
  apply in_map_iff in Hx as ([b item] & <- & Hx).
  rewrite List.Forall_forall in H.
  now apply no_char_forall, (listed_line (b, item)), H.
Qed.

Lemma lstrip_lead lead y : blank lead -> lstrip (lead +:+ y) = lstrip y.
Proof.
  unfold blank. induction lead as [|a lead IH]; [reflexivity |].
  cbn [str_forall String.append lstrip]. intros H.
  apply andb_true_iff in H as [-> H]. auto.
Qed.

Lemma ends_with_nonempty p s : ends_with p s = true -> s <> "".
Proof. now intros H ->. Qed.

Lemma bulleted_cons b item ls :
  bulleted ((b, item) :: ls)
  = b +:+ item +:+ match ls with [] => "" | _ => nl +:+ bulleted ls end.
Proof.
  unfold bulleted, join. destruct ls as [|l ls]; cbn [map String.concat].
  - now rewrite str_app_nil_r.
  - now rewrite str_app_assoc.
Qed.

Lemma bulleted_ends lines :
  Forall listed lines -> lines <> [] -> ends_with not_space (bulleted lines) = true.
Proof.
  intros H. induction H as [|[b item] ls (_ & Hp & _) Hls IH]; [congruence |].
  intros _. rewrite bulleted_cons. cbn [snd] in Hp.
  destruct ls as [|l ls].
  - rewrite str_app_nil_r, ends_with_app by now apply tidy_nonempty, Hp. apply Hp.
  - assert (E : ends_with not_space (bulleted (l :: ls)) = true)
      by (apply IH; discriminate).
    pose proof (ends_with_nonempty _ _ E) as Hne.
    rewrite !ends_with_app; [exact E | assumption | | ].
    + destruct (bulleted (l :: ls)); [congruence | discriminate].
    + pose proof (tidy_nonempty item (proj1 Hp)) as Hi.
      destruct item; [congruence | discriminate].
Qed.

(** The text between the braces, stripped: the first numbering may lose
    white space, nothing else changes. *)
Lemma strip_bulleted lead lines trail :
  blank lead -> blank trail -> Forall listed lines ->
  exists lines', strip (lead +:+ bulleted lines +:+ trail) = bulleted lines' /\
                 Forall listed lines' /\ map snd lines' = map snd lines.
Proof.
  intros Hl Ht H. destruct H as [|[b item] ls (Hb & Hp & Hc) Hls].
  - exists []. split; [| split; [constructor | reflexivity]].
    apply strip_blank. unfold blank in *. cbn. now rewrite str_forall_app, Hl, Ht.
  - cbn [fst snd] in *. exists ((lstrip b, item) :: ls).
    assert (Hl' : Forall listed ((lstrip b, item) :: ls)).
    { constructor; [| assumption]. repeat split; try apply Hp; try assumption.
      now apply lstrip_forall. }
    split; [| split; [assumption | reflexivity]].
    unfold strip. rewrite (lstrip_lead lead _ Hl).
    assert (E : lstrip (bulleted ((b, item) :: ls) +:+ trail)
                = bulleted ((lstrip b, item) :: ls) +:+ trail).
    { rewrite !bulleted_cons, !str_app_assoc. apply lstrip_bullet, Hp. }
    rewrite E. apply rstrip_tidy; [| exact Ht].
    apply bulleted_ends; [assumption | discriminate].
Qed.

(** X18 *)
(** X18: a list between braces with one item per line, each item behind a
    numbering or bullet made of digits, dots, spaces, asterisks and hyphens,
    comes back as its items: when the first "ingredients:" of the response
    is followed by such a list, the ingredients returned are the items
    joined by ", ", and for "instructions:" the items joined by newlines.
    The items are plain: not empty, on one line, without white space at
    either end, without a closing brace, and not beginning with a numbering
    character themselves. *)
Theorem extract_bulleted (pre lbl ws lead trail post : string)
    (lines : list (string * string)) :
  blank ws -> blank lead -> blank trail -> Forall listed lines ->
  (same_letters "ingredients:" lbl = true ->
   starts_first "ingredients:" pre
     (lbl +:+ ws +:+ "{" +:+ (lead +:+ bulleted lines +:+ trail) +:+ "}" +:+ post) ->
   exists instructions,
     Generator.extract_ingredients_instructions
       (pre +:+ lbl +:+ ws +:+ "{" +:+ (lead +:+ bulleted lines +:+ trail) +:+ "}" +:+ post)
     = Ok (join ", " (map snd lines), instructions)) /\
  (same_letters "instructions:" lbl = true ->
   starts_first "instructions:" pre
     (lbl +:+ ws +:+ "{" +:+ (lead +:+ bulleted lines +:+ trail) +:+ "}" +:+ post) ->
   exists ingredients,
     Generator.extract_ingredients_instructions
       (pre +:+ lbl +:+ ws +:+ "{" +:+ (lead +:+ bulleted lines +:+ trail) +:+ "}" +:+ post)
     = Ok (ingredients, join nl (map snd lines))).
Proof.
  intros Hw Hl Ht H.
  set (body := lead +:+ bulleted lines +:+ trail).
  set (text := pre +:+ lbl +:+ ws +:+ "{" +:+ body +:+ "}" +:+ post).
  assert (Hb : char_in body "}" = false).
  { unfold body. now rewrite !char_in_app, (blank_no_close lead Hl),
      (blank_no_close trail Ht), (bulleted_no_close lines H). }
  destruct (strip_bulleted lead lines trail Hl Ht H) as (lines' & Es & H' & Em).
  fold body in Es.
  assert (Ec : Generator.clean_lines (strip body) = map snd lines).
  { rewrite Es, <- Em. now apply clean_lines_bulleted. }
  pose proof (extract_total text) as Hx. split; intros Hs Hf.
  - destruct (braces_found _ lbl pre ws body post Hs Hf Hw Hb) as (m & Hm & Hg).
    fold text in Hm. unfold Generator.extract_ingredients_instructions in *.
    rewrite Hm, Hg in *. cbn [bind] in *.
    destruct (match re_search flags_si (Generator.braces "instructions:") text with
              | Some m0 => group1_strip m0 | None => Ok "" end) as [j|];
      cbn [bind] in *; [| discriminate].
    rewrite Ec. eauto.
  - destruct (braces_found _ lbl pre ws body post Hs Hf Hw Hb) as (m & Hm & Hg).
    fold text in Hm. unfold Generator.extract_ingredients_instructions in *.
    rewrite Hm, Hg in *.
    destruct (match re_search flags_si (Generator.braces "ingredients:") text with
              | Some m0 => group1_strip m0 | None => Ok "" end) as [i|];
      cbn [bind] in *; [| discriminate].
    rewrite Ec. eauto.
Qed.

Lemma extract_bulleted_witness :
  exists ingredients,
    Generator.extract_ingredients_instructions "Instructions: {
1. Boil the rice.
2. Fry the eggs.
}" = Ok (ingredients, "Boil the rice.
Fry the eggs.").
Proof.
  apply (proj2 (extract_bulleted "" "Instructions:" " " nl nl ""
                  [("1. ", "Boil the rice."); ("2. ", "Fry the eggs.")]
                  eq_refl eq_refl eq_refl
                  (ltac:(repeat constructor))));
    [reflexivity | exact I].
Defined.

(** ** The case of the letters *)

Lemma lower_facts a :
  lower (lower a) = lower a /\ is_space (lower a) = is_space a /\
  is_digit (lower a) = is_digit a /\
  Ascii.eqb (lower a) newline = Ascii.eqb a newline.
Proof. ascii_cases a. Qed.

Lemma chr_eq_lower c a : chr_eq flags_si c (lower a) = chr_eq flags_si c a.
Proof.
  unfold chr_eq. cbn [IGNORECASE flags_si].
  now destruct (lower_facts a) as (-> & _).
Qed.

Lemma cmatch_lower c a :
  simple_set c = true -> cmatch flags_si c (lower a) = cmatch flags_si c a.
Proof.
  destruct (lower_facts a) as (_ & Hs & Hd & Hn).
  destruct c; cbn [cmatch simple_set]; intros H.
  - now rewrite Hn.
  - apply chr_eq_lower.
  - exact Hs.
  - exact Hd.
  - discriminate.
Qed.

Lemma lower_str_length s : String.length (lower_str s) = String.length s.
Proof. induction s; cbn; congruence. Qed.

Lemma str_take_lower n : forall s, str_take n (lower_str s) = lower_str (str_take n s).
Proof.
  induction n as [|n IH]; intros [|a s]; cbn; try reflexivity. now rewrite IH.
Qed.

Lemma consumed_lower s t :
  consumed (lower_str s) (lower_str t) = lower_str (consumed s t).
Proof. unfold consumed. now rewrite !lower_str_length, str_take_lower. Qed.

Lemma match_lit_lower w : forall s,
  match_lit flags_si w (lower_str s) = option_map lower_str (match_lit flags_si w s).
Proof.
  induction w as [|c w IH]; intros s; [reflexivity |].
  destruct s as [|a s]; [reflexivity |]. cbn [lower_str match_lit].
  rewrite chr_eq_lower. destruct (chr_eq flags_si c a); [apply IH | reflexivity].
Qed.

Lemma at_end_lower s : at_end (lower_str s) = at_end s.
Proof.
  destruct s as [|a [|b s]]; try reflexivity.
  cbn [lower_str at_end]. now destruct (lower_facts a) as (_ & _ & _ & ->).
Qed.

Section StarCase.
Context {R : Type} (p : ascii -> bool) (F : R -> R).
Hypothesis p_lower : forall a, p (lower a) = p a.

Lemma star_greedy_lower s (k k' : string -> option R) :
  (forall t, k' (lower_str t) = option_map F (k t)) ->
  star_greedy p (lower_str s) k' = option_map F (star_greedy p s k).
Proof.
  intros Hk. induction s as [|a s IH]; [apply (Hk "") |].
  pose proof (Hk (String a s)) as Hk1. cbn [lower_str] in Hk1.
  cbn [lower_str star_greedy]. rewrite p_lower, IH, Hk1.
  destruct (p a); [| reflexivity]. now destruct (star_greedy p s k).
Qed.

Lemma star_lazy_lower s (k k' : string -> option R) :
  (forall t, k' (lower_str t) = option_map F (k t)) ->
  star_lazy p (lower_str s) k' = option_map F (star_lazy p s k).
Proof.
  intros Hk. induction s as [|a s IH].
  - pose proof (Hk "") as Hk1. cbn [lower_str] in Hk1.
    cbn [lower_str star_lazy]. rewrite Hk1. now destruct (k "").
  - pose proof (Hk (String a s)) as Hk1. cbn [lower_str] in Hk1.
    cbn [lower_str star_lazy]. rewrite Hk1, p_lower, IH.
    destruct (k (String a s)); [reflexivity |]. now destruct (p a).
Qed.
End StarCase.

(** The matcher does on the lowered text what it does on the text. *)
Lemma rmatch_lower r : simple r = true ->
  forall s cap (k k' : string -> option string -> option mstate),
  (forall t c, k' (lower_str t) (option_map lower_str c) = option_map lower_state (k t c)) ->
  rmatch flags_si r (lower_str s) (option_map lower_str cap) k'
  = option_map lower_state (rmatch flags_si r s cap k).
Proof.
  induction r as [w|c|c|c|c|r1 IH1 r2 IH2|r1 IH1 r2 IH2|r1 IH1|r1 IH1|r1 IH1|];
    cbn [simple]; intros Hs s cap k k' Hk; cbn [rmatch].
  - rewrite match_lit_lower. destruct (match_lit flags_si w s); [apply Hk | reflexivity].
  - destruct s as [|a s]; [reflexivity |]. cbn [lower_str].
    rewrite (cmatch_lower c a Hs). destruct (cmatch flags_si c a); [apply Hk | reflexivity].
  - apply star_greedy_lower; [intros a; now apply cmatch_lower | intros t; apply Hk].
  - apply star_lazy_lower; [intros a; now apply cmatch_lower | intros t; apply Hk].
  - destruct s as [|a s]; [reflexivity |]. cbn [lower_str].
    rewrite (cmatch_lower c a Hs). destruct (cmatch flags_si c a); [| reflexivity].
    apply star_greedy_lower; [intros b; now apply cmatch_lower | intros t; apply Hk].
  - apply andb_true_iff in Hs as [H1 H2]. apply (IH1 H1). intros t c.
    now apply (IH2 H2).
  - apply andb_true_iff in Hs as [H1 H2].
    rewrite (IH1 H1 s cap k k' Hk), (IH2 H2 s cap k k' Hk).
    now destruct (rmatch flags_si r1 s cap k).
  - rewrite (IH1 Hs s cap k k' Hk), (Hk s cap).
    now destruct (rmatch flags_si r1 s cap k).
  - apply (IH1 Hs). intros t c.
    rewrite consumed_lower. apply (Hk t (Some (consumed s t))).
  - rewrite (IH1 Hs s cap (fun s' cap' => Some (s', cap')) (fun s' cap' => Some (s', cap')))
      by reflexivity.
    destruct (rmatch flags_si r1 s cap _) as [[s2 c2]|]; [apply Hk | reflexivity].
  - rewrite at_end_lower. destruct (at_end s); [apply Hk | reflexivity].
Qed.

Lemma re_search_lower r s :
  simple r = true ->
  re_search flags_si r (lower_str s) = option_map lower_match (re_search flags_si r s).
Proof.
  intros Hs.
  assert (Hm : forall t, match_at flags_si r (lower_str t)
                         = option_map lower_state (match_at flags_si r t)).
  { intros t. unfold match_at. now apply (rmatch_lower r Hs t None). }
  induction s as [|a s IH].
  - pose proof (Hm "") as H0. cbn [lower_str] in H0.
    cbn [lower_str re_search].
    destruct (match_at flags_si r "") as [[s' cap]|]; [| reflexivity].
    injection H0 as _ H0. cbn [option_map]. unfold lower_match.
    cbn [group0 group1]. now rewrite <- H0.
  - pose proof (Hm (String a s)) as H0. cbn [lower_str] in H0.
    cbn [lower_str re_search]. rewrite H0.
    destruct (match_at flags_si r (String a s)) as [[s' cap]|]; [| exact IH].
    cbn [option_map lower_state fst snd]. unfold lower_match. cbn [group0 group1].
    now rewrite <- (consumed_lower (String a s) s').
Qed.

Lemma lstrip_lower s : lstrip (lower_str s) = lower_str (lstrip s).
Proof.
  induction s as [|a s IH]; [reflexivity |]. cbn [lower_str lstrip].
  destruct (lower_facts a) as (_ & -> & _). now destruct (is_space a).
Qed.

Lemma rstrip_lower s : rstrip (lower_str s) = lower_str (rstrip s).
Proof.
  induction s as [|a s IH]; [reflexivity |]. cbn [lower_str rstrip]. rewrite IH.
  destruct (lower_facts a) as (_ & -> & _).
  destruct (rstrip s); [now destruct (is_space a) | reflexivity].
Qed.

Lemma strip_lower s : strip (lower_str s) = lower_str (strip s).
Proof. unfold strip. now rewrite lstrip_lower, rstrip_lower. Qed.

Lemma kept_lower a :
  negb (cmatch no_flags not_digit_or_dot (lower a))
  = negb (cmatch no_flags not_digit_or_dot a) /\
  (negb (cmatch no_flags not_digit_or_dot a) = true -> lower a = a).
Proof.
  destruct a as [[] [] [] [] [] [] [] []]; vm_compute;
    (split; [reflexivity | intros H; first [reflexivity | discriminate H]]).
Qed.

Lemma kept_lower_str s :
  str_filter (fun a => negb (cmatch no_flags not_digit_or_dot a)) (lower_str s)
  = str_filter (fun a => negb (cmatch no_flags not_digit_or_dot a)) s.
Proof.
  induction s as [|a s IH]; [reflexivity |]. cbn [lower_str str_filter].
  destruct (kept_lower a) as [-> H].
  destruct (negb (cmatch no_flags not_digit_or_dot a)); [| exact IH].
  now rewrite (H eq_refl), IH.
Qed.

Lemma coerce_score_lower value : coerce_score (lower_str value) = coerce_score value.
Proof. unfold coerce_score, re_sub_delete. now rewrite kept_lower_str. Qed.

Lemma lower_score value : lower_val (coerce_score value) = coerce_score value.
Proof. unfold coerce_score. cbv zeta. now destruct (py_float _). Qed.

Lemma parse_field_lower p key text :
  simple p = true ->
  parse_field p key (lower_str text) = lower_val (parse_field p key text).
Proof.
  intros Hs. unfold parse_field. rewrite (re_search_lower p text Hs).
  destruct (re_search flags_si p text) as [m|]; [| reflexivity].
  cbn [option_map lower_match group1]. cbv zeta.
  assert (E : strip (default "" (option_map lower_str (group1 m)))
              = lower_str (strip (default "" (group1 m)))).
  { rewrite <- strip_lower. now destruct (group1 m). }
  rewrite E. destruct (str_in "score" key); [| reflexivity].
  now rewrite coerce_score_lower, lower_score.
Qed.

Lemma gemini_field_lower p text :
  simple p = true ->
  gemini_field p (lower_str text) = lower_val (gemini_field p text).
Proof.
  intros Hs. unfold gemini_field. rewrite (re_search_lower p text Hs).
  destruct (re_search flags_si p text) as [m|]; [| reflexivity].
  cbn [option_map lower_match group1 lower_val]. f_equal.
  rewrite <- strip_lower. now destruct (group1 m).
Qed.

Lemma parse_fields_lower text :
  parse_fields Ollama.patterns (lower_str text)
  = lower_val <$> parse_fields Ollama.patterns text.
Proof.
  unfold parse_fields, Ollama.patterns. cbn [fold_left].
  rewrite !fmap_insert, fmap_empty.
  now rewrite !parse_field_lower by reflexivity.
Qed.

Lemma gemini_fields_lower text :
  gemini_fields Gemini.patterns (lower_str text)
  = lower_val <$> gemini_fields Gemini.patterns text.
Proof.
  unfold gemini_fields, Gemini.patterns. cbn [fold_left].
  rewrite !fmap_insert, fmap_empty.
  now rewrite !gemini_field_lower by reflexivity.
Qed.

(** X19 *)
(** X19: the parsers do not see the case of the ASCII letters. Two
    responses that are the same once their ASCII capitals are made small
    are parsed to the same three scores in the Ollama and GPT-4o-mini
    scripts, and in all three scripts to values that are the same once
    lowered in the same way: the labels and "Reason" are found in any case,
    and a reason is returned in the case it was written in. *)
Theorem parse_ignores_case (text1 text2 : string) :
  lower_str text1 = lower_str text2 ->
  exists d1 d2 g1 g2,
    Ollama.parse_evaluation text1 = Ok d1 /\ Ollama.parse_evaluation text2 = Ok d2 /\
    Gpt4oMini.parse_evaluation text1 = Ok d1 /\ Gpt4oMini.parse_evaluation text2 = Ok d2 /\
    Gemini.parse_evaluation text1 = Ok g1 /\ Gemini.parse_evaluation text2 = Ok g2 /\
    lower_val <$> d1 = lower_val <$> d2 /\
    lower_val <$> g1 = lower_val <$> g2 /\
    forall ks, In ks Ollama.score_keys -> d1 !! ks = d2 !! ks.
Proof.
  intros H.
  exists (parse_fields Ollama.patterns text1), (parse_fields Ollama.patterns text2),
    (gemini_fields Gemini.patterns text1), (gemini_fields Gemini.patterns text2).
  change Gpt4oMini.parse_evaluation with Ollama.parse_evaluation.
  rewrite !parse_evaluation_eq, !gemini_parse_evaluation_eq.
  do 6 (split; [reflexivity |]).
  assert (E : lower_val <$> parse_fields Ollama.patterns text1
              = lower_val <$> parse_fields Ollama.patterns text2)
    by now rewrite <- !parse_fields_lower, H.
  split; [exact E |]. split; [now rewrite <- !gemini_fields_lower, H |].
  intros ks Hin.
  assert (Hl : forall text, lower_val <$> (parse_fields Ollama.patterns text !! ks)
                            = parse_fields Ollama.patterns text !! ks).
  { intros text.
    assert (exists kr, In (ks, kr) criteria) as [kr Hc]
      by (destruct Hin as [<-|[<-|[<-|[]]]]; eexists; simpl; eauto).
    destruct (parse_fields_parsed text ks kr Hc) as (score & _ & -> & Hs & _).
    destruct Hs as [->|(f & -> & _)]; reflexivity. }
  rewrite <- (Hl text1), <- (Hl text2), <- !lookup_fmap. now rewrite E.
Qed.

Lemma parse_ignores_case_witness :
  exists d1 d2,
    Ollama.parse_evaluation "authenticity: 4
reason: Fine." = Ok d1 /\
    Ollama.parse_evaluation "AUTHENTICITY: 4
Reason: Fine." = Ok d2 /\
    d1 !! "authenticity_score" = d2 !! "authenticity_score".
Proof.
  destruct (parse_ignores_case "authenticity: 4
reason: Fine." "AUTHENTICITY: 4
Reason: Fine." eq_refl) as (d1 & d2 & _ & _ & E1 & E2 & _ & _ & _ & _ & _ & _ & H).
  exists d1, d2. split; [exact E1 |]. split; [exact E2 |]. apply H. simpl. auto.
Defined.
